(** * cntp_nodeverse: proxy validation, proxy assignment and task orchestration

    A shallow embedding of the JavaScript sources

    - [proxy_handler/worker.js]      (the per-proxy probe run inside a worker),
    - [proxy_handler/main.js]        (chunking, fan-out to workers, fan-in, store write),
    - [proxy_handler/assign_proxy.js] (greedy assignment of proxies to keys),
    - [node_handler/cntp.js], [node_handler/tokenHandler.js] (the login/check plugin),
    - [node_handler/automationManager.js] (the per-pair handler and the staggered run),
    - [node_handler/config.js]       (the constants),

    followed by the properties of these functions that the specification
    states.  Numbers are [Z] or [nat], JavaScript strings are [string], arrays
    are [list], rejected promises and thrown errors are the [Throw] case of
    [outcome], and everything outside the process (network, browser, timers,
    store faults) is an oracle passed as a section variable.  Every external
    call is assumed to settle.  Units of work that the sources start
    concurrently take their steps one unit after the other here; what is
    proved about them (order and time of their starts, what each writes, that
    all are awaited) does not depend on how their steps interleave. *)

From Stdlib Require Import String Ascii ZArith Lia Bool Arith List Permutation.
From Stdlib Require Import DecimalString.
Import ListNotations.
Open Scope string_scope.
Open Scope list_scope.
Open Scope nat_scope.

(** ** JavaScript values and built-ins used by the sources *)
Module Js.

(** A settled promise or a completed [try] block: a value, or a thrown error
    carrying its message. *)
Inductive outcome (A : Type) : Type :=
| Ok (a : A)
| Throw (message : string).
Arguments Ok {A} a.
Arguments Throw {A} message.

(** The dynamically typed values that flow through the plugin interface:
    booleans, (integral) numbers and strings. *)
Inductive value : Type :=
| VBool (b : bool)
| VNum (n : Z)
| VStr (s : string).

(** [!v] is [negb (truthy v)]. *)
Definition truthy (v : value) : bool :=
  match v with
  | VBool b => b
  | VNum n => negb (n =? 0)%Z
  | VStr s => negb (s =? "")%string
  end.

(** [v === false] *)
Definition strict_eq_false (v : value) : bool :=
  match v with
  | VBool false => true
  | _ => false
  end.

(** Numbers inside template strings. *)
Definition show_nat (n : nat) : string := NilZero.string_of_uint (Nat.to_uint n).
Definition show_Z (n : Z) : string := NilZero.string_of_int (Z.to_int n).

(** A value inside a template string. *)
Definition show (v : value) : string :=
  match v with
  | VBool true => "true"
  | VBool false => "false"
  | VNum n => show_Z n
  | VStr s => s
  end.

(** [Promise.all]: the list of values when every promise fulfils, else the
    first rejection. *)
Fixpoint promise_all {A} (ps : list (outcome A)) : outcome (list A) :=
  match ps with
  | [] => Ok []
  | Ok a :: ps' =>
      match promise_all ps' with
      | Ok l => Ok (a :: l)
      | Throw m => Throw m
      end
  | Throw m :: _ => Throw m
  end.

(** [arr.slice(start, end)] for non-negative integer bounds. *)
Definition slice {A} (arr : list A) (start end_ : nat) : list A :=
  firstn (end_ - start) (skipn start arr).

(** [arr.splice(0, n)]: the removed prefix and the array that remains. *)
Definition splice0 {A} (arr : list A) (n : nat) : list A * list A :=
  (firstn n arr, skipn n arr).

(** [arr.flat()] on an array of arrays. *)
Definition flat {A} (arrs : list (list A)) : list A := concat arrs.

(** A [while]/[for] loop over its local variables [S].  [None]: the loop is
    still running when the fuel is spent. *)
Fixpoint while_loop {S : Type} (fuel : nat) (cond : S -> bool) (body : S -> S)
  (s : S) : option S :=
  match fuel with
  | O => None
  | Datatypes.S fuel' =>
      if cond s then while_loop fuel' cond body (body s) else Some s
  end.

(** ASCII white space (the part of JavaScript's WhiteSpace and LineTerminator
    classes below code point 128). *)
Definition is_space (c : ascii) : bool :=
  let n := nat_of_ascii c in
  (n =? 32) || ((9 <=? n) && (n <=? 13)).

Fixpoint trimStart (s : string) : string :=
  match s with
  | String c s' => if is_space c then trimStart s' else s
  | EmptyString => EmptyString
  end.

Fixpoint rev_string (s acc : string) : string :=
  match s with
  | EmptyString => acc
  | String c s' => rev_string s' (String c acc)
  end.

(** [s.trim()] *)
Definition trim (s : string) : string :=
  rev_string (trimStart (rev_string (trimStart s) "")) "".

(** [s.split("\n")]: always at least one piece. *)
Fixpoint split_lines_aux (s cur : string) : list string :=
  match s with
  | EmptyString => [rev_string cur ""]
  | String c s' =>
      if (nat_of_ascii c =? 10) then rev_string cur "" :: split_lines_aux s' ""
      else split_lines_aux s' (String c cur)
  end.

Definition split_lines (s : string) : list string := split_lines_aux s "".

(** [Boolean(s)] on a string. *)
Definition nonempty (s : string) : bool := negb (s =? "")%string.

(** The value of [c] as a digit in [radix], if it is one. *)
Definition digit_of (radix : Z) (c : ascii) : option Z :=
  let n := Z.of_nat (nat_of_ascii c) in
  let d := (if (48 <=? n) && (n <=? 57) then n - 48
            else if (97 <=? n) && (n <=? 122) then n - 87
            else if (65 <=? n) && (n <=? 90) then n - 55
            else 36)%Z in
  if (d <? radix)%Z then Some d else None.

(** The longest prefix of digits, read in [radix]; [acc] is [None] until a
    first digit is seen. *)
Fixpoint read_digits (radix : Z) (s : string) (acc : option Z) : option Z :=
  match s with
  | EmptyString => acc
  | String c s' =>
      match digit_of radix c with
      | Some d =>
          read_digits radix s'
            (Some (radix * match acc with Some a => a | None => 0 end + d))
      | None => acc
      end
  end%Z.

(** [parseInt(s)] with no radix argument; [None] is [NaN].  Leading white
    space is skipped, a sign and a [0x]/[0X] prefix are honoured, and the
    digits stop at the first character that is not one. *)
Definition parseInt (s : string) : option Z :=
  let s1 := trimStart s in
  let '(sign, s2) :=
    match s1 with
    | String "-" r => ((-1)%Z, r)
    | String "+" r => (1%Z, r)
    | _ => (1%Z, s1)
    end in
  let '(radix, s3) :=
    match s2 with
    | String "0" (String "x" r) => (16%Z, r)
    | String "0" (String "X" r) => (16%Z, r)
    | _ => (10%Z, s2)
    end in
  option_map (Z.mul sign) (read_digits radix s3 None).

End Js.
Import Js.


(** ** Constants of [node_handler/config.js] and [proxy_handler/main.js] *)
Module Config.

(** What [automationManager.js] takes from [require('./config')]. *)
Record Config : Type := mkConfig {
  MAX_LOGIN_RETRIES : nat;
  PROFILE_CLEANUP_ON_FAILURE : bool;
  STAGGER_DELAY : Z
}.

(** The values [config.js] exports. *)
Definition config : Config :=
  {| MAX_LOGIN_RETRIES := 2;
     PROFILE_CLEANUP_ON_FAILURE := true;
     STAGGER_DELAY := 45000 |}.

(** [services.cntp] *)
Definition login_url : string :=
  "chrome-extension://ffccpciacnkgkkddhanggjlcajbbmmmn/popup.html".
Definition extension_url : string :=
  "chrome-extension://ffccpciacnkgkkddhanggjlcajbbmmmn/popup.html".
Definition plasmo (path : string) : string :=
  let quote := String (ascii_of_nat 34) EmptyString in
  ("//*[@id=" ++ quote ++ "__plasmo" ++ quote ++ "]" ++ path)%string.
Definition keyInput : string := plasmo "/div/div/div[3]/input".
Definition loginButton : string := plasmo "/div/div/div[3]/button".
Definition loginConfirmElement : string := plasmo "/div/div/div[2]/div[3]/div/p[1]".
Definition cntpValue : string := plasmo "/div/div/div[2]/div[3]/div/p[2]".

(** [PROXY_CHUNK_SIZE] of [main.js] and [CNTP_URL] of [worker.js]. *)
Definition PROXY_CHUNK_SIZE : nat := 10.
Definition CNTP_URL : string := "https://www.google.com".

End Config.
Import Config.

(** ** The store ([init_db.js]) and the rest of the process state *)
Module World.

(** A row of [filtered_proxies] and, equally, the object a probe returns.
    The two tag arrays are kept as lists; the store holds their JSON text. *)
Record ProbeResult : Type := mkProbe {
  proxy : string;
  success : list string;
  fail : list string
}.

(** A row of [task_monitoring].  [point] holds what the statement bound to
    the column; [last_updated] is the clock reading of the write. *)
Record TaskRow : Type := mkTask {
  task_id : Z;
  key_id : Z;
  task_proxy : string;
  service : string;
  state : string;
  retry_count : Z;
  point : value;
  last_updated : Z
}.

(** An entry of the JSON array in [FAILED_TASKS_PATH]. *)
Record FailedTask : Type := mkFailed {
  failed_key : string;
  failed_proxy : string;
  failed_service : string;
  failed_timestamp : Z
}.

(** Calls that leave the process, in the order they are made. *)
Inductive Call : Type :=
| CreateSession (profilePath proxyUrl : string)
| Login (service the_key proxyUrl : string)
| Check (service the_key proxyUrl : string)
| TabReset
| RemoveProfile (profilePath : string)
| SpawnWorker (proxies : list string)
| StartUnit (the_key proxyUrl : string) (at_time : Z).

Inductive Level : Type := INFO | WARN | ERROR.

(** Rows of [keys] and [keys_proxies]. *)
Record KeyRow : Type := mkKey { id : Z; the_key : string }.
Record KeyProxyRow : Type := mkKeyProxy { kp_key_id : Z; kp_proxy : string }.

(** The process state: the clock, the store (its statement counter, whether
    the manager holds an open handle, and its four tables), the failure file
    ([None] while it does not exist), the calls made so far and the log.
    [env] is the state of everything outside (browser, network, timers); the
    sources never look into it, they only hand it to the external calls. *)
Record World (E : Type) : Type := mkWorld {
  now : Z;
  store_ops : nat;
  db_open : bool;
  keys : list KeyRow;
  keys_proxies : list KeyProxyRow;
  filtered_proxies : list ProbeResult;
  task_monitoring : list TaskRow;
  fail_tasks : option (list FailedTask);
  calls : list Call;
  log : list (Level * string);
  env : E
}.
Arguments mkWorld {E}.
Arguments now {E}.
Arguments store_ops {E}.
Arguments db_open {E}.
Arguments keys {E}.
Arguments keys_proxies {E}.
Arguments filtered_proxies {E}.
Arguments task_monitoring {E}.
Arguments fail_tasks {E}.
Arguments calls {E}.
Arguments log {E}.
Arguments env {E}.

Section Updates.
Context {E : Type}.

Definition set_now (t : Z) (w : World E) : World E :=
  mkWorld t (store_ops w) (db_open w) (keys w) (keys_proxies w)
          (filtered_proxies w) (task_monitoring w) (fail_tasks w)
          (calls w) (log w) (env w).

Definition tick_store (w : World E) : World E :=
  mkWorld (now w) (S (store_ops w)) (db_open w) (keys w) (keys_proxies w)
          (filtered_proxies w) (task_monitoring w) (fail_tasks w)
          (calls w) (log w) (env w).

Definition set_db_open (b : bool) (w : World E) : World E :=
  mkWorld (now w) (store_ops w) b (keys w) (keys_proxies w)
          (filtered_proxies w) (task_monitoring w) (fail_tasks w)
          (calls w) (log w) (env w).

Definition set_keys (t : list KeyRow) (w : World E) : World E :=
  mkWorld (now w) (store_ops w) (db_open w) t (keys_proxies w)
          (filtered_proxies w) (task_monitoring w) (fail_tasks w)
          (calls w) (log w) (env w).

Definition set_keys_proxies (t : list KeyProxyRow) (w : World E) : World E :=
  mkWorld (now w) (store_ops w) (db_open w) (keys w) t
          (filtered_proxies w) (task_monitoring w) (fail_tasks w)
          (calls w) (log w) (env w).

Definition set_filtered_proxies (t : list ProbeResult) (w : World E) : World E :=
  mkWorld (now w) (store_ops w) (db_open w) (keys w) (keys_proxies w)
          t (task_monitoring w) (fail_tasks w)
          (calls w) (log w) (env w).

Definition set_task_monitoring (t : list TaskRow) (w : World E) : World E :=
  mkWorld (now w) (store_ops w) (db_open w) (keys w) (keys_proxies w)
          (filtered_proxies w) t (fail_tasks w)
          (calls w) (log w) (env w).

Definition set_fail_tasks (f : option (list FailedTask)) (w : World E) : World E :=
  mkWorld (now w) (store_ops w) (db_open w) (keys w) (keys_proxies w)
          (filtered_proxies w) (task_monitoring w) f
          (calls w) (log w) (env w).

Definition record_call (c : Call) (w : World E) : World E :=
  mkWorld (now w) (store_ops w) (db_open w) (keys w) (keys_proxies w)
          (filtered_proxies w) (task_monitoring w) (fail_tasks w)
          (calls w ++ [c]) (log w) (env w).

Definition add_log (l : Level) (msg : string) (w : World E) : World E :=
  mkWorld (now w) (store_ops w) (db_open w) (keys w) (keys_proxies w)
          (filtered_proxies w) (task_monitoring w) (fail_tasks w)
          (calls w) (log w ++ [(l, msg)]) (env w).

Definition set_env (e : E) (w : World E) : World E :=
  mkWorld (now w) (store_ops w) (db_open w) (keys w) (keys_proxies w)
          (filtered_proxies w) (task_monitoring w) (fail_tasks w)
          (calls w) (log w) e.

End Updates.

(** *** Asynchronous code as a state-and-exception monad

    An [async] function is a state transformer that ends in a value or a
    thrown error; [None] means a loop inside it outlived its fuel. *)
Definition M (E A : Type) : Type := World E -> option (outcome A * World E).

Section Monad.
Context {E : Type}.

Definition ret {A} (a : A) : M E A := fun w => Some (Ok a, w).

Definition throw {A} (msg : string) : M E A := fun w => Some (Throw msg, w).

Definition bind {A B} (m : M E A) (k : A -> M E B) : M E B :=
  fun w =>
    match m w with
    | Some (Ok a, w') => k a w'
    | Some (Throw msg, w') => Some (Throw msg, w')
    | None => None
    end.

(** [try { body } catch (error) { handler(error.message) }] *)
Definition try_catch {A} (body : M E A) (handler : string -> M E A) : M E A :=
  fun w =>
    match body w with
    | Some (Throw msg, w') => handler msg w'
    | r => r
    end.

(** [try { body } finally { fin }]: [fin] runs on every exit, and an error
    thrown by [fin] replaces the result of [body]. *)
Definition try_finally {A} (body : M E A) (fin : M E unit) : M E A :=
  fun w =>
    match body w with
    | Some (r, w') =>
        match fin w' with
        | Some (Ok _, w'') => Some (r, w'')
        | Some (Throw msg, w'') => Some (Throw msg, w'')
        | None => None
        end
    | None => None
    end.

(** A state change that cannot fail. *)
Definition modify (f : World E -> World E) : M E unit :=
  fun w => Some (Ok tt, f w).

Definition gets {A} (f : World E -> A) : M E A :=
  fun w => Some (Ok (f w), w).

(** A call that leaves the process: it is noted in [calls] and answered by
    the outside from its state [env]. *)
Definition external {A} (c : Call) (f : E -> outcome A * E) : M E A :=
  fun w =>
    let answer := f (env w) in
    Some (fst answer, set_env (snd answer) (record_call c w)).

(** An answer of the outside that is not one of the recorded calls. *)
Definition ask {A} (f : E -> A * E) : M E A :=
  fun w =>
    let answer := f (env w) in
    Some (Ok (fst answer), set_env (snd answer) w).

Definition logger (l : Level) (msg : string) : M E unit := modify (add_log l msg).

(** The result of a loop without effects, or no end. *)
Definition looping {A} (result : option A) : M E A :=
  fun w =>
    match result with
    | Some a => Some (Ok a, w)
    | None => None
    end.

(** An answer of the outside that may be an error, for calls that are not
    recorded. *)
Definition ask_outcome {A} (f : E -> outcome A * E) : M E A :=
  fun w =>
    let answer := f (env w) in
    Some (fst answer, set_env (snd answer) w).

(** A [while] loop whose body awaits: local variables [S], state [World]. *)
Fixpoint whileM {S : Type} (fuel : nat) (cond : S -> bool) (body : S -> M E S)
  (s : S) : M E S :=
  match fuel with
  | O => fun _ => None
  | Datatypes.S fuel' =>
      if cond s then bind (body s) (whileM fuel' cond body) else ret s
  end.

(** [for (const x of xs) { await body(x) }] *)
Fixpoint for_of {A} (xs : list A) (body : A -> M E unit) : M E unit :=
  match xs with
  | [] => ret tt
  | x :: xs' => bind (body x) (fun _ => for_of xs' body)
  end.

(** [xs.map(f)] for an [f] with effects (or [Promise.all(xs.map(f))] for an
    [f] that never rejects), evaluated left to right. *)
Fixpoint mapM {A B} (f : A -> M E B) (xs : list A) : M E (list B) :=
  match xs with
  | [] => ret []
  | x :: xs' => bind (f x) (fun y => bind (mapM f xs') (fun ys => ret (y :: ys)))
  end.

(** A promise that has been started: its settlement is a value the caller
    holds, not an error in the caller. *)
Definition settle {A} (m : M E A) : M E (outcome A) :=
  fun w =>
    match m w with
    | Some (r, w') => Some (Ok r, w')
    | None => None
    end.

(** [await Promise.all(promises)] *)
Definition await_all {A} (promises : list (outcome A)) : M E (list A) :=
  match promise_all promises with
  | Ok l => ret l
  | Throw message => throw message
  end.

End Monad.

Declare Scope js_scope.
Delimit Scope js_scope with js.
Notation "x <- m ;; k" := (bind m (fun x => k))
  (at level 100, m at next level, right associativity) : js_scope.
Notation "' pat <- m ;; k" := (bind m (fun x => let 'pat := x in k))
  (at level 100, pat pattern, m at next level, right associativity) : js_scope.
Notation "m ;;; k" := (bind m (fun _ => k))
  (at level 100, right associativity) : js_scope.

End World.
Import World.
Open Scope js_scope.

(** ** Access to the store

    Every statement sent to the store may fail; [store_fault n] is the error
    of the [n]-th statement of the process, if it has one. *)
Module Store.
Section Store.
Context {E : Type}.
Variable store_fault : nat -> option string.

(** One round trip to the store ([initDB], [db.get], [db.run], ...). *)
Definition statement : M E unit :=
  fun w =>
    match store_fault (store_ops w) with
    | Some msg => Some (Throw msg, tick_store w)
    | None => Some (Ok tt, tick_store w)
    end.

(** [DELETE FROM filtered_proxies] *)
Definition delete_filtered_proxies : M E unit :=
  statement ;;; modify (set_filtered_proxies []).

(** [INSERT OR REPLACE INTO filtered_proxies]: [proxy] is the primary key, so
    a row with the same proxy is dropped and the new row is added last. *)
Definition replace_row (r : ProbeResult) (t : list ProbeResult) : list ProbeResult :=
  filter (fun x => negb (proxy x =? proxy r)%string) t ++ [r].

Definition insert_or_replace_filtered_proxy (r : ProbeResult) : M E unit :=
  statement ;;; modify (fun w => set_filtered_proxies (replace_row r (filtered_proxies w)) w).

(** [WHERE key_id = ? AND proxy = ? AND service = 'cntp'] *)
Definition is_cntp_task (keyId : Z) (proxyUrl : string) (r : TaskRow) : bool :=
  (key_id r =? keyId)%Z && (task_proxy r =? proxyUrl)%string
  && (service r =? "cntp")%string.

(** [db.get(SELECT ... FROM task_monitoring WHERE ...)]: the first matching
    row, or [undefined]. *)
Definition get_cntp_task (keyId : Z) (proxyUrl : string) : M E (option TaskRow) :=
  statement ;;; gets (fun w => find (is_cntp_task keyId proxyUrl) (task_monitoring w)).

(** The row id given to an insert: one more than the largest in the table. *)
Definition next_rowid (t : list TaskRow) : Z :=
  fold_right (fun r m => Z.max (task_id r) m) 0%Z t + 1.

(** [INSERT INTO task_monitoring (key_id, proxy, service, state, retry_count,
    point) VALUES (?, ?, 'cntp', 'pending', 0, 0)] *)
Definition insert_pending_task (keyId : Z) (proxyUrl : string) : M E unit :=
  statement ;;;
  modify (fun w =>
    set_task_monitoring
      (task_monitoring w ++
       [mkTask (next_rowid (task_monitoring w)) keyId proxyUrl "cntp" "pending"
               0%Z (VNum 0) (now w)]) w).

(** The INTEGER affinity of the [point] column: text made of decimal digits
    is stored as that integer, other text is stored as text, and booleans
    are bound as 0 and 1. *)
Fixpoint all_digits (s : string) : bool :=
  match s with
  | EmptyString => true
  | String c s' =>
      match digit_of 10 c with
      | Some _ => all_digits s'
      | None => false
      end
  end.

Definition is_decimal (s : string) : bool := nonempty s && all_digits s.

Definition integer_affinity (v : value) : value :=
  match v with
  | VBool b => VNum (if b then 1 else 0)
  | VNum n => VNum n
  | VStr s =>
      if is_decimal s then
        match read_digits 10 s None with
        | Some n => VNum n
        | None => VStr s
        end
      else VStr s
  end.

(** [UPDATE task_monitoring SET state = ?, last_updated = CURRENT_TIMESTAMP,
    point = ? WHERE ...]: every matching row is rewritten. *)
Definition update_row (keyId : Z) (proxyUrl newState : string) (pt : value)
  (t : Z) (r : TaskRow) : TaskRow :=
  if is_cntp_task keyId proxyUrl r
  then mkTask (task_id r) (key_id r) (task_proxy r) (service r) newState
              (retry_count r) (integer_affinity pt) t
  else r.

Definition update_cntp_task (keyId : Z) (proxyUrl newState : string) (pt : value)
  : M E unit :=
  statement ;;;
  modify (fun w =>
    set_task_monitoring
      (map (update_row keyId proxyUrl newState pt (now w)) (task_monitoring w)) w).

End Store.
End Store.

(** ** The validator pool ([proxy_handler/worker.js], [proxy_handler/main.js]) *)
Module Validator.

(** What the [request] callback receives: an error, or a response with its
    status code. *)
Inductive Response : Type :=
| NetError (message : string)
| Status (statusCode : Z).

Section Validator.
Context {E : Type}.
(** [request({url, proxy, timeout, headers}, callback)] *)
Variable request : string -> string -> E -> Response * E.
(** The ['error'] event of the worker thread given a chunk, if it has one. *)
Variable worker_error : list string -> E -> option string * E.
(** [fs.readFileSync(inputFile, "utf-8")] *)
Variable readFileSync : string -> E -> outcome string * E.
Variable store_fault : nat -> option string.

(** The promise inside [testProxy]: rejected on an error or on any status
    other than 200. *)
Definition probe (proxyUrl : string) : M E unit :=
  response <- ask (request CNTP_URL ("http://" ++ proxyUrl)%string) ;;
  match response with
  | NetError _ => throw ("Failed to access " ++ CNTP_URL)%string
  | Status statusCode =>
      if negb (statusCode =? 200)%Z
      then throw ("Failed to access " ++ CNTP_URL)%string
      else ret tt
  end.

Definition testProxy (proxyUrl : string) : M E ProbeResult :=
  let result := mkProbe proxyUrl [] [] in
  try_catch
    (probe proxyUrl ;;;
     let result := mkProbe (proxy result) (success result ++ ["cntp"]) (fail result) in
     logger INFO ("Proxy " ++ proxyUrl ++ " successfully pinged CNTP service")%string ;;;
     ret result)
    (fun message =>
     let result := mkProbe (proxy result) (success result) (fail result ++ ["cntp"]) in
     logger ERROR ("Proxy " ++ proxyUrl ++ " failed to ping CNTP service: " ++ message)%string ;;;
     ret result).

(** [parentPort.on("message", ...)]: the worker's answer to [{ proxies }]. *)
Definition worker_on_message (proxies : list string) : M E (list ProbeResult) :=
  logger INFO "Worker started processing proxies..." ;;;
  results <- mapM testProxy proxies ;;
  logger INFO "Worker completed proxy processing." ;;;
  ret results.

(** [processWithWorker]: a promise fulfilled by the worker's message or
    rejected by its error. *)
Definition processWithWorker (proxies : list string) : M E (list ProbeResult) :=
  modify (record_call (SpawnWorker proxies)) ;;;
  error <- ask (worker_error proxies) ;;
  match error with
  | Some message =>
      logger ERROR ("Worker encountered an error: " ++ message)%string ;;;
      throw message
  | None =>
      results <- worker_on_message proxies ;;
      logger INFO "Worker finished processing a chunk." ;;;
      ret results
  end.

(** [chunkArray]: the [for] loop over [i] and [chunks]. *)
Definition chunkArray {A} (fuel : nat) (arr : list A) (chunkSize : nat)
  : option (list (list A)) :=
  option_map snd
    (while_loop fuel
       (fun '(i, chunks) => i <? length arr)
       (fun '(i, chunks) => (i + chunkSize, chunks ++ [slice arr i (i + chunkSize)]))
       (0, [])).

(** The cleaned lines of the input file. *)
Definition clean_lines (content : string) : list string :=
  filter nonempty (map trim (split_lines content)).

(** Steps 2 to 5 of [processProxies]: chunk, start one worker per chunk,
    wait for all of them, flatten. *)
Definition processProxies_collect (proxyList : list string) : M E (list ProbeResult) :=
  proxyChunks <- looping (chunkArray (S (length proxyList)) proxyList
                                     PROXY_CHUNK_SIZE) ;;
  logger INFO ("Splitting proxies into " ++ show_nat (length proxyChunks) ++ " chunks")%string ;;;
  workerPromises <- mapM (fun '(index, chunk) =>
                            logger INFO ("Processing chunk " ++ show_nat (index + 1)
                                         ++ " of " ++ show_nat (length proxyChunks))%string ;;;
                            settle (processWithWorker chunk))
                         (combine (seq 0 (length proxyChunks)) proxyChunks) ;;
  allResults <- await_all workerPromises ;;
  logger INFO "All workers have completed their tasks." ;;;
  ret (flat allResults).

(** Steps 6 and 7 of [processProxies]: open the store, empty the table,
    write every result, close. *)
Definition processProxies_save (combinedResults : list ProbeResult) : M E unit :=
  Store.statement store_fault ;;;
  Store.delete_filtered_proxies store_fault ;;;
  for_of combinedResults (Store.insert_or_replace_filtered_proxy store_fault) ;;;
  Store.statement store_fault ;;;
  logger INFO "All proxy results have been saved into the database.".

Definition processProxies (inputFile : string) : M E unit :=
  try_catch
    (logger INFO "Starting proxy processing..." ;;;
     content <- ask_outcome (readFileSync inputFile) ;;
     let proxyList := clean_lines content in
     logger INFO ("Loaded " ++ show_nat (length proxyList) ++ " proxies from "
                  ++ inputFile)%string ;;;
     combinedResults <- processProxies_collect proxyList ;;
     processProxies_save combinedResults)
    (fun message => logger ERROR ("Error processing proxies: " ++ message)%string).

End Validator.
End Validator.

(** ** The assignment stage ([proxy_handler/assign_proxy.js]) *)
Module Assignment.

(** [{ key }], one per line of the key file. *)
Record Key : Type := mkKeyLine { key : string }.

(** [{ proxy }], an assigned proxy. *)
Record Assigned : Type := mkAssigned { assigned_proxy : string }.

(** [{ key, proxies }] *)
Record KeyWithProxies : Type := mkKeyWithProxies {
  kwp_key : string;
  proxies : list Assigned
}.

(** The callback of [keys.map], run over the keys in order; it shares the
    array [availableProxies], which every call shortens with
    [splice(0, 1)]. *)
Fixpoint assign_from (keys : list Key) (availableProxies : list ProbeResult)
  : list KeyWithProxies :=
  match keys with
  | [] => []
  | k :: keys' =>
      let '(assignedProxies, availableProxies') := splice0 availableProxies 1 in
      mkKeyWithProxies (key k)
        (map (fun p => mkAssigned (proxy p)) assignedProxies)
      :: assign_from keys' availableProxies'
  end.

Definition assignProxiesToKeys (keys : list Key) (proxies : list ProbeResult)
  : list KeyWithProxies :=
  let availableProxies := proxies in
  assign_from keys availableProxies.

(** Every proxy string handed out, over all keys. *)
Definition assigned_of (result : list KeyWithProxies) : list string :=
  flat_map (fun k => map assigned_proxy (proxies k)) result.

End Assignment.

(** ** The login/check plugin ([node_handler/cntp.js], [node_handler/tokenHandler.js]) *)
Module Plugin.

(** What the manager needs from [this.tokenPlugin]. *)
Record Plugin (E driver : Type) : Type := mkPlugin {
  login : driver -> string -> string -> string -> E -> outcome value * E;
  check : driver -> string -> string -> string -> E -> outcome value * E
}.
Arguments mkPlugin {E driver}.
Arguments login {E driver}.
Arguments check {E driver}.

(** Code that only talks to the outside: a transformer of its state that
    ends in a value or a thrown error. *)
Definition B (E A : Type) : Type := E -> outcome A * E.

Definition retB {E A} (a : A) : B E A := fun e => (Ok a, e).

Definition throwB {E A} (msg : string) : B E A := fun e => (Throw msg, e).

Definition bindB {E A C} (m : B E A) (k : A -> B E C) : B E C :=
  fun e =>
    match m e with
    | (Ok a, e') => k a e'
    | (Throw msg, e') => (Throw msg, e')
    end.

Definition catchB {E A} (body : B E A) (handler : string -> B E A) : B E A :=
  fun e =>
    match body e with
    | (Throw msg, e') => handler msg e'
    | r => r
    end.

Declare Scope outside_scope.
Delimit Scope outside_scope with outside.
Notation "x <- m ;; k" := (bindB m (fun x => k))
  (at level 100, m at next level, right associativity) : outside_scope.
Notation "m ;;; k" := (bindB m (fun _ => k))
  (at level 100, right associativity) : outside_scope.
Local Open Scope outside_scope.

(** The browser as [cntp.js] uses it, through [selenium-webdriver] and
    [automationHelpers]; each call may throw. *)
Record Browser (E driver element : Type) : Type := mkBrowser {
  get : driver -> string -> B E unit;
  driver_sleep : driver -> Z -> B E unit;
  waitForElement : driver -> string -> option Z -> B E element;
  getText : element -> B E string;
  enterText : driver -> string -> string -> B E unit;
  clickElement : driver -> string -> B E unit
}.
Arguments mkBrowser {E driver element}.
Arguments get {E driver element}.
Arguments driver_sleep {E driver element}.
Arguments waitForElement {E driver element}.
Arguments getText {E driver element}.
Arguments enterText {E driver element}.
Arguments clickElement {E driver element}.

Section TokenPlugin.
Context {E driver element : Type}.
Variable browser : Browser E driver element.

(** [CNTPService.login].  The [return true] inside the inner [try] is the
    [true] branch of [already]. *)
Definition cntp_login (d : driver) (the_key proxyUrl : string) : B E value :=
  catchB
    (get browser d login_url ;;;
     already <- catchB
                  (waitForElement browser d loginConfirmElement (Some 20000%Z) ;;;
                   retB true)
                  (fun _ => retB false) ;;
     if already : bool then retB (VBool true)
     else
       enterText browser d keyInput the_key ;;;
       clickElement browser d loginButton ;;;
       driver_sleep browser d 3000 ;;;
       get browser d extension_url ;;;
       waitForElement browser d loginConfirmElement (Some 20000%Z) ;;;
       retB (VBool true))
    (fun _ => retB (VBool false)).

(** [getValueSafe] *)
Definition getValueSafe (d : driver) (selector : string) : B E string :=
  catchB
    (el <- waitForElement browser d selector None ;;
     getText browser el)
    (fun _ => retB "N/A").

(** [CNTPService.check]: the parsed value, 0 when it is not a number, and
    [false] when reaching the page fails. *)
Definition cntp_check (d : driver) (the_key proxyUrl : string) : B E value :=
  catchB
    (get browser d extension_url ;;;
     driver_sleep browser d 5000 ;;;
     cntpValue <- getValueSafe d cntpValue ;;
     let point := parseInt cntpValue in
     let point := match point with None => 0%Z | Some n => n end in
     retB (VNum point))
    (fun _ => retB (VBool false)).

(** [this.services[service]] *)
Definition has_service (service : string) : bool := (service =? "cntp")%string.

(** [TokenPlugin.login] and [TokenPlugin.check]: an unknown service and any
    error of the service end in [false]. *)
Definition token_login (d : driver) (service the_key proxyUrl : string) : B E value :=
  catchB
    (if negb (has_service service)
     then throwB ("Login method not found for service: " ++ service)%string
     else cntp_login d the_key proxyUrl)
    (fun _ => retB (VBool false)).

Definition token_check (d : driver) (service the_key proxyUrl : string) : B E value :=
  catchB
    (if negb (has_service service)
     then throwB ("Check method not found for service: " ++ service)%string
     else cntp_check d the_key proxyUrl)
    (fun _ => retB (VBool false)).

Definition TokenPlugin : Plugin E driver := mkPlugin token_login token_check.

End TokenPlugin.
End Plugin.

(** ** The task orchestrator and the scheduler ([node_handler/automationManager.js]) *)
Module Manager.
Import Plugin.

(** [{ id, the_key, proxy }], a row of [loadKeyProxyData]. *)
Record KeyProxy : Type := mkPair {
  pair_id : Z;
  pair_key : string;
  pair_proxy : string
}.

(** [/[^a-zA-Z0-9]/g] replaced by ["_"] *)
Definition is_alnum (c : ascii) : bool :=
  let n := nat_of_ascii c in
  ((48 <=? n) && (n <=? 57)) || ((65 <=? n) && (n <=? 90)) || ((97 <=? n) && (n <=? 122)).

Fixpoint sanitize (s : string) : string :=
  match s with
  | EmptyString => EmptyString
  | String c s' => String (if is_alnum c then c else "_"%char) (sanitize s')
  end.

Section Manager.
Context {E driver : Type}.
(** The working directory, for [path.resolve]. *)
Variable cwd : string.
(** [this.tokenPlugin] *)
Variable tokenPlugin : Plugin E driver.
(** The session factory: all of [initializeDriver] is calls into
    [proxy-chain], [fs] and [selenium-webdriver], taken here as one external
    call that yields a driver or throws. *)
Variable build_session : string -> string -> E -> outcome driver * E.
(** [tabReset] of [automationHelpers]; the argument is [None] when [driver]
    is still [undefined]. *)
Variable tabReset : option driver -> E -> outcome unit * E.
(** [fs.rmSync(profilePath, { recursive: true, force: true })] *)
Variable rmSync : string -> E -> outcome unit * E.
(** [setTimeout]: the time that has really passed when the timer fires. *)
Variable setTimeout : Z -> E -> Z * E.
Variable store_fault : nat -> option string.
(** The values imported from [./config]. *)
Variable cfg : Config.

Definition getProfilePath (the_key proxyUrl : string) : string :=
  let sanitized := sanitize (the_key ++ "_" ++ proxyUrl)%string in
  (cwd ++ "/profiles/" ++ sanitized)%string.

(** [getDB]: the handle is opened on first use and kept. *)
Definition getDB : M E unit :=
  open <- gets db_open ;;
  if open then ret tt
  else Store.statement store_fault ;;; modify (set_db_open true).

Definition initializeCNTPTask (keyId : Z) (proxyUrl : string) : M E unit :=
  try_catch
    (getDB ;;;
     existing <- Store.get_cntp_task store_fault keyId proxyUrl ;;
     match existing with
     | None =>
         Store.insert_pending_task store_fault keyId proxyUrl ;;;
         logger INFO ("Initialized cntp task for key=" ++ show_Z keyId
                      ++ ", proxy=" ++ proxyUrl)%string
     | Some _ => ret tt
     end)
    (fun message =>
       logger ERROR ("Failed to initialize cntp task for key_id=" ++ show_Z keyId
                     ++ " and proxy=" ++ proxyUrl ++ ": " ++ message)%string).

(** [None] is [null]. *)
Definition getCNTPTaskState (keyId : Z) (proxyUrl : string) : M E (option string) :=
  try_catch
    (getDB ;;;
     row <- Store.get_cntp_task store_fault keyId proxyUrl ;;
     ret (match row with Some r => Some (state r) | None => None end))
    (fun message =>
       logger ERROR ("Failed to fetch cntp task state for key_id=" ++ show_Z keyId
                     ++ ", proxy=" ++ proxyUrl ++ ": " ++ message)%string ;;;
       ret None).

Definition updateCNTPTaskState (keyId : Z) (proxyUrl newState : string) (pt : value)
  : M E unit :=
  try_catch
    (getDB ;;;
     Store.update_cntp_task store_fault keyId proxyUrl newState pt ;;;
     logger INFO ("Updated cntp task for key_id=" ++ show_Z keyId ++ ", proxy="
                  ++ proxyUrl ++ " -> " ++ newState ++ ", point=" ++ show pt)%string)
    (fun message =>
       logger ERROR ("Failed to update cntp task state: " ++ message)%string).

Definition initializeDriver (profilePath proxyUrl : string) : M E driver :=
  external (CreateSession profilePath proxyUrl) (build_session profilePath proxyUrl).

Definition handleCleanup (profilePath : string) : M E unit :=
  if PROFILE_CLEANUP_ON_FAILURE cfg then
    try_catch
      (external (RemoveProfile profilePath) (rmSync profilePath) ;;;
       logger INFO ("[CLEANUP] Removed profile " ++ profilePath)%string)
      (fun message => logger ERROR ("[PROFILE CLEANUP ERROR] " ++ message)%string)
  else ret tt.

(** The file is read, the entry pushed and the whole array written back. *)
Definition logFailedTask (the_key proxyUrl : string) : M E unit :=
  modify (fun w =>
    let entry := mkFailed the_key proxyUrl "cntp" (now w) in
    let data := match fail_tasks w with Some d => d | None => [] end in
    set_fail_tasks (Some (data ++ [entry])) w).

(** The [while] loop of the handler over [loginSuccess] and
    [loginAttempts]: its condition, its body, and the loop. *)
Definition login_pending (vars : value * nat) : bool :=
  let '(loginSuccess, loginAttempts) := vars in
  negb (truthy loginSuccess) && (loginAttempts <? MAX_LOGIN_RETRIES cfg).

Definition login_attempt (d : driver) (the_key proxyUrl : string) (vars : value * nat)
  : M E (value * nat) :=
  let '(loginSuccess, loginAttempts) := vars in
  loginSuccess <-
    try_catch
      (external (Login "cntp" the_key proxyUrl)
                (login tokenPlugin d "cntp" the_key proxyUrl))
      (fun message =>
         logger ERROR ("[LOGIN ERROR] " ++ message)%string ;;; ret loginSuccess) ;;
  if negb (truthy loginSuccess) then
    let loginAttempts := loginAttempts + 1 in
    logger WARN ("[RETRY] cntp login failed for key=" ++ the_key ++ ". Attempt "
                 ++ show_nat loginAttempts ++ "/"
                 ++ show_nat (MAX_LOGIN_RETRIES cfg))%string ;;;
    ret (loginSuccess, loginAttempts)
  else ret (loginSuccess, loginAttempts).

Definition login_loop (fuel : nat) (d : driver) (the_key proxyUrl : string)
  : M E (value * nat) :=
  whileM fuel login_pending (login_attempt d the_key proxyUrl) (VBool false, 0).

(** The [try] block of the handler once [driver] is assigned. *)
Definition attempt (fuel : nat) (d : driver) (keyId : Z) (the_key proxyUrl : string)
  : M E unit :=
  '(loginSuccess, loginAttempts) <- login_loop fuel d the_key proxyUrl ;;
  if negb (truthy loginSuccess) then
    logger ERROR ("[FAILURE] cntp login failed after " ++ show_nat (MAX_LOGIN_RETRIES cfg)
                  ++ " attempts for key=" ++ the_key)%string ;;;
    updateCNTPTaskState keyId proxyUrl "failed" (VNum 0) ;;;
    logFailedTask the_key proxyUrl
  else
    checkResult <- external (Check "cntp" the_key proxyUrl)
                            (check tokenPlugin d "cntp" the_key proxyUrl) ;;
    if strict_eq_false checkResult then
      logger WARN ("[CHECK FAILURE] cntp check returned false for key=" ++ the_key)%string ;;;
      updateCNTPTaskState keyId proxyUrl "failed" (VNum 0) ;;;
      logFailedTask the_key proxyUrl
    else
      logger INFO ("[CHECK SUCCESS] cntp check for key=" ++ the_key ++ " returned: "
                   ++ show checkResult)%string ;;;
      updateCNTPTaskState keyId proxyUrl "success" checkResult.

(** The [catch] block of the handler. *)
Definition fatal (the_key profilePath message : string) : M E unit :=
  logger ERROR ("[FATAL ERROR] Key=" ++ the_key ++ ": " ++ message)%string ;;;
  handleCleanup profilePath.

(** [state === 'success' || state === 'failed'] *)
Definition is_terminal (st : option string) : bool :=
  match st with
  | Some s => (s =? "success")%string || (s =? "failed")%string
  | None => false
  end.

(** [handleKeyProxyTask].  The variable [driver] is [undefined] until
    [initializeDriver] returns, so the [try]/[catch]/[finally] is written out
    once for each of the two values [finally] can see. *)
Definition handleKeyProxyTask (fuel : nat) (kp : KeyProxy) : M E unit :=
  let keyId := pair_id kp in
  let the_key := pair_key kp in
  let proxyUrl := pair_proxy kp in
  let profilePath := getProfilePath the_key proxyUrl in
  initializeCNTPTask keyId proxyUrl ;;;
  st <- getCNTPTaskState keyId proxyUrl ;;
  if is_terminal st then
    logger INFO ("[SKIP] Key=" ++ the_key ++ ", Proxy=" ++ proxyUrl
                 ++ " is already marked as '"
                 ++ match st with Some s => s | None => "null" end ++ "'.")%string
  else
    created <- settle (initializeDriver profilePath proxyUrl) ;;
    match created with
    | Throw message =>
        try_finally (fatal the_key profilePath message)
                    (external TabReset (tabReset None))
    | Ok d =>
        try_finally
          (try_catch (attempt fuel d keyId the_key proxyUrl)
                     (fatal the_key profilePath))
          (external TabReset (tabReset (Some d)))
    end.

(** [sleep(ms)]: the clock has moved on by the time the timer fires. *)
Definition sleep (ms : Z) : M E unit :=
  elapsed <- ask (setTimeout ms) ;;
  modify (fun w => set_now (now w + elapsed)%Z w).

(** [loadKeyProxyData]: the join of [keys] and [keys_proxies], or [[]] when
    the store fails. *)
Definition join_keys (ks : list KeyRow) (kps : list KeyProxyRow) : list KeyProxy :=
  flat_map (fun k =>
    map (fun kp => mkPair (id k) (the_key k) (kp_proxy kp))
        (filter (fun kp => (kp_key_id kp =? id k)%Z) kps)) ks.

Definition loadKeyProxyData : M E (list KeyProxy) :=
  try_catch
    (getDB ;;;
     Store.statement store_fault ;;;
     gets (fun w => join_keys (keys w) (keys_proxies w)))
    (fun message =>
       logger ERROR ("Failed to load keys+proxies from DB: " ++ message)%string ;;;
       ret []).

(** One turn of the [for] loop of [run]: the unit is started, its promise
    (with the [.catch] attached) is pushed, and the loop sleeps.  The unit's
    own steps are taken at its start; its start is noted in [calls]. *)
Definition launch (fuel : nat) (kp : KeyProxy) : M E (outcome unit) :=
  modify (fun w => record_call (StartUnit (pair_key kp) (pair_proxy kp) (now w)) w) ;;;
  settled <- settle (handleKeyProxyTask fuel kp) ;;
  promise <- match settled with
             | Ok _ => ret (Ok tt)
             | Throw message =>
                 logger ERROR ("Task failed: " ++ message)%string ;;; ret (Ok tt)
             end ;;
  sleep (STAGGER_DELAY cfg) ;;;
  ret promise.

Definition run (fuel : nat) : M E unit :=
  try_catch
    (keyProxyPairs <- loadKeyProxyData ;;
     taskPromises <- mapM (launch fuel) keyProxyPairs ;;
     await_all taskPromises ;;;
     logger INFO "[SYSTEM] All cntp automation tasks completed")
    (fun message => logger ERROR ("[SYSTEM ERROR] " ++ message)%string).

End Manager.
End Manager.

(** ** The rest of the assignment stage ([proxy_handler/assign_proxy.js]) *)
Module Stage.
Import Assignment.

(** [lines.join("\n")] *)
Fixpoint join_lines (lines : list string) : string :=
  match lines with
  | [] => EmptyString
  | [l] => l
  | l :: rest => (l ++ String (ascii_of_nat 10) (join_lines rest))%string
  end.

(** [proxies.filter(p => p.fail.length > 0).map(p => p.proxy)], the constant
    [failedProxies] of [saveFailedProxies]. *)
Definition failedProxies (proxies : list ProbeResult) : list string :=
  map proxy (filter (fun p => 0 <? length (fail p)) proxies).

(** The row id given to a new key: 1 in an empty table, else one more than
    the largest in the table. *)
Definition next_key_id (t : list KeyRow) : Z :=
  match t with
  | [] => 1%Z
  | r :: t' => fold_right (fun r m => Z.max (id r) m) (id r) t' + 1
  end.

(** [keys] after [INSERT OR IGNORE] of a key, and [keys_proxies] after
    [INSERT OR IGNORE] of a proxy for a key id: a row whose unique column
    has the value already makes the statement do nothing. *)
Definition has_key (k : string) (t : list KeyRow) : bool :=
  existsb (fun r => (the_key r =? k)%string) t.

Definition add_key (k : string) (t : list KeyRow) : list KeyRow :=
  if has_key k t then t else t ++ [mkKey (next_key_id t) k].

Definition has_proxy (p : string) (t : list KeyProxyRow) : bool :=
  existsb (fun r => (kp_proxy r =? p)%string) t.

Definition add_proxy (keyId : Z) (p : string) (t : list KeyProxyRow)
  : list KeyProxyRow :=
  if has_proxy p t then t else t ++ [mkKeyProxy keyId p].

Section Stage.
Context {E : Type}.
(** [fs.readFileSync(filePath, 'utf8')] *)
Variable readFileSync : string -> E -> outcome string * E.
(** [fs.existsSync], [fs.mkdirSync(dir, { recursive: true })],
    [fs.writeFileSync(filePath, text, 'utf8')] and [path.join] *)
Variable existsSync : string -> E -> bool * E.
Variable mkdirSync : string -> E -> outcome unit * E.
Variable writeFileSync : string -> string -> E -> outcome unit * E.
Variable path_join : string -> string -> string.
Variable store_fault : nat -> option string.

(** [getFilteredProxiesFromDB]: the rows of [filtered_proxies], their tag
    texts parsed back into arrays. *)
Definition getFilteredProxiesFromDB : M E (list ProbeResult) :=
  Store.statement store_fault ;;;
  gets (fun w => map (fun row => mkProbe (proxy row) (success row) (fail row))
                     (filtered_proxies w)).

(** [readKeysFromFile] *)
Definition readKeysFromFile (filePath : string) : M E (list Key) :=
  content <- ask_outcome (readFileSync filePath) ;;
  ret (map mkKeyLine (Validator.clean_lines content)).

(** [INSERT OR IGNORE INTO keys (the_key) VALUES (?)]: [the_key] is UNIQUE,
    so nothing happens when the key has a row already. *)
Definition insert_or_ignore_key (k : string) : M E unit :=
  Store.statement store_fault ;;;
  modify (fun w => set_keys (add_key k (keys w)) w).

(** [db.get('SELECT id FROM keys WHERE the_key = ?')]: the row, or
    [undefined]. *)
Definition select_key (k : string) : M E (option KeyRow) :=
  Store.statement store_fault ;;;
  gets (fun w => find (fun r => (the_key r =? k)%string) (keys w)).

(** [INSERT OR IGNORE INTO keys_proxies (key_id, proxy) VALUES (?, ?)]:
    [proxy] is UNIQUE. *)
Definition insert_or_ignore_key_proxy (keyId : Z) (p : string) : M E unit :=
  Store.statement store_fault ;;;
  modify (fun w => set_keys_proxies (add_proxy keyId p (keys_proxies w)) w).

(** The body of the outer [for] loop of [saveKeyProxyMappings].  Taking [id]
    out of [undefined] throws a TypeError. *)
Definition saveKeyProxyMapping (k : KeyWithProxies) : M E unit :=
  insert_or_ignore_key (kwp_key k) ;;;
  row <- select_key (kwp_key k) ;;
  match row with
  | None => throw "Cannot destructure property 'id' of '(intermediate value)' as it is undefined."
  | Some r =>
      for_of (proxies k)
             (fun p => insert_or_ignore_key_proxy (id r) (assigned_proxy p))
  end.

Definition saveKeyProxyMappings (keysWithProxies : list KeyWithProxies) : M E unit :=
  for_of keysWithProxies saveKeyProxyMapping.

(** [saveFailedProxies] *)
Definition saveFailedProxies (proxies : list ProbeResult) (outputDir : string)
  : M E unit :=
  present <- ask (existsSync outputDir) ;;
  (if negb present then ask_outcome (mkdirSync outputDir) else ret tt) ;;;
  let failed := failedProxies proxies in
  let filePath := path_join outputDir "failed_proxies.txt" in
  ask_outcome (writeFileSync filePath (join_lines failed)) ;;;
  logger INFO ("Total failed proxies saved: " ++ show_nat (length failed))%string.

(** [processKeysAndProxies] *)
Definition processKeysAndProxies (keyFilePath outputDir : string) : M E unit :=
  try_catch
    (Store.statement store_fault ;;;
     proxyList <- getFilteredProxiesFromDB ;;
     keys <- readKeysFromFile keyFilePath ;;
     let keysWithProxies := assignProxiesToKeys keys proxyList in
     saveKeyProxyMappings keysWithProxies ;;;
     saveFailedProxies proxyList outputDir ;;;
     Store.statement store_fault ;;;
     logger INFO "Proxy assignment completed successfully")
    (fun message => logger ERROR ("Processing failed: " ++ message)%string).

End Stage.
End Stage.

(** ** Vocabulary of the statements *)
Module Observe.

(** A response that counts as a successful probe. *)
Definition is_200 (r : Validator.Response) : bool :=
  match r with
  | Validator.Status statusCode => (statusCode =? 200)%Z
  | Validator.NetError _ => false
  end.

(** The chunks handed to workers, in order of dispatch. *)
Fixpoint spawned (cs : list Call) : list (list string) :=
  match cs with
  | [] => []
  | SpawnWorker chunk :: cs' => chunk :: spawned cs'
  | _ :: cs' => spawned cs'
  end.

(** How many times [login], and [check], were called. *)
Fixpoint logins (cs : list Call) : nat :=
  match cs with
  | [] => 0
  | Login _ _ _ :: cs' => S (logins cs')
  | _ :: cs' => logins cs'
  end.

Fixpoint checks (cs : list Call) : nat :=
  match cs with
  | [] => 0
  | Check _ _ _ :: cs' => S (checks cs')
  | _ :: cs' => checks cs'
  end.

(** The profile directories whose removal was asked for. *)
Fixpoint removed (cs : list Call) : list string :=
  match cs with
  | [] => []
  | RemoveProfile p :: cs' => p :: removed cs'
  | _ :: cs' => removed cs'
  end.

(** The units started, with the clock reading at each start. *)
Fixpoint starts (cs : list Call) : list (string * string * Z) :=
  match cs with
  | [] => []
  | StartUnit k p t :: cs' => (k, p, t) :: starts cs'
  | _ :: cs' => starts cs'
  end.

(** The rows of [task_monitoring] that belong to a pair. *)
Definition rows_of (keyId : Z) (proxyUrl : string) (t : list TaskRow) : list TaskRow :=
  filter (Store.is_cntp_task keyId proxyUrl) t.

(** The store answers every statement. *)
Definition healthy (store_fault : nat -> option string) : Prop :=
  forall n, store_fault n = None.

(** The entries of the failure file, none while it does not exist. *)
Definition failures {E} (w : World E) : list FailedTask :=
  match fail_tasks w with Some d => d | None => [] end.

(** Between [w] and [w'] nothing was written: the clock, the store and the
    failure file are the same (calls, log and the outside may differ). *)
Definition quiet {E} (w w' : World E) : Prop :=
  now w' = now w /\ store_ops w' = store_ops w /\ db_open w' = db_open w /\
  keys w' = keys w /\ keys_proxies w' = keys_proxies w /\
  filtered_proxies w' = filtered_proxies w /\
  task_monitoring w' = task_monitoring w /\ fail_tasks w' = fail_tasks w.

(** Between [w] and [w'] only the store's bookkeeping, [task_monitoring] and
    the log may have changed. *)
Definition steady {E} (w w' : World E) : Prop :=
  now w' = now w /\ keys w' = keys w /\ keys_proxies w' = keys_proxies w /\
  filtered_proxies w' = filtered_proxies w /\ fail_tasks w' = fail_tasks w /\
  calls w' = calls w /\ env w' = env w.

(** Between [w] and [w'] the clock did not move, the pairs to process are the
    same and no unit was started. *)
Definition stable {E} (w w' : World E) : Prop :=
  now w' = now w /\ keys w' = keys w /\ keys_proxies w' = keys_proxies w /\
  starts (calls w') = starts (calls w).

(** The state the handler reads for a pair: that of the first matching row. *)
Definition stored_state (keyId : Z) (proxyUrl : string) (t : list TaskRow)
  : option string :=
  option_map state (find (Store.is_cntp_task keyId proxyUrl) t).

(** What [initializeCNTPTask] leaves in the table when the store answers: the
    table itself, or the table with a pending row for the pair. *)
Definition ensured (keyId : Z) (proxyUrl : string) (t : Z) (tm : list TaskRow)
  : list TaskRow :=
  match find (Store.is_cntp_task keyId proxyUrl) tm with
  | Some _ => tm
  | None => tm ++ [mkTask (Store.next_rowid tm) keyId proxyUrl "cntp" "pending"
                          0%Z (VNum 0) t]
  end.

(** [m], started in [w], ends (with a value or an error) in a state that
    satisfies [Q]. *)
Definition ends {E A} (m : M E A) (w : World E)
  (Q : outcome A -> World E -> Prop) : Prop :=
  exists r w', m w = Some (r, w') /\ Q r w'.

(** What the promise of a chunk must be when its worker never, or always,
    reports an error. *)
Definition promise_of {E} (worker_error : list string -> E -> option string * E)
  (chunk : list string) (p : outcome (list ProbeResult)) : Prop :=
  ((forall e, fst (worker_error chunk e) = None) ->
   exists results, p = Ok results /\ map proxy results = chunk) /\
  (forall message, (forall e, fst (worker_error chunk e) = Some message) ->
   p = Throw message).

(** [m] always ends, and never moves the clock, changes the pairs to process
    or starts a unit. *)
Definition keeps {E A} (m : M E A) : Prop :=
  forall w, ends m w (fun _ w' => stable w w').

End Observe.
Import Observe.

(** ** Concrete runs used as examples *)
Module Scenario.
Import Plugin Manager.

(** A process that has done nothing yet, at clock reading 0. *)
Definition fresh {E} (e : E) : World E :=
  mkWorld 0%Z 0 false [] [] [] [] None [] [] e.

Definition no_fault : nat -> option string := fun _ => None.

Definition pair1 : KeyProxy := mkPair 1 "key-1" "10.0.0.1:8080".

(** A browser without state: sessions are always created, tabs always
    reset, profiles always removed. *)
Definition session_ok : string -> string -> unit -> outcome unit * unit :=
  fun _ _ e => (Ok tt, e).
Definition reset_ok : option unit -> unit -> outcome unit * unit :=
  fun _ e => (Ok tt, e).
Definition rm_ok : string -> unit -> outcome unit * unit :=
  fun _ e => (Ok tt, e).

(** A plugin that gives the same two answers on every call. *)
Definition answering (loginAnswer checkAnswer : value) : Plugin unit unit :=
  mkPlugin (fun _ _ _ _ e => (Ok loginAnswer, e))
           (fun _ _ _ _ e => (Ok checkAnswer, e)).

(** A table in which [pair1] is already done, with 12 points. *)
Definition done_row : TaskRow :=
  mkTask 1 1 "10.0.0.1:8080" "cntp" "success" 0 (VNum 12) 0.
Definition done_world : World unit :=
  mkWorld 1000%Z 0 false [] [] [] [done_row] None [] [] tt.

(** A browser that counts the calls of [login]: the first login fails, the
    later ones succeed. *)
Definition counting_plugin : Plugin nat unit :=
  mkPlugin (fun _ _ _ _ n => (Ok (VBool (1 <=? n)), S n))
           (fun _ _ _ _ n => (Ok (VNum 37), n)).
Definition session_ok_n : string -> string -> nat -> outcome unit * nat :=
  fun _ _ e => (Ok tt, e).
Definition reset_ok_n : option unit -> nat -> outcome unit * nat :=
  fun _ e => (Ok tt, e).
Definition rm_ok_n : string -> nat -> outcome unit * nat :=
  fun _ e => (Ok tt, e).

(** A browser in which the user is already logged in and every page opens,
    but the value element is not there: [waitForElement] finds the element
    that confirms the login and no other. *)
Definition no_value_element : Browser unit unit unit :=
  mkBrowser
    (fun _ _ e => (Ok tt, e))
    (fun _ _ e => (Ok tt, e))
    (fun _ selector _ e =>
       (if (selector =? loginConfirmElement)%string then Ok tt
        else Throw "no such element", e))
    (fun _ e => (Ok "", e))
    (fun _ _ _ e => (Ok tt, e))
    (fun _ _ e => (Ok tt, e)).

(** Three pairs in the store, and a browser in which the second [tabReset]
    throws (the state counts the resets); timers fire exactly on time. *)
Definition three_pairs : World nat :=
  mkWorld 0%Z 0 false
          [mkKey 1 "key-1"; mkKey 2 "key-2"; mkKey 3 "key-3"]
          [mkKeyProxy 1 "10.0.0.1:8080"; mkKeyProxy 2 "10.0.0.2:8080";
           mkKeyProxy 3 "10.0.0.3:8080"]
          [] [] None [] [] 0.
Definition second_reset_throws : option unit -> nat -> outcome unit * nat :=
  fun _ n => (if n =? 1 then Throw "session lost" else Ok tt, S n).
Definition login_ok_n : Plugin nat unit :=
  mkPlugin (fun _ _ _ _ n => (Ok (VBool true), n))
           (fun _ _ _ _ n => (Ok (VNum 37), n)).
Definition on_time : Z -> nat -> Z * nat := fun ms n => (ms, n).

(** Twenty-three proxies, and a network in which every probe is answered
    with status 200. *)
Definition proxies23 : list string :=
  map (fun n => ("10.0.0." ++ show_nat n ++ ":8080")%string) (seq 1 23).
Definition all_200 : string -> string -> unit -> Validator.Response * unit :=
  fun _ _ e => (Validator.Status 200, e).
Definition workers_ok : list string -> unit -> option string * unit :=
  fun _ e => (None, e).

(** A file of three proxies, and a worker thread that cannot start. *)
Definition newline : string := String (ascii_of_nat 10) EmptyString.
Definition three_lines : string :=
  ("10.0.0.1:8080" ++ newline ++ "  10.0.0.2:8080 " ++ newline ++ newline
   ++ "10.0.0.3:8080" ++ newline)%string.
Definition read_three : string -> unit -> outcome string * unit :=
  fun _ e => (Ok three_lines, e).
Definition workers_fail : list string -> unit -> option string * unit :=
  fun _ e => (Some "Cannot find module", e).
Definition old_table : World unit :=
  mkWorld 0%Z 0 false [] [] [mkProbe "192.168.0.9:3128" ["cntp"] []] [] None [] [] tt.

End Scenario.

(** ** Vocabulary of the further properties *)
Module Terms.
Import Manager Assignment Stage.






(** The chunk of [arr] with index [q], for chunks of [chunkSize]. *)
Definition chunk_at {A} (arr : list A) (chunkSize q : nat) : list A :=
  slice arr (q * chunkSize) (q * chunkSize + chunkSize).

(** Every run of [m] ends, in a state related by [R] to the one it started in. *)
Definition respects {E A} (R : World E -> World E -> Prop) (m : M E A) : Prop :=
  forall w, ends m w (fun _ w' => R w w').

(** A probe result carries the tag in exactly one of its two lists. *)
Definition one_tag (res : ProbeResult) : Prop :=
  (success res = ["cntp"] /\ fail res = []) \/ (success res = [] /\ fail res = ["cntp"]).

(** The tag of a result agrees with what the network answers for its proxy,
    when that answer is always a 200 or never one. *)
Definition tag_follows {E} (request : string -> string -> E -> Validator.Response * E)
  (res : ProbeResult) : Prop :=
  ((forall e, is_200 (fst (request CNTP_URL ("http://" ++ proxy res)%string e)) = true) ->
   success res = ["cntp"] /\ fail res = []) /\
  ((forall e, is_200 (fst (request CNTP_URL ("http://" ++ proxy res)%string e)) = false) ->
   success res = [] /\ fail res = ["cntp"]).

(** Between [w] and [w'] nothing but [filtered_proxies], the statement
    counter, the calls, the log and the outside has changed. *)
Definition validator_only {E} (w w' : World E) : Prop :=
  now w' = now w /\ db_open w' = db_open w /\ keys w' = keys w /\
  keys_proxies w' = keys_proxies w /\ task_monitoring w' = task_monitoring w /\
  fail_tasks w' = fail_tasks w.

(** The table after [INSERT OR REPLACE] of each of [results], in order. *)
Definition saved (results t : list ProbeResult) : list ProbeResult :=
  fold_left (fun t r => Store.replace_row r t) results t.

(** The constraints of [init_db.js] on [keys] and [keys_proxies]: no key and
    no id twice; no proxy twice. *)
Definition keys_unique (t : list KeyRow) : Prop :=
  NoDup (map the_key t) /\ NoDup (map id t).

Definition proxies_unique (t : list KeyProxyRow) : Prop :=
  NoDup (map kp_proxy t).

(** Every row of [keys_proxies] names the id of a row of [keys]. *)
Definition linked (ks : list KeyRow) (kps : list KeyProxyRow) : Prop :=
  forall kp, In kp kps -> In (kp_key_id kp) (map id ks).

(** The two tables have kept their rows, in place, and may have new rows
    after them; the constraints that held still hold. *)
Definition tables_grow (ks ks' : list KeyRow) (kps kps' : list KeyProxyRow) : Prop :=
  (exists new, ks' = ks ++ new) /\ (exists new, kps' = kps ++ new) /\
  (keys_unique ks -> keys_unique ks') /\
  (proxies_unique kps -> proxies_unique kps') /\
  (linked ks kps -> linked ks' kps').

(** Between [w] and [w'] the assignment tables have only grown, and the
    clock, the other tables and the failure file are the same. *)
Definition stage_frame {E} (w w' : World E) : Prop :=
  tables_grow (keys w) (keys w') (keys_proxies w) (keys_proxies w') /\
  now w' = now w /\ db_open w' = db_open w /\
  filtered_proxies w' = filtered_proxies w /\
  task_monitoring w' = task_monitoring w /\ fail_tasks w' = fail_tasks w.

(** An error that the store raised. *)
Definition store_error (store_fault : nat -> option string) {A} (r : outcome A) : Prop :=
  exists n message, store_fault n = Some message /\ r = Throw message.

(** The two tables after the statements that [saveKeyProxyMappings] sends
    for one entry, and for a list of entries, when the store answers. *)
Definition save_one (s : list KeyRow * list KeyProxyRow) (k : KeyWithProxies)
  : list KeyRow * list KeyProxyRow :=
  let ks := add_key (kwp_key k) (fst s) in
  match find (fun r => (the_key r =? kwp_key k)%string) ks with
  | Some r =>
      (ks, fold_left (fun t p => add_proxy (id r) (assigned_proxy p) t)
                     (proxies k) (snd s))
  | None => (ks, snd s)
  end.

Definition save_all (kwps : list KeyWithProxies) (s : list KeyRow * list KeyProxyRow)
  : list KeyRow * list KeyProxyRow :=
  fold_left save_one kwps s.

(** [keys_proxies] after the inner loop of [saveKeyProxyMappings]. *)
Definition add_proxies (keyId : Z) (ps : list Assigned) (t : list KeyProxyRow)
  : list KeyProxyRow :=
  fold_left (fun t p => add_proxy keyId (assigned_proxy p) t) ps t.

(** Every key and every proxy of the entries has a row. *)
Definition all_present (kwps : list KeyWithProxies)
  (s : list KeyRow * list KeyProxyRow) : Prop :=
  forall k, In k kwps ->
    has_key (kwp_key k) (fst s) = true /\
    forall p, In p (proxies k) -> has_proxy (assigned_proxy p) (snd s) = true.


(** Between [w] and [w'] no call left the process. *)
Definition same_calls {E} (w w' : World E) : Prop := calls w' = calls w.

(** The calls of one run of the handler: none at all, or the creation of
    the session, then at most [MAX_LOGIN_RETRIES] logins, then at most one
    check (and only after a login), then at most one removal of the profile
    (and only under the clean-up policy), then one reset of the tabs. *)
Definition handler_calls (cfg : Config) (profilePath the_key proxyUrl : string)
  (cs : list Call) : Prop :=
  cs = [] \/
  exists k c r,
    k <= MAX_LOGIN_RETRIES cfg /\ c <= 1 /\ r <= 1 /\
    (c = 1 -> 1 <= k) /\
    (r = 1 -> PROFILE_CLEANUP_ON_FAILURE cfg = true) /\
    cs = CreateSession profilePath proxyUrl
         :: repeat (Login "cntp" the_key proxyUrl) k
         ++ repeat (Check "cntp" the_key proxyUrl) c
         ++ repeat (RemoveProfile profilePath) r
         ++ [TabReset].

(** The rows of [task_monitoring] that do not belong to a pair. *)
Definition other_rows (keyId : Z) (proxyUrl : string) (t : list TaskRow) : list TaskRow :=
  filter (fun r => negb (Store.is_cntp_task keyId proxyUrl r)) t.

(** From [tm] to [tm'] the rows of the other pairs are the same, and the pair
    has the rows it had, or one row if it had none. *)
Definition rows_kept (keyId : Z) (proxyUrl : string) (tm tm' : list TaskRow) : Prop :=
  other_rows keyId proxyUrl tm' = other_rows keyId proxyUrl tm /\
  length (rows_of keyId proxyUrl tm) <= length (rows_of keyId proxyUrl tm') /\
  length (rows_of keyId proxyUrl tm') <= Nat.max 1 (length (rows_of keyId proxyUrl tm)).

(** A record of the failure file that is about a pair. *)
Definition entry_of (the_key proxyUrl : string) (f : FailedTask) : Prop :=
  failed_key f = the_key /\ failed_proxy f = proxyUrl /\ failed_service f = "cntp".

(** What a run of the handler for a pair may change between [w] and [w']:
    the rows of the pair, and the failure file by records about the pair
    added at its end. *)
Definition handler_frame {E} (keyId : Z) (the_key proxyUrl : string)
  (w w' : World E) : Prop :=
  now w' = now w /\ keys w' = keys w /\ keys_proxies w' = keys_proxies w /\
  filtered_proxies w' = filtered_proxies w /\
  rows_kept keyId proxyUrl (task_monitoring w) (task_monitoring w') /\
  exists more, failures w' = failures w ++ more /\
               Forall (entry_of the_key proxyUrl) more.

(** Between [w] and [w'] neither [task_monitoring] nor the failure file has
    changed. *)
Definition same_records {E} (w w' : World E) : Prop :=
  task_monitoring w' = task_monitoring w /\ fail_tasks w' = fail_tasks w.

(** Whenever [m] ends with a value, the value satisfies [P]. *)
Definition answers {E A} (m : Plugin.B E A) (P : A -> Prop) : Prop :=
  forall e x, fst (m e) = Ok x -> P x.

(** Clock readings of which the first is no sooner than [from] and each
    later one no sooner than [delay] after the one before. *)
Fixpoint spaced (delay from : Z) (times : list Z) : Prop :=
  match times with
  | [] => True
  | t :: ts => (from <= t)%Z /\ spaced delay (t + delay)%Z ts
  end.

(** The starts of the units of [pairs] at the clock readings [times]. *)
Definition started (pairs : list KeyProxy) (times : list Z)
  : list (string * string * Z) :=
  map (fun '(kp, t) => (pair_key kp, pair_proxy kp, t)) (combine pairs times).

(** The store fails at every statement. *)
Definition store_down (store_fault : nat -> option string) : Prop :=
  forall n, store_fault n <> None.

(** Between [w] and [w'] [task_monitoring] has not changed and no call has
    been taken back. *)
Definition unrecorded {E} (w w' : World E) : Prop :=
  task_monitoring w' = task_monitoring w /\ exists cs, calls w' = calls w ++ cs.

(** Calls that only note the start of a unit. *)
Definition only_starts (cs : list Call) : Prop :=
  Forall (fun c => match c with StartUnit _ _ _ => True | _ => False end) cs.

(** The pair reads as 'success' or 'failed'. *)
Definition settled (kp : KeyProxy) (tm : list TaskRow) : Prop :=
  is_terminal (stored_state (pair_id kp) (pair_proxy kp) tm) = true.

(** What identifies the task of a pair in [task_monitoring]. *)
Definition pair_index (kp : KeyProxy) : Z * string := (pair_id kp, pair_proxy kp).

End Terms.
Import Terms.

(** ** Further concrete runs *)
Module Cases.
Import Scenario.

(** A store that fails at its statement [n] alone. *)
Definition fault_at (n : nat) (message : string) : nat -> option string :=
  fun k => if k =? n then Some message else None.

(** A file that is not there. *)
Definition unreadable : string -> unit -> outcome string * unit :=
  fun _ e => (Throw "ENOENT: no such file or directory", e).

Definition three_proxies : list string :=
  ["10.0.0.1:8080"; "10.0.0.2:8080"; "10.0.0.3:8080"].



Definition one_assignment : list Assignment.KeyWithProxies :=
  [Assignment.mkKeyWithProxies "key-a" [Assignment.mkAssigned "10.0.0.1:8080"]].

(** A store of one pair that is already done, and a store of two pairs for
    which nothing is recorded yet; a timer that fires exactly on time. *)
Definition settled_pair : World unit :=
  mkWorld 1000%Z 0 false [mkKey 1 "key-1"] [mkKeyProxy 1 "10.0.0.1:8080"]
          [] [done_row] None [] [] tt.
Definition two_pairs : World unit :=
  mkWorld 0%Z 0 false [mkKey 1 "key-1"; mkKey 2 "key-2"]
          [mkKeyProxy 1 "10.0.0.1:8080"; mkKeyProxy 2 "10.0.0.2:8080"]
          [] [] None [] [] tt.
Definition timer_ok : Z -> unit -> Z * unit := fun ms e => (ms, e).

End Cases.

(** * Properties *)

Set Default Proof Using "Type".

(** ** The built-ins *)

Example parseInt_37 : parseInt "37" = Some 37%Z.
Proof. reflexivity. Qed.

Example parseInt_suffix : parseInt "  12 pts" = Some 12%Z.
Proof. reflexivity. Qed.

Example parseInt_hex : parseInt "-0x1f" = Some (-31)%Z.
Proof. reflexivity. Qed.

Example parseInt_NA : parseInt "N/A" = None.
Proof. reflexivity. Qed.

Example trim_both_ends : trim "  a b  " = "a b".
Proof. reflexivity. Qed.

Example split_three :
  split_lines ("a" ++ String (ascii_of_nat 10) ("b" ++ String (ascii_of_nat 10) ""))%string
  = ["a"; "b"; ""].
Proof. reflexivity. Qed.

Lemma spawned_app (a b : list Call) : spawned (a ++ b) = spawned a ++ spawned b.
Proof.
  induction a as [|c a IH]; [reflexivity|].
  destruct c; simpl; rewrite IH; reflexivity.
Qed.

Lemma logins_app (a b : list Call) : logins (a ++ b) = logins a + logins b.
Proof.
  induction a as [|c a IH]; [reflexivity|].
  destruct c; simpl; rewrite IH; reflexivity.
Qed.

Lemma checks_app (a b : list Call) : checks (a ++ b) = checks a + checks b.
Proof.
  induction a as [|c a IH]; [reflexivity|].
  destruct c; simpl; rewrite IH; reflexivity.
Qed.

Lemma removed_app (a b : list Call) : removed (a ++ b) = removed a ++ removed b.
Proof.
  induction a as [|c a IH]; [reflexivity|].
  destruct c; simpl; rewrite IH; reflexivity.
Qed.

Lemma starts_app (a b : list Call) : starts (a ++ b) = starts a ++ starts b.
Proof.
  induction a as [|c a IH]; [reflexivity|].
  destruct c; simpl; rewrite IH; reflexivity.
Qed.

(** ** Rules for [ends], one per construct of the monad *)
Section Rules.
Context {E : Type}.
Implicit Types w : World E.

Lemma ends_weaken {A} (m : M E A) w (Q Q' : outcome A -> World E -> Prop) :
  ends m w Q -> (forall r w', Q r w' -> Q' r w') -> ends m w Q'.
Proof. intros (r & w' & Hm & HQ) H. exists r, w'. auto. Qed.

Lemma ends_ret {A} (a : A) w Q : Q (Ok a) w -> ends (ret a) w Q.
Proof. intros H. exists (Ok a), w. auto. Qed.

Lemma ends_throw {A} msg w (Q : outcome A -> World E -> Prop) :
  Q (Throw msg) w -> ends (throw msg) w Q.
Proof. intros H. exists (Throw msg), w. auto. Qed.

Lemma ends_bind {A B} (m : M E A) (k : A -> M E B) w Q :
  ends m w (fun r w' => match r with
                        | Ok a => ends (k a) w' Q
                        | Throw msg => Q (Throw msg) w'
                        end) ->
  ends (bind m k) w Q.
Proof.
  intros (r & w' & Hm & H). unfold ends, bind. rewrite Hm.
  destruct r as [a|msg]; [exact H|]. exists (Throw msg), w'. auto.
Qed.

Lemma ends_try_catch {A} (body : M E A) handler w Q :
  ends body w (fun r w' => match r with
                           | Ok a => Q (Ok a) w'
                           | Throw msg => ends (handler msg) w' Q
                           end) ->
  ends (try_catch body handler) w Q.
Proof.
  intros (r & w' & Hm & H). unfold ends, try_catch. rewrite Hm.
  destruct r as [a|msg]; [|exact H]. exists (Ok a), w'. auto.
Qed.

Lemma ends_try_finally {A} (body : M E A) fin w Q :
  ends body w (fun r w' =>
    ends fin w' (fun rf w'' => match rf with
                               | Ok _ => Q r w''
                               | Throw msg => Q (Throw msg) w''
                               end)) ->
  ends (try_finally body fin) w Q.
Proof.
  intros (r & w' & Hm & rf & w'' & Hf & H). unfold ends, try_finally.
  rewrite Hm, Hf. destruct rf as [u|msg]; eexists _, _; split; eauto.
Qed.

Lemma ends_modify f w (Q : outcome unit -> World E -> Prop) :
  Q (Ok tt) (f w) -> ends (modify f) w Q.
Proof. intros H. exists (Ok tt), (f w). auto. Qed.

Lemma ends_gets {A} (f : World E -> A) w Q : Q (Ok (f w)) w -> ends (gets f) w Q.
Proof. intros H. exists (Ok (f w)), w. auto. Qed.

Lemma ends_logger l msg w (Q : outcome unit -> World E -> Prop) :
  Q (Ok tt) (add_log l msg w) -> ends (logger l msg) w Q.
Proof. apply ends_modify. Qed.

Lemma ends_ask {A} (f : E -> A * E) w Q :
  Q (Ok (fst (f (env w)))) (set_env (snd (f (env w))) w) -> ends (ask f) w Q.
Proof. intros H. eexists _, _. split; [reflexivity|exact H]. Qed.

Lemma ends_external {A} c (f : E -> outcome A * E) w Q :
  Q (fst (f (env w))) (set_env (snd (f (env w))) (record_call c w)) ->
  ends (external c f) w Q.
Proof. intros H. eexists _, _. split; [reflexivity|exact H]. Qed.

Lemma ends_ask_outcome {A} (f : E -> outcome A * E) w Q :
  Q (fst (f (env w))) (set_env (snd (f (env w))) w) -> ends (ask_outcome f) w Q.
Proof. intros H. eexists _, _. split; [reflexivity|exact H]. Qed.

Lemma ends_looping {A} (a : A) w Q : Q (Ok a) w -> ends (looping (Some a)) w Q.
Proof. intros H. exists (Ok a), w. auto. Qed.

Lemma ends_settle {A} (m : M E A) w Q :
  ends m w (fun r w' => Q (Ok r) w') -> ends (settle m) w Q.
Proof.
  intros (r & w' & Hm & H). unfold ends, settle. rewrite Hm. eauto.
Qed.

Lemma ends_await_all {A} (ps : list (outcome A)) w Q :
  match promise_all ps with
  | Ok l => Q (Ok l) w
  | Throw msg => Q (Throw msg) w
  end ->
  ends (await_all ps) w Q.
Proof.
  unfold await_all. destruct (promise_all ps); intros H.
  - apply ends_ret, H.
  - apply ends_throw, H.
Qed.

Lemma ends_statement store_fault w (Q : outcome unit -> World E -> Prop) :
  match store_fault (store_ops w) with
  | Some msg => Q (Throw msg) (tick_store w)
  | None => Q (Ok tt) (tick_store w)
  end ->
  ends (Store.statement store_fault) w Q.
Proof.
  unfold ends, Store.statement. destruct (store_fault (store_ops w)); eauto.
Qed.

End Rules.

(** One step of symbolic execution of a goal [ends m w Q]. *)
Ltac step_rule :=
  lazymatch goal with
  | |- ends (bind _ _) _ _ => apply ends_bind
  | |- ends (ret _) _ _ => apply ends_ret
  | |- ends (throw _) _ _ => apply ends_throw
  | |- ends (try_catch _ _) _ _ => apply ends_try_catch
  | |- ends (try_finally _ _) _ _ => apply ends_try_finally
  | |- ends (modify _) _ _ => apply ends_modify
  | |- ends (gets _) _ _ => apply ends_gets
  | |- ends (logger _ _) _ _ => apply ends_logger
  | |- ends (ask _) _ _ => apply ends_ask
  | |- ends (external _ _) _ _ => apply ends_external
  | |- ends (ask_outcome _) _ _ => apply ends_ask_outcome
  | |- ends (looping (Some _)) _ _ => apply ends_looping
  | |- ends (settle _) _ _ => apply ends_settle
  | |- ends (await_all _) _ _ => apply ends_await_all
  | |- ends (Store.statement _) _ _ => apply ends_statement
  end.

Ltac step := step_rule; cbv beta iota.

(** Facts about fields that a sequence of updates left alone. *)
Ltac fields_in H :=
  cbn [now store_ops db_open keys keys_proxies filtered_proxies task_monitoring
       fail_tasks calls log env set_now tick_store set_db_open set_keys
       set_keys_proxies set_filtered_proxies set_task_monitoring set_fail_tasks
       record_call add_log set_env] in H.

Ltac fields :=
  cbn [now store_ops db_open keys keys_proxies filtered_proxies task_monitoring
       fail_tasks calls log env set_now tick_store set_db_open set_keys
       set_keys_proxies set_filtered_proxies set_task_monitoring set_fail_tasks
       record_call add_log set_env].

Ltac frame :=
  repeat match goal with
         | H : quiet _ _ |- _ => unfold quiet in H; fields_in H; decompose [and] H; clear H
         | H : steady _ _ |- _ => unfold steady in H; fields_in H; decompose [and] H; clear H
         | H : stable _ _ |- _ => unfold stable in H; fields_in H; decompose [and] H; clear H
         | H : _ = _ |- _ => progress fields_in H
         end;
  unfold quiet, steady, stable; fields;
  rewrite ?starts_app; cbn [starts]; rewrite ?app_nil_r;
  repeat split; congruence.

(** ** The validator pool *)
Section ValidatorFacts.
Context {E : Type}.
Variable request : string -> string -> E -> Validator.Response * E.
Variable worker_error : list string -> E -> option string * E.
Variable readFileSync : string -> E -> outcome string * E.
Variable store_fault : nat -> option string.

Import Validator.

(** C10. The probe of one proxy always returns; its result names the proxy it
    was given, and carries the tag "cntp" in [success] alone when the response
    has status 200 and in [fail] alone in every other case, so exactly one of
    the two tag lists is the singleton and the other is empty. *)
Theorem testProxy_exactly_one_tag (proxyUrl : string) (w : World E) :
  exists r w',
    testProxy request proxyUrl w = Some (Ok r, w') /\
    proxy r = proxyUrl /\
    (if is_200 (fst (request CNTP_URL ("http://" ++ proxyUrl)%string (env w)))
     then success r = ["cntp"] /\ fail r = []
     else success r = [] /\ fail r = ["cntp"]) /\
    ((success r = ["cntp"] /\ fail r = []) \/ (success r = [] /\ fail r = ["cntp"])).
Proof.
  unfold testProxy, try_catch, probe, bind, ask, logger, modify, ret, throw.
  cbv beta zeta.
  destruct (fst (request CNTP_URL ("http://" ++ proxyUrl)%string (env w)))
    as [message|statusCode]; cbn [is_200].
  - eexists _, _. split; [reflexivity|]. cbn.
    split; [reflexivity|]. split; [split; reflexivity|]. right. split; reflexivity.
  - destruct (statusCode =? 200)%Z; cbn [negb].
    + eexists _, _. split; [reflexivity|]. cbn.
      split; [reflexivity|]. split; [split; reflexivity|]. left. split; reflexivity.
    + eexists _, _. split; [reflexivity|]. cbn.
      split; [reflexivity|]. split; [split; reflexivity|]. right. split; reflexivity.
Qed.

Lemma quiet_refl (w : World E) : quiet w w.
Proof. frame. Qed.

Lemma quiet_trans (w1 w2 w3 : World E) : quiet w1 w2 -> quiet w2 w3 -> quiet w1 w3.
Proof. intros H12 H23. frame. Qed.

Lemma testProxy_ends (proxyUrl : string) (w : World E) :
  ends (testProxy request proxyUrl) w (fun r w' =>
    exists res, r = Ok res /\ proxy res = proxyUrl /\
                calls w' = calls w /\ quiet w w').
Proof.
  unfold testProxy, probe. repeat step.
  destruct (fst (request _ _ _)) as [message|statusCode].
  - repeat step. eexists. split; [reflexivity|]. split; [reflexivity|]. frame.
  - destruct (negb (statusCode =? 200)%Z); repeat step; eexists;
      (split; [reflexivity|]); (split; [reflexivity|]); frame.
Qed.

Lemma mapM_testProxy_ends (proxies : list string) : forall w : World E,
  ends (mapM (testProxy request) proxies) w (fun r w' =>
    exists results, r = Ok results /\ map proxy results = proxies /\
                    calls w' = calls w /\ quiet w w').
Proof.
  induction proxies as [|p ps IH]; intros w; cbn [mapM].
  - step. exists []. split; [reflexivity|]. split; [reflexivity|]. frame.
  - step. eapply ends_weaken; [apply testProxy_ends|].
    intros r w1 (res & -> & Hp & Hc & Hq).
    step. eapply ends_weaken; [apply IH|].
    intros r w2 (rs & -> & Hps & Hc2 & Hq2).
    step. exists (res :: rs). cbn. rewrite Hp, Hps.
    split; [reflexivity|]. split; [reflexivity|]. frame.
Qed.

(** A worker that is handed a chunk is always noted as spawned; it rejects
    when the thread reports an error and otherwise fulfils with one result
    per proxy of the chunk, in order. *)
Lemma processWithWorker_ends (chunk : list string) (w : World E) :
  ends (processWithWorker request worker_error chunk) w (fun r w' =>
    calls w' = calls w ++ [SpawnWorker chunk] /\ quiet w w' /\
    match fst (worker_error chunk (env w)) with
    | Some message => r = Throw message
    | None => exists results, r = Ok results /\ map proxy results = chunk
    end).
Proof.
  unfold processWithWorker, worker_on_message. repeat step.
  cbn [env record_call set_env].
  destruct (fst (worker_error chunk (env w))) as [message|].
  - repeat step. split; [frame|]. split; [frame|]. reflexivity.
  - repeat step.
    eapply ends_weaken; [apply mapM_testProxy_ends|].
    intros r w1 (rs & -> & Hps & Hc & Hq).
    repeat step.
    split; [frame|]. split; [frame|]. eauto.
Qed.

Lemma dispatch_ends (total : nat) (indexed : list (nat * list string)) :
  forall w : World E,
  ends (mapM (fun '(index, chunk) =>
                logger INFO ("Processing chunk " ++ show_nat (index + 1)
                             ++ " of " ++ show_nat total)%string ;;;
                settle (processWithWorker request worker_error chunk)) indexed) w
    (fun r w' =>
       exists promises, r = Ok promises /\
         calls w' = calls w ++ map SpawnWorker (map snd indexed) /\
         quiet w w' /\
         Forall2 (promise_of worker_error) (map snd indexed) promises).
Proof.
  induction indexed as [|[index chunk] rest IH]; intros w; cbn [mapM map snd].
  - step. exists []. rewrite app_nil_r.
    split; [reflexivity|]. split; [reflexivity|]. split; [frame|constructor].
  - repeat step.
    eapply ends_weaken; [apply processWithWorker_ends|].
    intros p w1 (Hc & Hq & Hp). cbn [env add_log] in Hp.
    step. eapply ends_weaken; [apply IH|].
    intros r w2 (ps & -> & Hc2 & Hq2 & Hall).
    step. exists (p :: ps). split; [reflexivity|].
    split; [|split].
    + rewrite Hc2, Hc. cbn. rewrite <- app_assoc. reflexivity.
    + frame.
    + constructor; [|exact Hall]. split.
      * intros Hnone. rewrite Hnone in Hp. exact Hp.
      * intros message Hsome. rewrite Hsome in Hp. exact Hp.
Qed.

Lemma promise_all_fulfilled (chunks : list (list string)) :
  forall promises,
  Forall2 (promise_of worker_error) chunks promises ->
  (forall chunk e, fst (worker_error chunk e) = None) ->
  exists allResults, promise_all promises = Ok allResults /\
                     map proxy (flat allResults) = concat chunks.
Proof.
  induction chunks as [|c cs IH]; intros promises Hall Hnone;
    inversion Hall as [|? p ? ps [Hok _] Hrest]; subst.
  - exists []. split; reflexivity.
  - destruct (Hok (Hnone c)) as (rs & -> & Hrs).
    destruct (IH ps Hrest Hnone) as (rss & Hall' & Hflat).
    exists (rs :: rss). cbn. rewrite Hall'. split; [reflexivity|].
    unfold flat in *. cbn. rewrite map_app, Hrs, Hflat. reflexivity.
Qed.

Lemma promise_all_rejected (chunks : list (list string)) :
  forall promises chunk message,
  Forall2 (promise_of worker_error) chunks promises ->
  In chunk chunks ->
  (forall e, fst (worker_error chunk e) = Some message) ->
  exists message', promise_all promises = Throw message'.
Proof.
  induction chunks as [|c cs IH]; intros promises chunk message Hall Hin Hfail;
    inversion Hall as [|? p ? ps [_ Hthrow] Hrest]; subst.
  - destruct Hin.
  - destruct Hin as [<-|Hin].
    + rewrite (Hthrow message Hfail). exists message. reflexivity.
    + destruct (IH ps chunk message Hrest Hin Hfail) as (m' & Hm').
      cbn. destruct p as [rs|m0]; [|eauto]. rewrite Hm'. eauto.
Qed.

(** The loop of [chunkArray] ends for a positive chunk size: from index [i]
    it adds chunks that make up the rest of the array, none empty and none
    longer than [chunkSize]. *)
Lemma chunk_loop_ends {A} (arr : list A) (chunkSize : nat) :
  0 < chunkSize ->
  forall fuel i acc,
  length arr - i < fuel ->
  exists j rest,
    while_loop fuel
      (fun '(i, chunks) => i <? length arr)
      (fun '(i, chunks) => (i + chunkSize, chunks ++ [slice arr i (i + chunkSize)]))
      (i, acc) = Some (j, acc ++ rest) /\
    concat rest = skipn i arr /\
    Forall (fun c => 0 < length c <= chunkSize) rest.
Proof.
  intros Hpos. induction fuel as [|fuel IH]; intros i acc Hfuel; [lia|].
  cbn [while_loop]. destruct (i <? length arr) eqn:Hi.
  - apply Nat.ltb_lt in Hi.
    destruct (IH (i + chunkSize) (acc ++ [slice arr i (i + chunkSize)]))
      as (j & rest & Hloop & Hcat & Hall); [lia|].
    exists j, (slice arr i (i + chunkSize) :: rest).
    split; [|split].
    + rewrite Hloop, <- app_assoc. reflexivity.
    + cbn [concat]. rewrite Hcat. unfold slice.
      replace (i + chunkSize - i) with chunkSize by lia.
      replace (i + chunkSize) with (chunkSize + i) by lia.
      rewrite <- skipn_skipn. apply firstn_skipn.
    + constructor; [|exact Hall]. unfold slice.
      rewrite length_firstn, length_skipn. lia.
  - apply Nat.ltb_ge in Hi. exists i, []. rewrite app_nil_r.
    split; [reflexivity|]. split; [|constructor].
    cbn. symmetry. apply skipn_all2. exact Hi.
Qed.

(** [chunkArray] returns for every array when the chunk size is positive, and
    its chunks, put end to end, are the array. *)
Lemma chunkArray_ends {A} (arr : list A) (chunkSize : nat) :
  0 < chunkSize ->
  exists chunks,
    chunkArray (S (length arr)) arr chunkSize = Some chunks /\
    concat chunks = arr /\
    Forall (fun c => 0 < length c <= chunkSize) chunks.
Proof.
  intros Hpos.
  destruct (chunk_loop_ends arr chunkSize Hpos (S (length arr)) 0 [])
    as (j & rest & Hloop & Hcat & Hall); [lia|].
  exists rest. unfold chunkArray. rewrite Hloop. cbn. auto.
Qed.

(** With chunk size 0 the loop never advances: no fuel is enough. *)
Lemma chunkArray_zero_diverges {A} (a : A) (arr : list A) (fuel : nat) :
  chunkArray fuel (a :: arr) 0 = None.
Proof.
  unfold chunkArray.
  enough (H : forall acc, while_loop fuel
            (fun '(i, chunks) => i <? length (a :: arr))
            (fun '(i, chunks) => (i + 0, chunks ++ [slice (a :: arr) i (i + 0)]))
            (0, acc) = None) by (rewrite H; reflexivity).
  induction fuel as [|fuel IH]; intros acc; [reflexivity|].
  cbn [while_loop]. cbn [length Nat.ltb Nat.leb Nat.add]. apply IH.
Qed.

Lemma chunkArray_23 {A} (arr : list A) :
  length arr = 23 ->
  chunkArray (S (length arr)) arr PROXY_CHUNK_SIZE
  = Some [slice arr 0 10; slice arr 10 20; slice arr 20 30] /\
  length (slice arr 0 10) = 10 /\ length (slice arr 10 20) = 10 /\
  length (slice arr 20 30) = 3 /\
  concat [slice arr 0 10; slice arr 10 20; slice arr 20 30] = arr.
Proof.
  intros Hlen.
  do 23 (destruct arr as [|? arr]; [cbn in Hlen; discriminate Hlen|]).
  destruct arr; [|cbn in Hlen; discriminate Hlen].
  repeat split.
Qed.

Lemma map_snd_indexed {A} (l : list A) :
  forall start, map snd (combine (seq start (length l)) l) = l.
Proof.
  induction l as [|x l IH]; intros start; [reflexivity|].
  cbn. rewrite IH. reflexivity.
Qed.

(** C5. For 23 proxies and the chunk size of 10, [chunkArray] yields three
    chunks of 10, 10 and 3 proxies; one worker is spawned for each, in that
    order; and, no worker reporting an error, the flattened result has 23
    entries whose proxies are the input proxies, each once (they are in fact
    in input order). *)
Theorem pool_of_23_proxies (proxyList : list string) (w : World E) :
  length proxyList = 23 ->
  (forall chunk e, fst (worker_error chunk e) = None) ->
  exists c1 c2 c3,
    chunkArray (S (length proxyList)) proxyList PROXY_CHUNK_SIZE = Some [c1; c2; c3] /\
    length c1 = 10 /\ length c2 = 10 /\ length c3 = 3 /\
    ends (processProxies_collect request worker_error proxyList) w (fun r w' =>
      spawned (calls w') = spawned (calls w) ++ [c1; c2; c3] /\
      exists results,
        r = Ok results /\ length results = 23 /\
        map proxy results = proxyList /\
        Permutation (map proxy results) proxyList /\
        forall p, count_occ string_dec (map proxy results) p
                  = count_occ string_dec proxyList p).
Proof.
  intros Hlen Hnone.
  destruct (chunkArray_23 proxyList Hlen) as (Hchunks & H1 & H2 & H3 & Hcat).
  exists (slice proxyList 0 10), (slice proxyList 10 20), (slice proxyList 20 30).
  split; [exact Hchunks|]. split; [exact H1|]. split; [exact H2|]. split; [exact H3|].
  unfold processProxies_collect. rewrite Hchunks. repeat step.
  eapply ends_weaken; [apply dispatch_ends|].
  intros r w1 (promises & -> & Hc & Hq & Hall).
  rewrite map_snd_indexed in Hc, Hall.
  destruct (promise_all_fulfilled _ _ Hall Hnone) as (allResults & Hpa & Hflat).
  do 2 step. rewrite Hpa. repeat step.
  split.
  - cbn [calls add_log]. rewrite Hc, spawned_app. reflexivity.
  - exists (flat allResults). rewrite Hcat in Hflat.
    split; [reflexivity|]. split; [|split; [exact Hflat|]].
    + rewrite <- (length_map proxy), Hflat. exact Hlen.
    + rewrite Hflat. split; [apply Permutation_refl|reflexivity].
Qed.

(** C7. When the worker of some chunk reports an error, [processProxies]
    still returns, having spawned every worker, but sends no statement to the
    store: [filtered_proxies], like every other table, is as it was.  The
    table is emptied and rewritten only once every worker has answered. *)
Theorem worker_failure_leaves_store (inputFile content message : string)
  (chunks : list (list string)) (chunk : list string) (w : World E) :
  fst (readFileSync inputFile (env w)) = Ok content ->
  chunkArray (S (length (clean_lines content))) (clean_lines content) PROXY_CHUNK_SIZE
  = Some chunks ->
  In chunk chunks ->
  (forall e, fst (worker_error chunk e) = Some message) ->
  ends (processProxies request worker_error readFileSync store_fault inputFile) w
    (fun r w' =>
       r = Ok tt /\
       filtered_proxies w' = filtered_proxies w /\
       store_ops w' = store_ops w /\
       quiet w w' /\
       spawned (calls w') = spawned (calls w) ++ chunks).
Proof.
  intros Hread Hchunks Hin Hfail.
  unfold processProxies. repeat step.
  cbn [add_log env]. rewrite Hread. repeat step.
  unfold processProxies_collect. rewrite Hchunks. repeat step.
  eapply ends_weaken; [apply dispatch_ends|].
  intros r w1 (promises & -> & Hc & Hq & Hall).
  rewrite map_snd_indexed in Hc, Hall.
  destruct (promise_all_rejected _ _ _ _ Hall Hin Hfail) as (message' & Hpa).
  do 2 step. rewrite Hpa. repeat step.
  split; [reflexivity|]. split; [frame|]. split; [frame|]. split; [frame|].
  cbn [calls add_log]. rewrite Hc, spawned_app.
  cbn [calls add_log set_env]. f_equal.
  clear. induction chunks as [|c cs IH]; [reflexivity|]. cbn. rewrite IH. reflexivity.
Qed.

End ValidatorFacts.

(** ** The assignment stage *)
Section AssignmentFacts.
Import Assignment.

(** The proxies handed out are the first ones of the list, one per key, in
    order: nothing is skipped and nothing is used twice. *)
Lemma assigned_of_assign (keys : list Key) :
  forall available : list ProbeResult,
  assigned_of (assign_from keys available) = map proxy (firstn (length keys) available).
Proof.
  induction keys as [|k keys IH]; intros available; [reflexivity|].
  cbn [assign_from splice0 length]. unfold assigned_of in *. cbn [flat_map proxies].
  rewrite IH. destruct available as [|p available]; cbn.
  - rewrite firstn_nil. reflexivity.
  - reflexivity.
Qed.

(** Every key gets at most one proxy. *)
Lemma assign_at_most_one (keys : list Key) :
  forall available : list ProbeResult,
  Forall (fun k => length (proxies k) <= 1) (assign_from keys available).
Proof.
  induction keys as [|k keys IH]; intros available; cbn [assign_from splice0].
  - constructor.
  - constructor; [|apply IH]. destruct available; cbn; lia.
Qed.

(** C6. Five keys and three validated proxies (rows of [filtered_proxies],
    whose proxy is its primary key, hence pairwise different): the first
    three keys get the first, second and third proxy, the last two get an
    empty list, and no proxy is in two assignments. *)
Theorem five_keys_three_proxies (k1 k2 k3 k4 k5 : Key) (p1 p2 p3 : ProbeResult) :
  NoDup [proxy p1; proxy p2; proxy p3] ->
  assignProxiesToKeys [k1; k2; k3; k4; k5] [p1; p2; p3]
  = [ mkKeyWithProxies (key k1) [mkAssigned (proxy p1)];
      mkKeyWithProxies (key k2) [mkAssigned (proxy p2)];
      mkKeyWithProxies (key k3) [mkAssigned (proxy p3)];
      mkKeyWithProxies (key k4) [];
      mkKeyWithProxies (key k5) [] ] /\
  assigned_of (assignProxiesToKeys [k1; k2; k3; k4; k5] [p1; p2; p3])
  = [proxy p1; proxy p2; proxy p3] /\
  NoDup (assigned_of (assignProxiesToKeys [k1; k2; k3; k4; k5] [p1; p2; p3])).
Proof.
  intros Hdistinct. split; [reflexivity|]. split; [reflexivity|]. exact Hdistinct.
Qed.

Lemma five_keys_three_proxies_witness :
  NoDup ["10.0.0.1:8080"; "10.0.0.2:8080"; "10.0.0.3:8080"] /\
  assignProxiesToKeys
    [mkKeyLine "key-a"; mkKeyLine "key-b"; mkKeyLine "key-c"; mkKeyLine "key-d";
     mkKeyLine "key-e"]
    [mkProbe "10.0.0.1:8080" ["cntp"] []; mkProbe "10.0.0.2:8080" [] ["cntp"];
     mkProbe "10.0.0.3:8080" ["cntp"] []]
  = [ mkKeyWithProxies "key-a" [mkAssigned "10.0.0.1:8080"];
      mkKeyWithProxies "key-b" [mkAssigned "10.0.0.2:8080"];
      mkKeyWithProxies "key-c" [mkAssigned "10.0.0.3:8080"];
      mkKeyWithProxies "key-d" [];
      mkKeyWithProxies "key-e" [] ].
Proof.
  assert (Hdistinct : NoDup ["10.0.0.1:8080"; "10.0.0.2:8080"; "10.0.0.3:8080"]).
  { repeat constructor; cbn; intros H;
      repeat (destruct H as [H|H]; [discriminate H|]); exact H. }
  split; [exact Hdistinct|].
  apply (five_keys_three_proxies
           (mkKeyLine "key-a") (mkKeyLine "key-b") (mkKeyLine "key-c")
           (mkKeyLine "key-d") (mkKeyLine "key-e")
           (mkProbe "10.0.0.1:8080" ["cntp"] []) (mkProbe "10.0.0.2:8080" [] ["cntp"])
           (mkProbe "10.0.0.3:8080" ["cntp"] [])).
  exact Hdistinct.
Defined.

End AssignmentFacts.

(** ** The task orchestrator *)
Section ManagerFacts.
Context {E driver : Type}.
Variable cwd : string.
Variable tokenPlugin : Plugin.Plugin E driver.
Variable build_session : string -> string -> E -> outcome driver * E.
Variable tabReset : option driver -> E -> outcome unit * E.
Variable rmSync : string -> E -> outcome unit * E.
Variable setTimeout : Z -> E -> Z * E.
Variable store_fault : nat -> option string.
Variable cfg : Config.

Import Manager Plugin.

Abbreviation getDB := (Manager.getDB store_fault).
Abbreviation initializeCNTPTask := (Manager.initializeCNTPTask store_fault).
Abbreviation getCNTPTaskState := (Manager.getCNTPTaskState store_fault).
Abbreviation updateCNTPTaskState := (Manager.updateCNTPTaskState store_fault).
Abbreviation handleCleanup := (Manager.handleCleanup rmSync cfg).
Abbreviation login_pending := (Manager.login_pending cfg).
Abbreviation login_attempt := (Manager.login_attempt tokenPlugin cfg).
Abbreviation login_loop := (Manager.login_loop tokenPlugin cfg).
Abbreviation attempt := (Manager.attempt tokenPlugin store_fault cfg).
Abbreviation fatal := (Manager.fatal rmSync cfg).
Abbreviation handleKeyProxyTask :=
  (Manager.handleKeyProxyTask cwd tokenPlugin build_session tabReset rmSync
     store_fault cfg).
Abbreviation launch :=
  (Manager.launch cwd tokenPlugin build_session tabReset rmSync setTimeout
     store_fault cfg).
Abbreviation run :=
  (Manager.run cwd tokenPlugin build_session tabReset rmSync setTimeout
     store_fault cfg).

Implicit Types w : World E.

(** *** The store procedures when the store answers *)

Lemma getDB_healthy w :
  healthy store_fault ->
  ends getDB w (fun r w' =>
    r = Ok tt /\ db_open w' = true /\
    task_monitoring w' = task_monitoring w /\ log w' = log w /\ steady w w').
Proof.
  intros H. unfold Manager.getDB. repeat step.
  destruct (db_open w) eqn:Hopen.
  - repeat step. repeat split; assumption.
  - repeat step. rewrite H. repeat step. repeat split.
Qed.

Lemma is_cntp_task_pending (keyId : Z) (proxyUrl : string) (rowid t : Z) :
  Store.is_cntp_task keyId proxyUrl
    (mkTask rowid keyId proxyUrl "cntp" "pending" 0%Z (VNum 0) t) = true.
Proof.
  unfold Store.is_cntp_task. cbn. rewrite Z.eqb_refl, String.eqb_refl. reflexivity.
Qed.

Lemma initializeCNTPTask_healthy (keyId : Z) (proxyUrl : string) w :
  healthy store_fault ->
  ends (initializeCNTPTask keyId proxyUrl) w (fun r w' =>
    r = Ok tt /\ db_open w' = true /\
    task_monitoring w' = ensured keyId proxyUrl (now w) (task_monitoring w) /\
    steady w w').
Proof.
  intros H. unfold Manager.initializeCNTPTask. repeat step.
  eapply ends_weaken; [apply getDB_healthy, H|].
  intros r w1 (-> & Hopen & Htm & Hlog & Hs).
  unfold Store.get_cntp_task. repeat step. rewrite H. repeat step.
  cbn [task_monitoring tick_store]. rewrite Htm. unfold ensured.
  destruct (find _ (task_monitoring w)) as [row|].
  - repeat step. split; [reflexivity|]. split; [frame|]. split; [frame|]. frame.
  - unfold Store.insert_pending_task. repeat step. rewrite H. repeat step.
    split; [reflexivity|]. split; [frame|]. split; [|frame].
    cbn [task_monitoring add_log set_task_monitoring tick_store now].
    rewrite Htm. destruct Hs as (-> & _). reflexivity.
Qed.

Lemma getCNTPTaskState_healthy (keyId : Z) (proxyUrl : string) w :
  healthy store_fault ->
  ends (getCNTPTaskState keyId proxyUrl) w (fun r w' =>
    r = Ok (stored_state keyId proxyUrl (task_monitoring w)) /\
    db_open w' = true /\
    task_monitoring w' = task_monitoring w /\ steady w w').
Proof.
  intros H. unfold Manager.getCNTPTaskState. repeat step.
  eapply ends_weaken; [apply getDB_healthy, H|].
  intros r w1 (-> & Hopen & Htm & Hlog & Hs).
  unfold Store.get_cntp_task. repeat step. rewrite H. repeat step.
  cbn [task_monitoring tick_store]. rewrite Htm. unfold stored_state.
  split; [destruct (find _ _); reflexivity|]. split; [frame|]. split; [frame|]. frame.
Qed.

Lemma updateCNTPTaskState_healthy (keyId : Z) (proxyUrl newState : string)
  (pt : value) w :
  healthy store_fault ->
  ends (updateCNTPTaskState keyId proxyUrl newState pt) w (fun r w' =>
    r = Ok tt /\ db_open w' = true /\
    task_monitoring w'
    = map (Store.update_row keyId proxyUrl newState pt (now w)) (task_monitoring w) /\
    steady w w').
Proof.
  intros H. unfold Manager.updateCNTPTaskState. repeat step.
  eapply ends_weaken; [apply getDB_healthy, H|].
  intros r w1 (-> & Hopen & Htm & Hlog & Hs).
  unfold Store.update_cntp_task. repeat step. rewrite H. repeat step.
  split; [reflexivity|]. split; [frame|]. split; [|frame].
  cbn [task_monitoring add_log set_task_monitoring tick_store now].
  rewrite Htm. destruct Hs as (-> & _). reflexivity.
Qed.

Lemma whileM_unfold {S : Type} (fuel : nat) (cond : S -> bool)
  (body : S -> M E S) (s : S) :
  whileM (Datatypes.S fuel) cond body s
  = if cond s then bind (body s) (whileM fuel cond body) else ret s.
Proof. reflexivity. Qed.

Lemma find_app_last {A} (f : A -> bool) (x : A) (l : list A) :
  find f l = None -> f x = true -> find f (l ++ [x]) = Some x.
Proof.
  intros Hl Hx. induction l as [|y l IH]; cbn [app find] in *.
  - rewrite Hx. reflexivity.
  - destruct (f y); [discriminate|]. apply IH, Hl.
Qed.

Lemma stored_state_ensured (keyId : Z) (proxyUrl : string) (t : Z) (tm : list TaskRow) :
  stored_state keyId proxyUrl (ensured keyId proxyUrl t tm)
  = match stored_state keyId proxyUrl tm with
    | Some s => Some s
    | None => Some "pending"
    end.
Proof.
  unfold stored_state, ensured.
  destruct (find _ tm) as [row|] eqn:Hfind.
  - rewrite Hfind. reflexivity.
  - rewrite find_app_last; [reflexivity|exact Hfind|apply is_cntp_task_pending].
Qed.

Lemma is_terminal_ensured (keyId : Z) (proxyUrl : string) (t : Z) (tm : list TaskRow) :
  is_terminal (stored_state keyId proxyUrl (ensured keyId proxyUrl t tm))
  = is_terminal (stored_state keyId proxyUrl tm).
Proof.
  rewrite stored_state_ensured.
  destruct (stored_state keyId proxyUrl tm); reflexivity.
Qed.

Lemma ensured_has_row (keyId : Z) (proxyUrl : string) (t : Z) (tm : list TaskRow) :
  rows_of keyId proxyUrl (ensured keyId proxyUrl t tm) <> [].
Proof.
  pose proof (stored_state_ensured keyId proxyUrl t tm) as H.
  unfold stored_state in H. unfold rows_of.
  intros Hnil.
  destruct (find _ (ensured keyId proxyUrl t tm)) as [row|] eqn:Hfind.
  - apply find_some in Hfind. destruct Hfind as [Hin Hrow].
    assert (In row (filter (Store.is_cntp_task keyId proxyUrl)
                           (ensured keyId proxyUrl t tm)))
      by (apply filter_In; auto).
    rewrite Hnil in H0. destruct H0.
  - cbn in H. destruct (option_map state (find _ tm)); discriminate.
Qed.

Lemma is_cntp_task_update_row (keyId : Z) (proxyUrl newState : string)
  (pt : value) (t : Z) (r : TaskRow) :
  Store.is_cntp_task keyId proxyUrl (Store.update_row keyId proxyUrl newState pt t r)
  = Store.is_cntp_task keyId proxyUrl r.
Proof.
  unfold Store.update_row.
  destruct (Store.is_cntp_task keyId proxyUrl r) eqn:Hr; [|exact Hr].
  unfold Store.is_cntp_task in *. exact Hr.
Qed.

(** After the update every row of the pair carries the new state and point,
    and the pair has as many rows as before. *)
Lemma rows_of_updated (keyId : Z) (proxyUrl newState : string) (pt : value)
  (t : Z) (tm : list TaskRow) :
  Forall (fun r => state r = newState /\ point r = Store.integer_affinity pt)
         (rows_of keyId proxyUrl
            (map (Store.update_row keyId proxyUrl newState pt t) tm)) /\
  length (rows_of keyId proxyUrl
            (map (Store.update_row keyId proxyUrl newState pt t) tm))
  = length (rows_of keyId proxyUrl tm).
Proof.
  unfold rows_of. induction tm as [|r tm [IH1 IH2]]; [split; [constructor|reflexivity]|].
  cbn [map filter]. rewrite is_cntp_task_update_row.
  destruct (Store.is_cntp_task keyId proxyUrl r) eqn:Hr; [|split; assumption].
  split.
  - constructor; [|exact IH1]. unfold Store.update_row. rewrite Hr. split; reflexivity.
  - cbn [length]. rewrite IH2. reflexivity.
Qed.


(** *** What no run of the handler does

    These hold whatever the store, the plugin and the browser answer. *)

Lemma stable_refl w : stable w w.
Proof. frame. Qed.

Lemma stable_trans w1 w2 w3 : stable w1 w2 -> stable w2 w3 -> stable w1 w3.
Proof. intros H12 H23. frame. Qed.

Lemma keeps_ret {A} (a : A) : keeps (E := E) (ret a).
Proof. intros w. step. apply stable_refl. Qed.

Lemma keeps_throw {A} (msg : string) : keeps (E := E) (A := A) (throw msg).
Proof. intros w. step. apply stable_refl. Qed.

Lemma keeps_bind {A B} (m : M E A) (k : A -> M E B) :
  keeps m -> (forall a, keeps (k a)) -> keeps (bind m k).
Proof.
  intros Hm Hk w. step. eapply ends_weaken; [apply Hm|].
  intros [a|msg] w1 H1; [|exact H1].
  eapply ends_weaken; [apply Hk|].
  intros r w2 H2. eapply stable_trans; eassumption.
Qed.

Lemma keeps_try_catch {A} (body : M E A) (handler : string -> M E A) :
  keeps body -> (forall msg, keeps (handler msg)) -> keeps (try_catch body handler).
Proof.
  intros Hm Hk w. step. eapply ends_weaken; [apply Hm|].
  intros [a|msg] w1 H1; [exact H1|].
  eapply ends_weaken; [apply Hk|].
  intros r w2 H2. eapply stable_trans; eassumption.
Qed.

Lemma keeps_try_finally {A} (body : M E A) (fin : M E unit) :
  keeps body -> keeps fin -> keeps (try_finally body fin).
Proof.
  intros Hm Hf w. step. eapply ends_weaken; [apply Hm|].
  intros r w1 H1. eapply ends_weaken; [apply Hf|].
  intros rf w2 H2. cbv beta in H1, H2.
  destruct rf; eapply stable_trans; eassumption.
Qed.

Lemma keeps_settle {A} (m : M E A) : keeps m -> keeps (settle m).
Proof. intros Hm w. step. apply Hm. Qed.

Lemma keeps_logger (l : Level) (msg : string) : keeps (E := E) (logger l msg).
Proof. intros w. step. frame. Qed.

Lemma keeps_gets {A} (f : World E -> A) : keeps (gets f).
Proof. intros w. step. apply stable_refl. Qed.

Lemma keeps_statement : keeps (E := E) (Store.statement store_fault).
Proof. intros w. step. destruct (store_fault (store_ops w)); frame. Qed.

Lemma keeps_external {A} (c : Call) (f : E -> outcome A * E) :
  starts [c] = [] -> keeps (external c f).
Proof.
  intros Hc w. step. unfold stable. fields.
  rewrite starts_app, Hc, app_nil_r. repeat split.
Qed.

Lemma keeps_getDB : keeps (E := E) getDB.
Proof.
  unfold Manager.getDB. apply keeps_bind; [apply keeps_gets|]. intros [|].
  - apply keeps_ret.
  - apply keeps_bind; [apply keeps_statement|]. intros _ w. step. frame.
Qed.

Lemma keeps_get_cntp_task (keyId : Z) (proxyUrl : string) :
  keeps (E := E) (Store.get_cntp_task store_fault keyId proxyUrl).
Proof.
  unfold Store.get_cntp_task.
  apply keeps_bind; [apply keeps_statement|]. intros _. apply keeps_gets.
Qed.

Lemma keeps_initializeCNTPTask (keyId : Z) (proxyUrl : string) :
  keeps (E := E) (initializeCNTPTask keyId proxyUrl).
Proof.
  unfold Manager.initializeCNTPTask.
  apply keeps_try_catch; [|intros msg; apply keeps_logger].
  apply keeps_bind; [apply keeps_getDB|]. intros _.
  apply keeps_bind; [apply keeps_get_cntp_task|]. intros [row|]; [apply keeps_ret|].
  apply keeps_bind; [|intros _; apply keeps_logger].
  unfold Store.insert_pending_task.
  apply keeps_bind; [apply keeps_statement|]. intros _ w. step. frame.
Qed.

Lemma keeps_getCNTPTaskState (keyId : Z) (proxyUrl : string) :
  keeps (E := E) (getCNTPTaskState keyId proxyUrl).
Proof.
  unfold Manager.getCNTPTaskState.
  apply keeps_try_catch.
  - apply keeps_bind; [apply keeps_getDB|]. intros _.
    apply keeps_bind; [apply keeps_get_cntp_task|]. intros row. apply keeps_ret.
  - intros msg. apply keeps_bind; [apply keeps_logger|]. intros _. apply keeps_ret.
Qed.

Lemma keeps_updateCNTPTaskState (keyId : Z) (proxyUrl newState : string) (pt : value) :
  keeps (E := E) (updateCNTPTaskState keyId proxyUrl newState pt).
Proof.
  unfold Manager.updateCNTPTaskState.
  apply keeps_try_catch; [|intros msg; apply keeps_logger].
  apply keeps_bind; [apply keeps_getDB|]. intros _.
  apply keeps_bind; [|intros _; apply keeps_logger].
  unfold Store.update_cntp_task.
  apply keeps_bind; [apply keeps_statement|]. intros _ w. step. frame.
Qed.

Lemma keeps_logFailedTask (the_key proxyUrl : string) :
  keeps (E := E) (logFailedTask the_key proxyUrl).
Proof. intros w. unfold Manager.logFailedTask. step. frame. Qed.

Lemma keeps_handleCleanup (profilePath : string) : keeps (E := E) (handleCleanup profilePath).
Proof.
  unfold Manager.handleCleanup. destruct (PROFILE_CLEANUP_ON_FAILURE cfg); [|apply keeps_ret].
  apply keeps_try_catch; [|intros msg; apply keeps_logger].
  apply keeps_bind; [apply keeps_external; reflexivity|]. intros _. apply keeps_logger.
Qed.

Lemma keeps_fatal (the_key profilePath message : string) :
  keeps (E := E) (fatal the_key profilePath message).
Proof.
  unfold Manager.fatal. apply keeps_bind; [apply keeps_logger|].
  intros _. apply keeps_handleCleanup.
Qed.

Lemma keeps_login_attempt (d : driver) (the_key proxyUrl : string) (vars : value * nat) :
  keeps (login_attempt d the_key proxyUrl vars).
Proof.
  destruct vars as [loginSuccess loginAttempts]. unfold Manager.login_attempt.
  apply keeps_bind.
  - apply keeps_try_catch; [apply keeps_external; reflexivity|].
    intros msg. apply keeps_bind; [apply keeps_logger|]. intros _. apply keeps_ret.
  - intros v. destruct (negb (truthy v)); [|apply keeps_ret].
    apply keeps_bind; [apply keeps_logger|]. intros _. apply keeps_ret.
Qed.

(** One turn of the loop either ends it or uses up an attempt. *)
Lemma login_attempt_progress (d : driver) (the_key proxyUrl : string)
  (loginSuccess : value) (loginAttempts : nat) w :
  ends (login_attempt d the_key proxyUrl (loginSuccess, loginAttempts)) w
    (fun r w' =>
       stable w w' /\ quiet w w' /\
       exists v n, r = Ok (v, n) /\
         ((truthy v = true /\ n = loginAttempts) \/
          (truthy v = false /\ n = loginAttempts + 1))).
Proof.
  unfold Manager.login_attempt. repeat step.
  destruct (fst (login tokenPlugin d "cntp" the_key proxyUrl (env w))) as [v|msg].
  - destruct (truthy v) eqn:Hv; cbn [negb]; repeat step.
    + split; [frame|]. split; [frame|].
      exists v, loginAttempts. split; [reflexivity|]. left. auto.
    + split; [frame|]. split; [frame|].
      exists v, (loginAttempts + 1). split; [reflexivity|]. right. auto.
  - repeat step. destruct (truthy loginSuccess) eqn:Hv; cbn [negb]; repeat step.
    + split; [frame|]. split; [frame|]. exists loginSuccess, loginAttempts.
      split; [reflexivity|]. left. auto.
    + split; [frame|]. split; [frame|]. exists loginSuccess, (loginAttempts + 1).
      split; [reflexivity|]. right. auto.
Qed.

(** The loop ends within [MAX_LOGIN_RETRIES] turns, with a value, and writes
    nothing. *)
Lemma login_loop_ends (d : driver) (the_key proxyUrl : string) :
  forall n fuel loginSuccess loginAttempts w,
  MAX_LOGIN_RETRIES cfg - loginAttempts <= n ->
  n < fuel ->
  ends (whileM fuel login_pending (login_attempt d the_key proxyUrl)
               (loginSuccess, loginAttempts)) w
    (fun r w' => stable w w' /\ quiet w w' /\ exists vars, r = Ok vars).
Proof.
  induction n as [|n IH]; intros fuel ls la w Hn Hfuel;
    (destruct fuel as [|fuel]; [lia|]); rewrite whileM_unfold;
    destruct (login_pending (ls, la)) eqn:Hcond;
    try (step; split; [apply stable_refl|split; [apply quiet_refl|eauto]]).
  - unfold Manager.login_pending in Hcond.
    apply andb_prop in Hcond. destruct Hcond as [_ Hlt].
    apply Nat.ltb_lt in Hlt. lia.
  - unfold Manager.login_pending in Hcond.
    apply andb_prop in Hcond. destruct Hcond as [_ Hlt]. apply Nat.ltb_lt in Hlt.
    step. eapply ends_weaken; [apply login_attempt_progress|].
    intros r w1 (Hs & Hq & v & k & -> & Hcase).
    destruct Hcase as [[Hv ->]|[Hv ->]].
    + destruct fuel as [|fuel]; [lia|]. rewrite whileM_unfold.
      unfold Manager.login_pending. rewrite Hv. cbn [negb andb].
      step. split; [exact Hs|]. split; [exact Hq|eauto].
    + eapply ends_weaken; [apply (IH fuel v (la + 1)); lia|].
      intros r w2 (Hs2 & Hq2 & Hvars).
      split; [eapply stable_trans; eassumption|].
      split; [eapply quiet_trans; eassumption|exact Hvars].
Qed.

Lemma keeps_login_loop (fuel : nat) (d : driver) (the_key proxyUrl : string) :
  MAX_LOGIN_RETRIES cfg < fuel ->
  keeps (login_loop fuel d the_key proxyUrl).
Proof.
  intros Hfuel w. unfold Manager.login_loop.
  eapply ends_weaken;
    [apply (login_loop_ends d the_key proxyUrl (MAX_LOGIN_RETRIES cfg)); lia|].
  intros r w' [Hs _]. exact Hs.
Qed.

(** Updating the state never throws. *)
Lemma updateCNTPTaskState_returns (keyId : Z) (proxyUrl newState : string)
  (pt : value) w :
  ends (updateCNTPTaskState keyId proxyUrl newState pt) w (fun r w' => r = Ok tt).
Proof.
  unfold Manager.updateCNTPTaskState. do 2 step.
  eapply ends_weaken; [apply keeps_getDB|].
  intros [u|msg] w1 _; [|repeat step; reflexivity].
  unfold Store.update_cntp_task. do 3 step.
  destruct (store_fault (store_ops w1)); repeat step; reflexivity.
Qed.

(** When the [try] block throws, it has written nothing: not to the store
    and not to the failure file.  (It throws only where [check] does.) *)
Lemma attempt_throws_before_writing (fuel : nat) (d : driver) (keyId : Z)
  (the_key proxyUrl : string) w :
  MAX_LOGIN_RETRIES cfg < fuel ->
  ends (attempt fuel d keyId the_key proxyUrl) w (fun r w' =>
    match r with
    | Ok _ => True
    | Throw _ => quiet w w'
    end).
Proof.
  intros Hfuel. unfold Manager.attempt, Manager.login_loop. step.
  eapply ends_weaken;
    [apply (login_loop_ends d the_key proxyUrl (MAX_LOGIN_RETRIES cfg)); lia|].
  intros r w1 (_ & Hq & [loginSuccess loginAttempts] & ->). cbv beta iota.
  destruct (negb (truthy loginSuccess)).
  - do 3 step. eapply ends_weaken; [apply updateCNTPTaskState_returns|].
    intros r w2 ->. unfold Manager.logFailedTask. step. exact I.
  - do 2 step.
    destruct (fst (check tokenPlugin d "cntp" the_key proxyUrl (env w1))) as [v|msg];
      [|frame].
    destruct (strict_eq_false v).
    + do 3 step. eapply ends_weaken; [apply updateCNTPTaskState_returns|].
      intros r w2 ->. unfold Manager.logFailedTask. step. exact I.
    + do 2 step. eapply ends_weaken; [apply updateCNTPTaskState_returns|].
      intros r w2 ->. exact I.
Qed.

Lemma keeps_attempt (fuel : nat) (d : driver) (keyId : Z) (the_key proxyUrl : string) :
  MAX_LOGIN_RETRIES cfg < fuel ->
  keeps (attempt fuel d keyId the_key proxyUrl).
Proof.
  intros Hfuel. unfold Manager.attempt.
  apply keeps_bind; [apply keeps_login_loop, Hfuel|].
  intros [loginSuccess loginAttempts].
  destruct (negb (truthy loginSuccess)).
  - apply keeps_bind; [apply keeps_logger|]. intros _.
    apply keeps_bind; [apply keeps_updateCNTPTaskState|]. intros _.
    apply keeps_logFailedTask.
  - apply keeps_bind; [apply keeps_external; reflexivity|]. intros checkResult.
    destruct (strict_eq_false checkResult).
    + apply keeps_bind; [apply keeps_logger|]. intros _.
      apply keeps_bind; [apply keeps_updateCNTPTaskState|]. intros _.
      apply keeps_logFailedTask.
    + apply keeps_bind; [apply keeps_logger|]. intros _.
      apply keeps_updateCNTPTaskState.
Qed.

(** The handler always ends, with a value or an error, when its fuel is more
    than [MAX_LOGIN_RETRIES]. *)
Lemma keeps_handleKeyProxyTask (fuel : nat) (kp : KeyProxy) :
  MAX_LOGIN_RETRIES cfg < fuel ->
  keeps (handleKeyProxyTask fuel kp).
Proof.
  intros Hfuel. unfold Manager.handleKeyProxyTask. cbv zeta.
  apply keeps_bind; [apply keeps_initializeCNTPTask|]. intros _.
  apply keeps_bind; [apply keeps_getCNTPTaskState|]. intros st.
  destruct (is_terminal st); [apply keeps_logger|].
  apply keeps_bind.
  - apply keeps_settle. unfold Manager.initializeDriver.
    apply keeps_external. reflexivity.
  - intros [d|message].
    + apply keeps_try_finally; [|apply keeps_external; reflexivity].
      apply keeps_try_catch; [apply keeps_attempt, Hfuel|].
      intros msg. apply keeps_fatal.
    + apply keeps_try_finally; [apply keeps_fatal|apply keeps_external; reflexivity].
Qed.

(** *** The login loop *)


(** *** The handler up to the [try] block *)

(** For a pair that is not terminal the handler makes sure of the row, reads
    its state, creates the session, and goes on with the [try] block (or,
    when the session cannot be created, with the [catch] block). *)
Lemma handle_nonterminal (fuel : nat) (kp : KeyProxy) w
  (Q : outcome unit -> World E -> Prop) :
  healthy store_fault ->
  is_terminal (stored_state (pair_id kp) (pair_proxy kp) (task_monitoring w)) = false ->
  (forall w2,
     task_monitoring w2
     = ensured (pair_id kp) (pair_proxy kp) (now w) (task_monitoring w) ->
     steady w w2 ->
     let profilePath := getProfilePath cwd (pair_key kp) (pair_proxy kp) in
     let answer := build_session profilePath (pair_proxy kp) (env w) in
     let w3 := set_env (snd answer)
                 (record_call (CreateSession profilePath (pair_proxy kp)) w2) in
     match fst answer with
     | Ok d =>
         ends (try_finally
                 (try_catch (attempt fuel d (pair_id kp) (pair_key kp) (pair_proxy kp))
                            (fatal (pair_key kp) profilePath))
                 (external TabReset (tabReset (Some d)))) w3 Q
     | Throw message =>
         ends (try_finally (fatal (pair_key kp) profilePath message)
                           (external TabReset (tabReset None))) w3 Q
     end) ->
  ends (handleKeyProxyTask fuel kp) w Q.
Proof.
  intros H Hterm Hrest.
  unfold Manager.handleKeyProxyTask. cbv zeta. repeat step.
  eapply ends_weaken; [apply initializeCNTPTask_healthy, H|].
  intros r w1 (-> & Hopen & Htm & Hs). step.
  eapply ends_weaken; [apply getCNTPTaskState_healthy, H|].
  intros r w2 (-> & Hopen2 & Htm2 & Hs2).
  rewrite Htm, is_terminal_ensured, Hterm.
  unfold Manager.initializeDriver. repeat step.
  assert (He : env w2 = env w) by frame. rewrite He.
  specialize (Hrest w2). cbv zeta in Hrest.
  destruct (fst (build_session _ _ (env w))); apply Hrest; solve [congruence | frame].
Qed.




(** C3. A pair that is not terminal, whose [login] answers [false] and then
    [true], and whose [check] answers 37: [login] is called exactly twice and
    [check] exactly once, every row of the pair ends with state 'success' and
    point 37, and nothing is added to the failure file. *)
Theorem login_on_second_attempt (fuel : nat) (kp : KeyProxy) (d : driver)
  (e1 e2 e3 e4 : E) w :
  healthy store_fault ->
  MAX_LOGIN_RETRIES cfg < fuel ->
  2 <= MAX_LOGIN_RETRIES cfg ->
  is_terminal (stored_state (pair_id kp) (pair_proxy kp) (task_monitoring w)) = false ->
  build_session (getProfilePath cwd (pair_key kp) (pair_proxy kp))
                (pair_proxy kp) (env w) = (Ok d, e1) ->
  login tokenPlugin d "cntp" (pair_key kp) (pair_proxy kp) e1 = (Ok (VBool false), e2) ->
  login tokenPlugin d "cntp" (pair_key kp) (pair_proxy kp) e2 = (Ok (VBool true), e3) ->
  check tokenPlugin d "cntp" (pair_key kp) (pair_proxy kp) e3 = (Ok (VNum 37), e4) ->
  ends (handleKeyProxyTask fuel kp) w (fun r w' =>
    logins (calls w') = logins (calls w) + 2 /\
    checks (calls w') = checks (calls w) + 1 /\
    task_monitoring w'
    = map (Store.update_row (pair_id kp) (pair_proxy kp) "success" (VNum 37) (now w))
          (ensured (pair_id kp) (pair_proxy kp) (now w) (task_monitoring w)) /\
    rows_of (pair_id kp) (pair_proxy kp) (task_monitoring w') <> [] /\
    Forall (fun r => state r = "success" /\ point r = VNum 37)
           (rows_of (pair_id kp) (pair_proxy kp) (task_monitoring w')) /\
    fail_tasks w' = fail_tasks w).
Proof.
  intros H Hfuel Hmax Hterm Hbuild Hlogin1 Hlogin2 Hcheck.
  apply handle_nonterminal; [exact H|exact Hterm|].
  intros w2 Htm Hs. cbv zeta. rewrite Hbuild. cbn [fst snd].
  do 2 step. unfold Manager.attempt, Manager.login_loop. step.
  destruct fuel as [|[|[|fuel]]]; try lia.
  rewrite whileM_unfold. unfold Manager.login_pending at 1. cbn [truthy negb andb].
  replace (0 <? MAX_LOGIN_RETRIES cfg) with true by (symmetry; apply Nat.ltb_lt; lia).
  unfold Manager.login_attempt at 1. repeat step.
  cbn [env set_env record_call]. rewrite Hlogin1. cbn [fst snd truthy negb].
  repeat step.
  rewrite whileM_unfold. unfold Manager.login_pending at 1. cbn [truthy negb andb Nat.add].
  replace (1 <? MAX_LOGIN_RETRIES cfg) with true by (symmetry; apply Nat.ltb_lt; lia).
  unfold Manager.login_attempt at 1. repeat step.
  cbn [env set_env record_call add_log]. rewrite Hlogin2. cbn [fst snd truthy negb].
  repeat step.
  rewrite whileM_unfold. unfold Manager.login_pending at 1. cbn [truthy negb andb].
  repeat step. cbn [truthy negb]. repeat step.
  cbn [env set_env record_call add_log]. rewrite Hcheck. cbn [fst snd strict_eq_false].
  repeat step.
  eapply ends_weaken; [apply updateCNTPTaskState_healthy, H|].
  intros r w4 (-> & Hopen4 & Htm4 & Hs4). repeat step.
  assert (Htable : task_monitoring w4
            = map (Store.update_row (pair_id kp) (pair_proxy kp) "success" (VNum 37) (now w))
                  (ensured (pair_id kp) (pair_proxy kp) (now w) (task_monitoring w))).
  { rewrite Htm4. cbn [task_monitoring now add_log set_env record_call].
    rewrite Htm. destruct Hs as (-> & _). reflexivity. }
  assert (Hcalls : calls w4
            = calls w ++ [CreateSession (getProfilePath cwd (pair_key kp) (pair_proxy kp))
                                        (pair_proxy kp);
                          Login "cntp" (pair_key kp) (pair_proxy kp);
                          Login "cntp" (pair_key kp) (pair_proxy kp);
                          Check "cntp" (pair_key kp) (pair_proxy kp)]).
  { destruct Hs4 as (_ & _ & _ & _ & _ & -> & _).
    cbn [calls add_log set_env record_call].
    destruct Hs as (_ & _ & _ & _ & _ & -> & _).
    rewrite <- !app_assoc. reflexivity. }
  assert (Hfile : fail_tasks w4 = fail_tasks w) by frame.
  assert (Hpost :
    logins (calls w4 ++ [TabReset]) = logins (calls w) + 2 /\
    checks (calls w4 ++ [TabReset]) = checks (calls w) + 1 /\
    task_monitoring w4
    = map (Store.update_row (pair_id kp) (pair_proxy kp) "success" (VNum 37) (now w))
          (ensured (pair_id kp) (pair_proxy kp) (now w) (task_monitoring w)) /\
    rows_of (pair_id kp) (pair_proxy kp) (task_monitoring w4) <> [] /\
    Forall (fun r => state r = "success" /\ point r = VNum 37)
           (rows_of (pair_id kp) (pair_proxy kp) (task_monitoring w4)) /\
    fail_tasks w4 = fail_tasks w).
  { rewrite Hcalls, Htable, !logins_app, !checks_app. cbn [logins checks].
    split; [lia|]. split; [lia|]. split; [reflexivity|].
    split; [|split; [|exact Hfile]].
    - intros Hnil. apply (f_equal (@length _)) in Hnil.
      rewrite (proj2 (rows_of_updated _ _ _ _ _ _)) in Hnil.
      apply length_zero_iff_nil in Hnil. revert Hnil. apply ensured_has_row.
    - apply (proj1 (rows_of_updated _ _ "success" (VNum 37) _ _)). }
  destruct (fst (tabReset (Some d) (env _))); exact Hpost.
Qed.


Lemma removed_cleanup (profilePath : string) w :
  ends (handleCleanup profilePath) w (fun r w' =>
    r = Ok tt /\
    task_monitoring w' = task_monitoring w /\ fail_tasks w' = fail_tasks w /\
    removed (calls w')
    = removed (calls w) ++ (if PROFILE_CLEANUP_ON_FAILURE cfg then [profilePath] else [])).
Proof.
  unfold Manager.handleCleanup. destruct (PROFILE_CLEANUP_ON_FAILURE cfg).
  - repeat step. destruct (fst (rmSync profilePath (env w))); repeat step;
      fields; rewrite removed_app; repeat split.
  - step. rewrite app_nil_r. repeat split.
Qed.

(** The [catch] block followed by the [finally] block: the profile is removed
    when the policy says so, and nothing is written to the store or to the
    failure file. *)
Lemma fatal_then_reset (the_key profilePath message : string) (d : option driver) w :
  ends (try_finally (fatal the_key profilePath message)
                    (external TabReset (tabReset d))) w
    (fun r w' =>
       task_monitoring w' = task_monitoring w /\ fail_tasks w' = fail_tasks w /\
       removed (calls w')
       = removed (calls w) ++ (if PROFILE_CLEANUP_ON_FAILURE cfg then [profilePath] else [])).
Proof.
  step. unfold Manager.fatal. repeat step.
  eapply ends_weaken; [apply removed_cleanup|].
  intros r w1 (-> & Htm & Hfile & Hrem). step.
  fields_in Htm. fields_in Hfile. fields_in Hrem.
  assert (Hpost :
    task_monitoring w1 = task_monitoring w /\ fail_tasks w1 = fail_tasks w /\
    removed (calls w1 ++ [TabReset])
    = removed (calls w) ++ (if PROFILE_CLEANUP_ON_FAILURE cfg then [profilePath] else [])).
  { rewrite removed_app, Hrem. cbn [removed]. rewrite app_nil_r. repeat split; assumption. }
  destruct (fst (tabReset d (env w1))); exact Hpost.
Qed.


(** *** The scheduler *)

Abbreviation loadKeyProxyData := (Manager.loadKeyProxyData store_fault).
Abbreviation sleep := (Manager.sleep setTimeout).

Lemma loadKeyProxyData_healthy w :
  healthy store_fault ->
  ends (E := E) loadKeyProxyData w (fun r w' =>
    r = Ok (join_keys (keys w) (keys_proxies w)) /\ stable w w').
Proof.
  intros H. unfold Manager.loadKeyProxyData. repeat step.
  eapply ends_weaken; [apply getDB_healthy, H|].
  intros r w1 (-> & Hopen & Htm & Hlog & Hs). repeat step. rewrite H. repeat step.
  fields. destruct Hs as (Hn & Hk & Hkp & _ & _ & Hc & _).
  rewrite Hk, Hkp. split; [reflexivity|]. unfold stable. fields.
  rewrite Hn, Hk, Hkp, Hc. repeat split.
Qed.

(** A unit is started at the current clock reading; whatever it does, and
    whether it ends with a value or an error, its promise with the [.catch]
    attached is fulfilled, and the next turn begins no sooner than
    [STAGGER_DELAY] later. *)
Lemma launch_ends (fuel : nat) (kp : KeyProxy) w :
  MAX_LOGIN_RETRIES cfg < fuel ->
  (forall ms e, (ms <= fst (setTimeout ms e))%Z) ->
  ends (launch fuel kp) w (fun r w' =>
    r = Ok (Ok tt) /\
    keys w' = keys w /\ keys_proxies w' = keys_proxies w /\
    starts (calls w') = starts (calls w) ++ [(pair_key kp, pair_proxy kp, now w)] /\
    (now w + STAGGER_DELAY cfg <= now w')%Z).
Proof.
  intros Hfuel Htimer. unfold Manager.launch. repeat step.
  eapply ends_weaken; [apply keeps_handleKeyProxyTask, Hfuel|].
  intros settled w1 Hs. cbv beta in Hs. unfold stable in Hs. fields_in Hs.
  rewrite starts_app in Hs. cbn [starts] in Hs.
  destruct Hs as (Hn & Hk & Hkp & Hst).
  assert (Hsleep : forall w2 : World E,
    now w2 = now w -> keys w2 = keys w -> keys_proxies w2 = keys_proxies w ->
    starts (calls w2) = starts (calls w) ++ [(pair_key kp, pair_proxy kp, now w)] ->
    ends (sleep (STAGGER_DELAY cfg);;; ret (Ok tt)) w2 (fun r w' =>
      r = Ok (Ok tt) /\
      keys w' = keys w /\ keys_proxies w' = keys_proxies w /\
      starts (calls w') = starts (calls w) ++ [(pair_key kp, pair_proxy kp, now w)] /\
      (now w + STAGGER_DELAY cfg <= now w')%Z)).
  { intros w2 Hn2 Hk2 Hkp2 Hst2. unfold Manager.sleep. repeat step. fields.
    split; [reflexivity|]. split; [exact Hk2|]. split; [exact Hkp2|].
    split; [exact Hst2|]. rewrite Hn2.
    pose proof (Htimer (STAGGER_DELAY cfg) (env w2)). lia. }
  destruct settled as [u|message]; [do 2 step|do 4 step];
    apply Hsleep; fields; assumption.
Qed.

(** However many pairs there are, every promise of the batch is fulfilled. *)
Lemma launch_all_fulfilled (fuel : nat) (pairs : list KeyProxy) :
  MAX_LOGIN_RETRIES cfg < fuel ->
  (forall ms e, (ms <= fst (setTimeout ms e))%Z) ->
  forall w,
  ends (mapM (launch fuel) pairs) w (fun r w' =>
    exists promises, r = Ok promises /\ promise_all promises = Ok (map (fun _ => tt) pairs)).
Proof.
  intros Hfuel Htimer. induction pairs as [|kp pairs IH]; intros w; cbn [mapM].
  - step. exists []. split; reflexivity.
  - step. eapply ends_weaken; [apply launch_ends; assumption|].
    intros r w1 (-> & _). step. eapply ends_weaken; [apply IH|].
    intros r w2 (ps & -> & Hall). step. exists (Ok tt :: ps).
    split; [reflexivity|]. cbn. rewrite Hall. reflexivity.
Qed.

(** Loading the pairs never throws. *)
Lemma loadKeyProxyData_returns w :
  ends (E := E) loadKeyProxyData w (fun r w' => exists pairs, r = Ok pairs).
Proof.
  unfold Manager.loadKeyProxyData. do 2 step.
  eapply ends_weaken; [apply keeps_getDB|].
  intros [u|msg] w1 _.
  - do 2 step. destruct (store_fault (store_ops w1)); repeat step; eauto.
  - repeat step. eauto.
Qed.

(** A run always completes: no error of a unit reaches it. *)
Lemma run_completes (fuel : nat) w :
  MAX_LOGIN_RETRIES cfg < fuel ->
  (forall ms e, (ms <= fst (setTimeout ms e))%Z) ->
  ends (run fuel) w (fun r w' =>
    r = Ok tt /\
    exists l, log w' = l ++ [(INFO, "[SYSTEM] All cntp automation tasks completed")]).
Proof.
  intros Hfuel Htimer. unfold Manager.run. do 2 step.
  eapply ends_weaken; [apply loadKeyProxyData_returns|].
  intros r w1 (pairs & ->). step.
  eapply ends_weaken; [apply launch_all_fulfilled; assumption|].
  intros r w2 (ps & -> & Hall). repeat step. rewrite Hall. repeat step.
  split; [reflexivity|]. fields. eauto.
Qed.


End ManagerFacts.

(** ** The orchestrator with the plugin of the repository *)
Section TokenPluginFacts.
Context {E driver element : Type}.
Variable cwd : string.
Variable browser : Plugin.Browser E driver element.
Variable build_session : string -> string -> E -> outcome driver * E.
Variable tabReset : option driver -> E -> outcome unit * E.
Variable rmSync : string -> E -> outcome unit * E.
Variable store_fault : nat -> option string.
Variable cfg : Config.

Import Manager Plugin.

(** [getValueSafe] never throws. *)
Lemma getValueSafe_returns (d : driver) (selector : string) (e : E) :
  exists text, fst (getValueSafe browser d selector e) = Ok text.
Proof.
  unfold getValueSafe, catchB, bindB, retB.
  destruct (waitForElement browser d selector None e) as [[el|msg] e1];
    [|eexists; reflexivity].
  destruct (getText browser el e1) as [[text|msg] e2]; eexists; reflexivity.
Qed.

(** [TokenPlugin.check] answers a number or [false], never a string. *)
Lemma token_check_number_or_false (d : driver) (service the_key proxyUrl : string) (e : E) :
  (exists n, fst (token_check browser d service the_key proxyUrl e) = Ok (VNum n)) \/
  fst (token_check browser d service the_key proxyUrl e) = Ok (VBool false).
Proof.
  unfold token_check, cntp_check, catchB, bindB, retB, throwB.
  destruct (negb (has_service service)); [right; reflexivity|].
  destruct (get browser d extension_url e) as [[u|msg] e1]; [|right; reflexivity].
  destruct (driver_sleep browser d 5000 e1) as [[u'|msg] e2]; [|right; reflexivity].
  destruct (getValueSafe_returns d cntpValue e2) as [text Htext].
  destruct (getValueSafe browser d cntpValue e2) as [r e3]. cbn [fst] in Htext.
  subst r. left. eexists. reflexivity.
Qed.


End TokenPluginFacts.

(** ** The theorems at concrete runs *)
Section ConcreteRuns.
Import Scenario Manager Plugin Validator.




Lemma login_on_second_attempt_witness :
  healthy no_fault /\
  login counting_plugin tt "cntp" "key-1" "10.0.0.1:8080" 0 = (Ok (VBool false), 1) /\
  login counting_plugin tt "cntp" "key-1" "10.0.0.1:8080" 1 = (Ok (VBool true), 2) /\
  check counting_plugin tt "cntp" "key-1" "10.0.0.1:8080" 2 = (Ok (VNum 37), 2) /\
  ends (handleKeyProxyTask "/srv" counting_plugin session_ok_n reset_ok_n rm_ok_n
          no_fault config 3 pair1) (fresh 0)
    (fun r w' =>
       logins (calls w') = 2 /\ checks (calls w') = 1 /\
       map (fun r => (state r, point r))
           (rows_of 1 "10.0.0.1:8080" (task_monitoring w'))
       = [("success", VNum 37)] /\
       fail_tasks w' = None).
Proof.
  split; [intros n; reflexivity|]. do 3 (split; [reflexivity|]).
  eapply ends_weaken.
  - eapply (login_on_second_attempt "/srv" counting_plugin session_ok_n reset_ok_n
              rm_ok_n no_fault config 3 pair1 tt 0 1 2 2 (fresh 0)).
    + intros n. reflexivity.
    + repeat constructor.
    + repeat constructor.
    + reflexivity.
    + reflexivity.
    + reflexivity.
    + reflexivity.
    + reflexivity.
  - intros r w' (Hl & Hc & Htm & _ & _ & Hf).
    rewrite Htm. repeat split; assumption.
Defined.


Lemma pool_of_23_proxies_witness :
  length proxies23 = 23 /\
  ends (processProxies_collect all_200 workers_ok proxies23) (fresh tt)
    (fun r w' =>
       map (@length string) (spawned (calls w')) = [10; 10; 3] /\
       exists results, r = Ok results /\ length results = 23 /\
                       map proxy results = proxies23).
Proof.
  split; [reflexivity|].
  destruct (pool_of_23_proxies all_200 workers_ok proxies23 (fresh tt))
    as (c1 & c2 & c3 & _ & H1 & H2 & H3 & Hends).
  - reflexivity.
  - intros chunk e. reflexivity.
  - eapply ends_weaken; [exact Hends|].
    intros r w' (Hs & results & Hr & Hlen & Hmap & _).
    split; [|eauto]. rewrite Hs. cbn [spawned calls fresh app map].
    rewrite H1, H2, H3. reflexivity.
Defined.

Lemma worker_failure_leaves_store_witness :
  fst (read_three "proxies.txt" (env old_table)) = Ok three_lines /\
  chunkArray (S (length (clean_lines three_lines))) (clean_lines three_lines)
             PROXY_CHUNK_SIZE
  = Some [["10.0.0.1:8080"; "10.0.0.2:8080"; "10.0.0.3:8080"]] /\
  ends (processProxies all_200 workers_fail read_three no_fault "proxies.txt") old_table
    (fun r w' =>
       r = Ok tt /\
       filtered_proxies w' = [mkProbe "192.168.0.9:3128" ["cntp"] []] /\
       store_ops w' = 0).
Proof.
  split; [reflexivity|]. split; [reflexivity|].
  eapply ends_weaken.
  - eapply (worker_failure_leaves_store all_200 workers_fail read_three no_fault
              "proxies.txt" three_lines "Cannot find module"
              [["10.0.0.1:8080"; "10.0.0.2:8080"; "10.0.0.3:8080"]]
              ["10.0.0.1:8080"; "10.0.0.2:8080"; "10.0.0.3:8080"] old_table).
    + reflexivity.
    + reflexivity.
    + left. reflexivity.
    + intros e. reflexivity.
  - intros r w' (Hr & Ht & Hops & _). repeat split; assumption.
Defined.



(** The same run, computed: the second unit ends with the error of its
    [tabReset], which is logged, and the third unit is started and finished
    all the same. *)
Example second_unit_throws :
  exists w',
    run "/srv" login_ok_n session_ok_n second_reset_throws rm_ok_n on_time
        no_fault config 3 three_pairs = Some (Ok tt, w') /\
    starts (calls w')
    = [("key-1", "10.0.0.1:8080", 0%Z); ("key-2", "10.0.0.2:8080", 45000%Z);
       ("key-3", "10.0.0.3:8080", 90000%Z)] /\
    In (ERROR, "Task failed: session lost") (log w') /\
    map state (task_monitoring w') = ["success"; "success"; "success"].
Proof.
  eexists. split; [vm_compute; reflexivity|].
  split; [reflexivity|]. split; [|reflexivity].
  cbn. auto 20.
Qed.

(** A read of the state that fails makes a finished pair look unfinished:
    with a store that fails its second statement the pair of [done_world],
    already 'success', is logged in and checked again. *)
Example failed_read_reprocesses :
  exists w',
    handleKeyProxyTask "/srv" (answering (VBool true) (VNum 37))
      session_ok reset_ok rm_ok
      (fun n => if n =? 2 then Some "SQLITE_BUSY" else None)
      config 3 pair1 done_world = Some (Ok tt, w') /\
    logins (calls w') = 1 /\ checks (calls w') = 1 /\
    map point (task_monitoring w') = [VNum 37].
Proof.
  eexists. split; [vm_compute; reflexivity|]. repeat split.
Qed.

(** A check that answers [false]: one login, one check, the pair is 'failed'
    with point 0 and one record is written. *)
Example check_false_fails_task :
  exists w',
    handleKeyProxyTask "/srv" (answering (VBool true) (VBool false))
      session_ok reset_ok rm_ok no_fault config 3 pair1 (fresh tt)
    = Some (Ok tt, w') /\
    logins (calls w') = 1 /\ checks (calls w') = 1 /\
    map (fun r => (state r, point r)) (task_monitoring w') = [("failed", VNum 0)] /\
    length (failures w') = 1.
Proof.
  eexists. split; [vm_compute; reflexivity|]. repeat split.
Qed.

(** A login that throws is a login that failed: it is tried
    [MAX_LOGIN_RETRIES] times and the pair ends 'failed'. *)
Example login_throws_counts_as_failure :
  exists w',
    handleKeyProxyTask "/srv"
      (mkPlugin (fun _ _ _ _ e => (Throw "stale element", e))
                (fun _ _ _ _ e => (Ok (VNum 37), e)))
      session_ok reset_ok rm_ok no_fault config 3 pair1 (fresh tt)
    = Some (Ok tt, w') /\
    logins (calls w') = 2 /\ checks (calls w') = 0 /\
    map (fun r => (state r, point r)) (task_monitoring w') = [("failed", VNum 0)].
Proof.
  eexists. split; [vm_compute; reflexivity|]. repeat split.
Qed.

(** With a store that fails every statement the pair is processed and
    nothing is recorded. *)
Example store_down_records_nothing :
  exists w',
    handleKeyProxyTask "/srv" (answering (VBool true) (VNum 37))
      session_ok reset_ok rm_ok (fun _ => Some "SQLITE_CANTOPEN") config 3 pair1
      (fresh tt)
    = Some (Ok tt, w') /\
    logins (calls w') = 1 /\ checks (calls w') = 1 /\ task_monitoring w' = [].
Proof.
  eexists. split; [vm_compute; reflexivity|]. repeat split.
Qed.

(** With fuel 2 the loop of the handler is still running: the
    handler needs more fuel than [MAX_LOGIN_RETRIES]. *)
Example two_turns_are_not_enough :
  handleKeyProxyTask "/srv" (answering (VBool false) (VNum 37))
    session_ok reset_ok rm_ok no_fault config 2 pair1 (fresh tt) = None.
Proof. vm_compute. reflexivity. Qed.

(** The assignment does not look at the proxies: a list that names a proxy
    twice hands it out twice. *)
Example same_proxy_listed_twice :
  Assignment.assigned_of
    (Assignment.assignProxiesToKeys
       [Assignment.mkKeyLine "key-a"; Assignment.mkKeyLine "key-b"]
       [mkProbe "10.0.0.1:8080" [] []; mkProbe "10.0.0.1:8080" [] []])
  = ["10.0.0.1:8080"; "10.0.0.1:8080"].
Proof. reflexivity. Qed.

(** The file of three lines, cleaned and saved: the old row is gone and the
    new rows are there, in order. *)
Example three_proxies_saved :
  exists w',
    processProxies all_200 workers_ok read_three no_fault "proxies.txt" old_table
    = Some (Ok tt, w') /\
    filtered_proxies w'
    = [mkProbe "10.0.0.1:8080" ["cntp"] []; mkProbe "10.0.0.2:8080" ["cntp"] [];
       mkProbe "10.0.0.3:8080" ["cntp"] []] /\
    spawned (calls w') = [["10.0.0.1:8080"; "10.0.0.2:8080"; "10.0.0.3:8080"]].
Proof.
  eexists. split; [vm_compute; reflexivity|]. split; reflexivity.
Qed.

End ConcreteRuns.

(** * Further properties of the sources *)

(** ** [chunkArray] for any array and any chunk size *)
Section ChunkFacts.
Context {A : Type}.
Implicit Types arr : list A.

(** The loop of [chunkArray], started at the index of chunk [k], adds the
    chunks [k], [k+1], ... and stops at the first index past the array. *)
Lemma chunk_loop_layout arr (chunkSize : nat) :
  0 < chunkSize ->
  forall fuel k i acc,
  i = k * chunkSize ->
  length arr - i < fuel ->
  i < length arr + chunkSize ->
  exists n,
    while_loop fuel
      (fun '(i, chunks) => i <? length arr)
      (fun '(i, chunks) => (i + chunkSize, chunks ++ [slice arr i (i + chunkSize)]))
      (i, acc)
    = Some ((k + n) * chunkSize, acc ++ map (chunk_at arr chunkSize) (seq k n)) /\
    length arr <= (k + n) * chunkSize < length arr + chunkSize.
Proof.
  intros Hpos. induction fuel as [|fuel IH]; intros k i acc Hi Hfuel Hk; [lia|].
  cbn [while_loop]. destruct (i <? length arr) eqn:Hlt.
  - apply Nat.ltb_lt in Hlt.
    destruct (IH (S k) (i + chunkSize) (acc ++ [slice arr i (i + chunkSize)]))
      as (n & Hloop & Hn); [cbn; lia | lia | lia |].
    exists (S n). split.
    + rewrite Hloop. cbn [seq map]. rewrite <- app_assoc. cbn [app].
      unfold chunk_at at 2. rewrite <- Hi.
      replace (S k + n) with (k + S n) by lia. reflexivity.
    + replace (k + S n) with (S k + n) by lia. exact Hn.
  - apply Nat.ltb_ge in Hlt. exists 0. rewrite Nat.add_0_r, app_nil_r.
    split; [subst i; reflexivity|lia].
Qed.

(** Every chunk but the last is full. *)
Lemma chunk_lengths arr (chunkSize n k : nat) :
  length arr <= n * chunkSize < length arr + chunkSize ->
  S k < n ->
  length (chunk_at arr chunkSize k) = chunkSize.
Proof.
  intros Hn Hk. unfold chunk_at, slice. rewrite length_firstn, length_skipn.
  assert (S (S k) * chunkSize <= n * chunkSize) by (apply Nat.mul_le_mono_r; lia).
  cbn [Nat.mul] in H. lia.
Qed.

(** [chunkArray] returns for a positive chunk size, with chunks that cover
    the array and are as many as it takes. *)
Lemma chunkArray_cuts_in_order_lemma arr (chunkSize fuel : nat) :
  0 < chunkSize ->
  length arr < fuel ->
  exists chunks,
    Validator.chunkArray fuel arr chunkSize = Some chunks /\
    concat chunks = arr /\
    length arr <= length chunks * chunkSize < length arr + chunkSize /\
    Forall (fun c => 0 < length c <= chunkSize) chunks.
Proof.
  intros Hpos Hfuel.
  destruct (chunk_loop_layout arr chunkSize Hpos fuel 0 0 [])
    as (n & Hloop & Hn); [reflexivity|lia|lia|].
  destruct (chunk_loop_ends arr chunkSize Hpos fuel 0 [])
    as (j & rest & Hloop' & Hcat & Hall); [lia|].
  rewrite Hloop in Hloop'. cbn [app Nat.add] in Hloop', Hn.
  injection Hloop' as _ Hrest. subst rest.
  exists (map (chunk_at arr chunkSize) (seq 0 n)).
  rewrite length_map, length_seq.
  split; [unfold Validator.chunkArray; rewrite Hloop; reflexivity|].
  split; [exact Hcat|]. split; [exact Hn|exact Hall].
Qed.

(** X1. For a positive chunk size and any array, [chunkArray] returns: chunk
    [k] is the slice of the array from [k * chunkSize]; the chunks put end to
    end are the array; there are as many as it takes to cover the array and
    no more; all but the last hold exactly [chunkSize] elements and none is
    empty. *)
Theorem chunkArray_cuts_in_order arr (chunkSize fuel : nat) :
  0 < chunkSize ->
  length arr < fuel ->
  exists chunks,
    Validator.chunkArray fuel arr chunkSize = Some chunks /\
    concat chunks = arr /\
    length arr <= length chunks * chunkSize < length arr + chunkSize /\
    (forall k, k < length chunks -> nth k chunks [] = chunk_at arr chunkSize k) /\
    (forall k, S k < length chunks -> length (nth k chunks []) = chunkSize) /\
    Forall (fun c => 0 < length c <= chunkSize) chunks.
Proof.
  intros Hpos Hfuel.
  destruct (chunk_loop_layout arr chunkSize Hpos fuel 0 0 [])
    as (n & Hloop & Hn); [reflexivity|lia|lia|].
  destruct (chunk_loop_ends arr chunkSize Hpos fuel 0 [])
    as (j & rest & Hloop' & Hcat & Hall); [lia|].
  rewrite Hloop in Hloop'. cbn [app Nat.add] in Hloop', Hn.
  injection Hloop' as _ Hrest. subst rest.
  exists (map (chunk_at arr chunkSize) (seq 0 n)).
  assert (Hnth : forall k, k < n ->
            nth k (map (chunk_at arr chunkSize) (seq 0 n)) [] = chunk_at arr chunkSize k).
  { intros k Hk.
    rewrite (nth_indep _ [] (chunk_at arr chunkSize 0))
      by (rewrite length_map, length_seq; exact Hk).
    rewrite map_nth, seq_nth by exact Hk. reflexivity. }
  rewrite length_map, length_seq.
  split; [unfold Validator.chunkArray; rewrite Hloop; reflexivity|].
  split; [exact Hcat|]. split; [exact Hn|]. split; [exact Hnth|].
  split; [|exact Hall].
  intros k Hk. rewrite Hnth by lia. apply (chunk_lengths arr chunkSize n k Hn Hk).
Qed.

(** X2. With chunk size 0 the loop of [chunkArray] never advances: for an
    array that is not empty the call does not return, whatever the number of
    turns it is given. *)
Theorem chunkArray_size_0_never_returns arr (fuel : nat) :
  arr <> [] -> Validator.chunkArray fuel arr 0 = None.
Proof.
  intros Hne. destruct arr as [|a arr]; [congruence|].
  apply chunkArray_zero_diverges.
Qed.

End ChunkFacts.

Lemma chunkArray_cuts_in_order_witness :
  (0 < 2 /\ length [1; 2; 3; 4; 5] < 6) /\
  exists chunks,
    Validator.chunkArray 6 [1; 2; 3; 4; 5] 2 = Some chunks /\ length chunks = 3.
Proof.
  split; [split; cbn; lia|].
  destruct (chunkArray_cuts_in_order [1; 2; 3; 4; 5] 2 6) as (chunks & Hc & _);
    [lia | cbn; lia |].
  exists chunks. split; [exact Hc|].
  vm_compute in Hc. injection Hc as <-. reflexivity.
Defined.

Lemma chunkArray_size_0_never_returns_witness :
  [7] <> [] /\ Validator.chunkArray 100 [7] 0 = None.
Proof.
  split; [discriminate|].
  apply (chunkArray_size_0_never_returns [7] 100). discriminate.
Defined.

(** ** [assignProxiesToKeys] for any keys and any table *)
Section AssignmentInGeneral.
Import Assignment.

Lemma assign_from_keys (keys : list Key) :
  forall available, map kwp_key (assign_from keys available) = map key keys.
Proof.
  induction keys as [|k keys IH]; intros available; [reflexivity|].
  cbn. rewrite IH. reflexivity.
Qed.

Lemma assign_from_nth (keys : list Key) :
  forall available i d,
  i < length keys ->
  proxies (nth i (assign_from keys available) d)
  = match nth_error available i with
    | Some p => [mkAssigned (proxy p)]
    | None => []
    end.
Proof.
  induction keys as [|k keys IH]; intros available i d Hi; [cbn in Hi; lia|].
  destruct i as [|i].
  - destruct available; reflexivity.
  - cbn [assign_from splice0 nth]. cbn in Hi. rewrite IH by lia.
    destruct available; [destruct i|]; reflexivity.
Qed.

Lemma assign_from_names (keys : list Key) :
  forall a b, map proxy a = map proxy b -> assign_from keys a = assign_from keys b.
Proof.
  induction keys as [|k keys IH]; intros a b Hab; [reflexivity|].
  destruct a as [|x a], b as [|y b]; try discriminate Hab.
  - reflexivity.
  - cbn in Hab. injection Hab as Hxy Hab.
    cbn. rewrite Hxy. f_equal. apply IH. exact Hab.
Qed.

(** X3. Whatever the keys and the rows of the table, [assignProxiesToKeys]
    answers one entry per key, in the order of the keys; the key with index
    [i] gets the proxy of row [i] alone, or nothing when the table has no
    such row; so the proxies handed out are the first ones of the table, in
    order.  The tags of the rows are not looked at: two tables with the same
    proxies give the same assignment. *)
Theorem assignProxiesToKeys_by_position (keys : list Key) (proxyList : list ProbeResult) :
  map kwp_key (assignProxiesToKeys keys proxyList) = map key keys /\
  (forall i d, i < length keys ->
     proxies (nth i (assignProxiesToKeys keys proxyList) d)
     = match nth_error proxyList i with
       | Some p => [mkAssigned (proxy p)]
       | None => []
       end) /\
  assigned_of (assignProxiesToKeys keys proxyList)
  = firstn (length keys) (map proxy proxyList) /\
  (forall proxyList', map proxy proxyList' = map proxy proxyList ->
     assignProxiesToKeys keys proxyList' = assignProxiesToKeys keys proxyList).
Proof.
  unfold assignProxiesToKeys. split; [apply assign_from_keys|].
  split; [intros i d Hi; apply assign_from_nth, Hi|].
  split; [rewrite assigned_of_assign; symmetry; apply firstn_map|].
  intros proxyList' H. apply assign_from_names, H.
Qed.

End AssignmentInGeneral.

(** ** [getProfilePath] *)
Section ProfilePath.
Import Manager.








End ProfilePath.

(** ** The lines read from a file *)
Section CleanLines.




















End CleanLines.


(** ** Rules for [respects], one per construct of the monad *)
Section Respects.
Context {E : Type}.
Variable R : World E -> World E -> Prop.
Hypothesis R_refl : forall w, R w w.
Hypothesis R_trans : forall w1 w2 w3, R w1 w2 -> R w2 w3 -> R w1 w3.

Lemma respects_ret {A} (a : A) : respects R (ret a).
Proof using R_refl. intros w. step. apply R_refl. Qed.

Lemma respects_throw {A} (msg : string) : respects R (A := A) (throw msg).
Proof using R_refl. intros w. step. apply R_refl. Qed.

Lemma respects_gets {A} (f : World E -> A) : respects R (gets f).
Proof using R_refl. intros w. step. apply R_refl. Qed.

Lemma respects_looping {A} (a : A) : respects R (looping (Some a)).
Proof using R_refl. intros w. step. apply R_refl. Qed.

Lemma respects_await_all {A} (ps : list (outcome A)) : respects R (await_all ps).
Proof using R_refl. intros w. step. destruct (promise_all ps); apply R_refl. Qed.

Lemma respects_bind {A B} (m : M E A) (k : A -> M E B) :
  respects R m -> (forall a, respects R (k a)) -> respects R (bind m k).
Proof using R_trans.
  intros Hm Hk w. step. eapply ends_weaken; [apply Hm|].
  intros [a|msg] w1 H1; cbv beta in H1 |- *; [|exact H1].
  eapply ends_weaken; [apply Hk|]. intros r w2 H2. cbv beta in H2.
  exact (R_trans _ _ _ H1 H2).
Qed.

Lemma respects_try_catch {A} (body : M E A) (handler : string -> M E A) :
  respects R body -> (forall msg, respects R (handler msg)) ->
  respects R (try_catch body handler).
Proof using R_trans.
  intros Hm Hk w. step. eapply ends_weaken; [apply Hm|].
  intros [a|msg] w1 H1; cbv beta in H1 |- *; [exact H1|].
  eapply ends_weaken; [apply Hk|]. intros r w2 H2. cbv beta in H2.
  exact (R_trans _ _ _ H1 H2).
Qed.

Lemma respects_try_finally {A} (body : M E A) (fin : M E unit) :
  respects R body -> respects R fin -> respects R (try_finally body fin).
Proof using R_trans.
  intros Hm Hf w. step. eapply ends_weaken; [apply Hm|].
  intros r w1 H1. cbv beta in H1 |- *.
  eapply ends_weaken; [apply Hf|]. intros rf w2 H2. cbv beta in H2.
  destruct rf; exact (R_trans _ _ _ H1 H2).
Qed.

Lemma respects_settle {A} (m : M E A) : respects R m -> respects R (settle m).
Proof using Type. intros Hm w. step. apply Hm. Qed.

Lemma respects_for_of {A} (xs : list A) (body : A -> M E unit) :
  (forall x, respects R (body x)) -> respects R (for_of xs body).
Proof using R_refl R_trans.
  intros Hbody. induction xs as [|x xs IH]; cbn [for_of].
  - apply respects_ret.
  - apply respects_bind; [apply Hbody|intros _; exact IH].
Qed.

Lemma respects_mapM {A B} (f : A -> M E B) (xs : list A) :
  (forall x, respects R (f x)) -> respects R (mapM f xs).
Proof using R_refl R_trans.
  intros Hf. induction xs as [|x xs IH]; cbn [mapM].
  - apply respects_ret.
  - apply respects_bind; [apply Hf|intros y].
    apply respects_bind; [exact IH|intros ys; apply respects_ret].
Qed.

Lemma respects_modify (f : World E -> World E) :
  (forall w, R w (f w)) -> respects R (modify f).
Proof using Type. intros H w. step. apply H. Qed.

Lemma respects_statement (store_fault : nat -> option string) :
  (forall w, R w (tick_store w)) -> respects R (Store.statement store_fault).
Proof using Type. intros H w. step. destruct (store_fault (store_ops w)); apply H. Qed.

Lemma respects_ask {A} (f : E -> A * E) :
  (forall w e, R w (set_env e w)) -> respects R (ask f).
Proof using Type. intros H w. step. apply H. Qed.

Lemma respects_ask_outcome {A} (f : E -> outcome A * E) :
  (forall w e, R w (set_env e w)) -> respects R (ask_outcome f).
Proof using Type. intros H w. step. apply H. Qed.

Lemma respects_external {A} (c : Call) (f : E -> outcome A * E) :
  (forall w e, R w (set_env e (record_call c w))) -> respects R (external c f).
Proof using Type. intros H w. step. apply H. Qed.

End Respects.

(** Two facts about the same run hold together. *)
Lemma ends_and {E A} (m : M E A) (w : World E) (Q1 Q2 : outcome A -> World E -> Prop) :
  ends m w Q1 -> ends m w Q2 -> ends m w (fun r w' => Q1 r w' /\ Q2 r w').
Proof.
  intros (r1 & w1 & H1 & HQ1) (r2 & w2 & H2 & HQ2). rewrite H1 in H2.
  injection H2 as <- <-. exists r1, w1. auto.
Qed.

(** Walks a program, applying the rule of each construct; [prim] proves the
    relation for the single state changes. *)
Ltac respects_with Hrefl Htrans prim :=
  let rec go :=
    cbv beta;
    lazymatch goal with
    | |- respects _ (bind _ _) =>
        apply (respects_bind _ Htrans); [go|intros ?; go]
    | |- respects _ (ret _) => apply (respects_ret _ Hrefl)
    | |- respects _ (throw _) => apply (respects_throw _ Hrefl)
    | |- respects _ (gets _) => apply (respects_gets _ Hrefl)
    | |- respects _ (looping (Some _)) => apply (respects_looping _ Hrefl)
    | |- respects _ (await_all _) => apply (respects_await_all _ Hrefl)
    | |- respects _ (try_catch _ _) =>
        apply (respects_try_catch _ Htrans); [go|intros ?; go]
    | |- respects _ (try_finally _ _) =>
        apply (respects_try_finally _ Htrans); [go|go]
    | |- respects _ (settle _) => apply respects_settle; go
    | |- respects _ (for_of _ _) =>
        apply (respects_for_of _ Hrefl Htrans); intros ?; go
    | |- respects _ (mapM _ _) =>
        apply (respects_mapM _ Hrefl Htrans); intros ?; go
    | |- respects _ (logger _ _) => apply respects_modify; intros ?; prim
    | |- respects _ (modify _) => apply respects_modify; intros ?; prim
    | |- respects _ (Store.statement _) => apply respects_statement; intros ?; prim
    | |- respects _ (ask _) => apply respects_ask; intros ? ?; prim
    | |- respects _ (ask_outcome _) => apply respects_ask_outcome; intros ? ?; prim
    | |- respects _ (external _ _) => apply respects_external; intros ? ?; prim
    | |- respects _ (if ?b then _ else _) => destruct b; go
    | |- respects _ (match ?x with _ => _ end) => destruct x; go
    | |- _ => idtac
    end in
  go.

Ltac same_fields :=
  fields; repeat split; reflexivity.

(** ** The validator pool, whatever its input *)
Section ValidatorInGeneral.
Context {E : Type}.
Variable request : string -> string -> E -> Validator.Response * E.
Variable worker_error : list string -> E -> option string * E.
Variable readFileSync : string -> E -> outcome string * E.
Variable store_fault : nat -> option string.

Import Validator.

Lemma testProxy_tagged (proxyUrl : string) (w : World E) :
  ends (testProxy request proxyUrl) w (fun r w' =>
    exists res, r = Ok res /\ proxy res = proxyUrl /\ one_tag res /\
                tag_follows request res /\ calls w' = calls w /\ quiet w w').
Proof.
  unfold testProxy, probe. repeat step.
  destruct (fst (request CNTP_URL ("http://" ++ proxyUrl)%string (env w)))
    as [message|statusCode] eqn:Hresp.
  - repeat step. eexists. split; [reflexivity|]. split; [reflexivity|].
    split; [right; split; reflexivity|]. split; [|split; frame].
    split; cbn [proxy success fail]; [|split; reflexivity].
    intros Hall. specialize (Hall (env w)). rewrite Hresp in Hall. discriminate Hall.
  - destruct (statusCode =? 200)%Z eqn:Hcode; cbn [negb]; repeat step;
      eexists; (split; [reflexivity|]); (split; [reflexivity|]).
    + split; [left; split; reflexivity|]. split; [|split; frame].
      split; cbn [proxy success fail]; [split; reflexivity|].
      intros Hall. specialize (Hall (env w)). rewrite Hresp in Hall.
      cbn [is_200] in Hall. rewrite Hcode in Hall. discriminate Hall.
    + split; [right; split; reflexivity|]. split; [|split; frame].
      split; cbn [proxy success fail]; [|split; reflexivity].
      intros Hall. specialize (Hall (env w)). rewrite Hresp in Hall.
      cbn [is_200] in Hall. rewrite Hcode in Hall. discriminate Hall.
Qed.

Lemma mapM_testProxy_tagged (proxies : list string) : forall w : World E,
  ends (mapM (testProxy request) proxies) w (fun r w' =>
    exists results, r = Ok results /\ map proxy results = proxies /\
      Forall one_tag results /\ Forall (tag_follows request) results /\
      calls w' = calls w /\ quiet w w').
Proof.
  induction proxies as [|p ps IH]; intros w; cbn [mapM].
  - step. exists []. split; [reflexivity|]. split; [reflexivity|].
    split; [constructor|]. split; [constructor|]. split; frame.
  - step. eapply ends_weaken; [apply testProxy_tagged|].
    intros r w1 (res & -> & Hp & Htag & Hfol & Hc & Hq).
    step. eapply ends_weaken; [apply IH|].
    intros r w2 (rs & -> & Hps & Htags & Hfols & Hc2 & Hq2).
    step. exists (res :: rs). cbn [map]. rewrite Hp, Hps.
    split; [reflexivity|]. split; [reflexivity|].
    split; [constructor; assumption|]. split; [constructor; assumption|].
    split; frame.
Qed.

(** X7. The worker answers every message: whatever the network does, it
    posts one result per proxy of the chunk, in the order of the chunk; each
    result carries the tag in exactly one of its lists, in [success] for a
    proxy whose probe is always answered with status 200 and in [fail] for one
    whose probe never is; and the worker writes nothing to the store. *)
Theorem worker_answers_every_proxy (proxies : list string) (w : World E) :
  ends (worker_on_message request proxies) w (fun r w' =>
    exists results,
      r = Ok results /\ map proxy results = proxies /\
      length results = length proxies /\
      Forall one_tag results /\ Forall (tag_follows request) results /\
      calls w' = calls w /\ quiet w w').
Proof.
  unfold worker_on_message. repeat step.
  eapply ends_weaken; [apply mapM_testProxy_tagged|].
  intros r w1 (rs & -> & Hps & Htags & Hfols & Hc & Hq).
  repeat step. exists rs. split; [reflexivity|]. split; [exact Hps|].
  split; [rewrite <- Hps; symmetry; apply length_map|].
  split; [exact Htags|]. split; [exact Hfols|]. split; frame.
Qed.

Lemma validator_only_refl (w : World E) : validator_only w w.
Proof. unfold validator_only. repeat split; reflexivity. Qed.

Lemma validator_only_trans (w1 w2 w3 : World E) :
  validator_only w1 w2 -> validator_only w2 w3 -> validator_only w1 w3.
Proof.
  unfold validator_only. intros H12 H23.
  decompose [and] H12. decompose [and] H23. repeat split; congruence.
Qed.

Lemma respects_collect (proxyList : list string) :
  respects validator_only (processProxies_collect request worker_error proxyList).
Proof.
  unfold processProxies_collect.
  destruct (chunkArray_ends proxyList PROXY_CHUNK_SIZE) as (chunks & -> & _);
    [unfold PROXY_CHUNK_SIZE; lia|].
  unfold processWithWorker, worker_on_message, testProxy, probe.
  respects_with (@validator_only_refl) (@validator_only_trans)
    ltac:(unfold validator_only; same_fields).
Qed.

Lemma respects_save (combinedResults : list ProbeResult) :
  respects (E := E) validator_only (processProxies_save store_fault combinedResults).
Proof.
  unfold processProxies_save, Store.delete_filtered_proxies,
    Store.insert_or_replace_filtered_proxy.
  respects_with (@validator_only_refl) (@validator_only_trans)
    ltac:(unfold validator_only; same_fields).
Qed.

Lemma respects_processProxies (inputFile : string) :
  respects validator_only
    (processProxies request worker_error readFileSync store_fault inputFile).
Proof.
  unfold processProxies.
  apply (respects_try_catch _ (@validator_only_trans));
    [|intros message; apply respects_modify; intros ?; unfold validator_only; same_fields].
  apply (respects_bind _ (@validator_only_trans));
    [apply respects_modify; intros ?; unfold validator_only; same_fields|intros _].
  apply (respects_bind _ (@validator_only_trans));
    [apply respects_ask_outcome; intros ? ?; unfold validator_only; same_fields
    |intros content].
  cbv zeta.
  apply (respects_bind _ (@validator_only_trans));
    [apply respects_modify; intros ?; unfold validator_only; same_fields|intros _].
  apply (respects_bind _ (@validator_only_trans));
    [apply respects_collect|intros results; apply respects_save].
Qed.

(** The [catch] block of [processProxies] turns every error into a normal
    return. *)
Lemma processProxies_returns (inputFile : string) (w : World E) :
  ends (processProxies request worker_error readFileSync store_fault inputFile) w
    (fun r _ => r = Ok tt).
Proof.
  destruct (respects_processProxies inputFile w) as (r & w' & Hrun & _).
  exists r, w'. split; [exact Hrun|].
  unfold processProxies, try_catch in Hrun.
  match type of Hrun with
  | match ?body w with _ => _ end = _ => destruct (body w) as [[[[]|msg] w1]|]
  end.
  - injection Hrun as <- _. reflexivity.
  - cbn in Hrun. injection Hrun as <- _. reflexivity.
  - discriminate Hrun.
Qed.

(** X8. [processProxies] always returns, and never with an error: a file
    that cannot be read, a worker that fails and a store that fails are
    logged and swallowed.  Whatever happens, it leaves the clock, [keys],
    [keys_proxies], [task_monitoring] and the failure file as they were. *)
Theorem processProxies_always_returns (inputFile : string) (w : World E) :
  ends (processProxies request worker_error readFileSync store_fault inputFile) w
    (fun r w' => r = Ok tt /\ validator_only w w').
Proof.
  eapply ends_weaken;
    [apply ends_and; [apply respects_processProxies|apply processProxies_returns]|].
  intros r w' [Hf Hr]. split; assumption.
Qed.

End ValidatorInGeneral.

(** ** What the validator leaves in [filtered_proxies] *)
Section SavedTable.

Lemma NoDup_snoc {A} (l : list A) (x : A) : NoDup l -> ~ In x l -> NoDup (l ++ [x]).
Proof.
  induction l as [|y l IH]; intros Hl Hx; cbn.
  - constructor; [intros []|constructor].
  - inversion Hl as [|? ? Hy Hl']; subst. constructor.
    + rewrite in_app_iff. intros [H|[H|[]]]; [exact (Hy H)|].
      apply Hx. left. symmetry. exact H.
    + apply IH; [exact Hl'|]. intros H. apply Hx. right. exact H.
Qed.

Lemma NoDup_map_filter {A B} (g : A -> B) (f : A -> bool) (l : list A) :
  NoDup (map g l) -> NoDup (map g (filter f l)).
Proof.
  induction l as [|x l IH]; intros H; [constructor|].
  cbn in H. inversion H as [|? ? Hx Hl]; subst.
  cbn. destruct (f x); [|exact (IH Hl)].
  cbn. constructor; [|exact (IH Hl)].
  intros Hin. apply Hx. apply in_map_iff in Hin. destruct Hin as (y & Hy & Hin).
  apply in_map_iff. exists y. split; [exact Hy|].
  apply filter_In in Hin. apply Hin.
Qed.

Lemma replace_row_names (r : ProbeResult) (t : list ProbeResult) (p : string) :
  In p (map proxy (Store.replace_row r t)) <-> p = proxy r \/ In p (map proxy t).
Proof.
  unfold Store.replace_row. rewrite map_app, in_app_iff. cbn [map In]. split.
  - intros [H|[H|[]]]; [right|left; symmetry; exact H].
    apply in_map_iff in H. destruct H as (x & Hx & H). apply filter_In in H.
    apply in_map_iff. exists x. split; [exact Hx|apply H].
  - intros [H|H]; [right; left; symmetry; exact H|].
    destruct (string_dec p (proxy r)) as [Heq|Hne]; [right; left; symmetry; exact Heq|].
    left. apply in_map_iff in H. destruct H as (x & Hx & H).
    apply in_map_iff. exists x. split; [exact Hx|].
    apply filter_In. split; [exact H|].
    destruct (String.eqb_spec (proxy x) (proxy r)) as [Heq|_]; [|reflexivity].
    exfalso. apply Hne. rewrite <- Hx. exact Heq.
Qed.

Lemma replace_row_NoDup (r : ProbeResult) (t : list ProbeResult) :
  NoDup (map proxy t) -> NoDup (map proxy (Store.replace_row r t)).
Proof.
  intros H. unfold Store.replace_row. rewrite map_app. cbn [map].
  apply NoDup_snoc; [apply NoDup_map_filter, H|].
  intros Hin. apply in_map_iff in Hin. destruct Hin as (x & Hx & Hin).
  apply filter_In in Hin. destruct Hin as [_ Hne].
  rewrite Hx, String.eqb_refl in Hne. discriminate Hne.
Qed.

Lemma replace_row_rows (r : ProbeResult) (t : list ProbeResult) (x : ProbeResult) :
  In x (Store.replace_row r t) -> x = r \/ In x t.
Proof.
  unfold Store.replace_row. rewrite in_app_iff. intros [H|[H|[]]].
  - right. apply filter_In in H. apply H.
  - left. symmetry. exact H.
Qed.

Lemma replace_row_fresh (r : ProbeResult) (t : list ProbeResult) :
  ~ In (proxy r) (map proxy t) -> Store.replace_row r t = t ++ [r].
Proof.
  intros H. unfold Store.replace_row. f_equal.
  induction t as [|x t IH]; [reflexivity|].
  cbn. destruct (String.eqb_spec (proxy x) (proxy r)) as [Heq|_].
  - exfalso. apply H. left. exact Heq.
  - cbn. f_equal. apply IH. intros Hin. apply H. right. exact Hin.
Qed.

Lemma saved_names (results : list ProbeResult) :
  forall t p,
  In p (map proxy (saved results t)) <-> In p (map proxy results) \/ In p (map proxy t).
Proof.
  induction results as [|r rs IH]; intros t p; cbn [saved fold_left map In].
  - split; [auto|intros [[]|H]; exact H].
  - fold (saved rs (Store.replace_row r t)). rewrite IH, replace_row_names.
    split.
    + intros [H|[H|H]]; [left; right; exact H|left; left; symmetry; exact H|right; exact H].
    + intros [[H|H]|H]; [right; left; symmetry; exact H|left; exact H|right; right; exact H].
Qed.

Lemma saved_NoDup (results : list ProbeResult) :
  forall t, NoDup (map proxy t) -> NoDup (map proxy (saved results t)).
Proof.
  induction results as [|r rs IH]; intros t H; [exact H|].
  cbn [saved fold_left]. apply IH, replace_row_NoDup, H.
Qed.

Lemma saved_rows (results : list ProbeResult) :
  forall t x, In x (saved results t) -> In x results \/ In x t.
Proof.
  induction results as [|r rs IH]; intros t x H; [right; exact H|].
  cbn [saved fold_left] in H. apply IH in H. destruct H as [H|H]; [left; right; exact H|].
  apply replace_row_rows in H. destruct H as [->|H]; [left; left; reflexivity|right; exact H].
Qed.

Lemma saved_fresh (results : list ProbeResult) :
  forall t,
  NoDup (map proxy results) ->
  (forall p, In p (map proxy results) -> ~ In p (map proxy t)) ->
  saved results t = t ++ results.
Proof.
  induction results as [|r rs IH]; intros t Hnd Hfresh.
  - cbn. rewrite app_nil_r. reflexivity.
  - cbn [map] in Hnd. inversion Hnd as [|? ? Hr Hrs]; subst.
    cbn [saved fold_left]. fold (saved rs (Store.replace_row r t)).
    rewrite replace_row_fresh by (apply Hfresh; left; reflexivity).
    rewrite IH; [rewrite <- app_assoc; reflexivity|exact Hrs|].
    intros p Hp. rewrite map_app, in_app_iff. cbn [map In].
    intros [H|[H|[]]].
    + exact (Hfresh p (or_intror Hp) H).
    + apply Hr. rewrite H. exact Hp.
Qed.

End SavedTable.

Section ValidatorSaves.
Context {E : Type}.
Variable request : string -> string -> E -> Validator.Response * E.
Variable worker_error : list string -> E -> option string * E.
Variable readFileSync : string -> E -> outcome string * E.
Variable store_fault : nat -> option string.

Import Validator.

Lemma promise_all_Ok {A} (l : list A) : promise_all (map Ok l) = Ok l.
Proof. induction l as [|x l IH]; [reflexivity|]. cbn. rewrite IH. reflexivity. Qed.

Lemma dispatch_all_ok (total : nat) (indexed : list (nat * list string)) :
  (forall chunk e, fst (worker_error chunk e) = None) ->
  forall w : World E,
  ends (mapM (fun '(index, chunk) =>
                logger INFO ("Processing chunk " ++ show_nat (index + 1)
                             ++ " of " ++ show_nat total)%string ;;;
                settle (processWithWorker request worker_error chunk)) indexed) w
    (fun r w' =>
       exists allResults, r = Ok (map Ok allResults) /\
         map proxy (flat allResults) = concat (map snd indexed) /\
         Forall one_tag (flat allResults) /\
         Forall (tag_follows request) (flat allResults) /\
         quiet w w').
Proof.
  intros Hnone.
  induction indexed as [|[index chunk] rest IH]; intros w; cbn [mapM map snd concat].
  - step. exists []. split; [reflexivity|]. split; [reflexivity|].
    split; [constructor|]. split; [constructor|]. frame.
  - unfold processWithWorker at 1, worker_on_message. repeat step.
    rewrite Hnone. repeat step.
    eapply ends_weaken; [apply mapM_testProxy_tagged|].
    intros r w1 (rs & -> & Hps & Htags & Hfols & Hc & Hq).
    repeat step. eapply ends_weaken; [apply IH|].
    intros r w2 (rss & -> & Hflat & Htags2 & Hfols2 & Hq2).
    step. exists (rs :: rss). split; [reflexivity|].
    unfold flat in *. cbn [concat]. rewrite map_app, Hps, Hflat.
    split; [reflexivity|].
    split; [apply Forall_app; split; assumption|].
    split; [apply Forall_app; split; assumption|]. frame.
Qed.

Lemma collect_all_ok (proxyList : list string) (w : World E) :
  (forall chunk e, fst (worker_error chunk e) = None) ->
  ends (processProxies_collect request worker_error proxyList) w (fun r w' =>
    exists results,
      r = Ok results /\ map proxy results = proxyList /\
      Forall one_tag results /\ Forall (tag_follows request) results /\
      quiet w w').
Proof.
  intros Hnone. unfold processProxies_collect.
  destruct (chunkArray_ends proxyList PROXY_CHUNK_SIZE) as (chunks & -> & Hcat & _);
    [unfold PROXY_CHUNK_SIZE; lia|].
  repeat step. eapply ends_weaken; [apply dispatch_all_ok, Hnone|].
  intros r w1 (allResults & -> & Hflat & Htags & Hfols & Hq).
  rewrite map_snd_indexed, Hcat in Hflat.
  do 2 step. rewrite promise_all_Ok. repeat step.
  exists (flat allResults). split; [reflexivity|]. split; [exact Hflat|].
  split; [exact Htags|]. split; [exact Hfols|]. frame.
Qed.

(** The loop of inserts while the store answers. *)
Lemma save_loop_ok (results : list ProbeResult) : forall w : World E,
  (forall i, i < length results -> store_fault (store_ops w + i) = None) ->
  ends (for_of results (Store.insert_or_replace_filtered_proxy store_fault)) w
    (fun r w' =>
       r = Ok tt /\
       filtered_proxies w' = saved results (filtered_proxies w) /\
       store_ops w' = store_ops w + length results).
Proof.
  induction results as [|x rs IH]; intros w Hok; cbn [for_of].
  - step. cbn. rewrite Nat.add_0_r. repeat split.
  - unfold Store.insert_or_replace_filtered_proxy at 1. repeat step.
    specialize (Hok 0 ltac:(cbn; lia)) as H0. rewrite Nat.add_0_r in H0. rewrite H0.
    repeat step. eapply ends_weaken; [apply IH|].
    + intros i Hi. fields. rewrite <- (Hok (S i)) by (cbn; lia). f_equal. lia.
    + intros r w1 (-> & Ht & Hops). fields_in Ht. fields_in Hops.
      split; [reflexivity|]. split; [exact Ht|]. rewrite Hops. cbn. lia.
Qed.

(** The loop of inserts when the store fails at insert [j]. *)
Lemma save_loop_fault (message : string) (results : list ProbeResult) :
  forall j (w : World E),
  j < length results ->
  (forall i, i < j -> store_fault (store_ops w + i) = None) ->
  store_fault (store_ops w + j) = Some message ->
  ends (for_of results (Store.insert_or_replace_filtered_proxy store_fault)) w
    (fun r w' =>
       r = Throw message /\
       filtered_proxies w' = saved (firstn j results) (filtered_proxies w)).
Proof.
  induction results as [|x rs IH]; intros j w Hj Hok Hfault; [cbn in Hj; lia|].
  cbn [for_of]. unfold Store.insert_or_replace_filtered_proxy at 1. repeat step.
  destruct j as [|j].
  - rewrite Nat.add_0_r in Hfault. rewrite Hfault. split; reflexivity.
  - specialize (Hok 0 ltac:(lia)) as H0. rewrite Nat.add_0_r in H0. rewrite H0.
    repeat step. eapply ends_weaken; [apply (IH j)|].
    + cbn in Hj. lia.
    + intros i Hi. fields. rewrite <- (Hok (S i)) by lia. f_equal. lia.
    + fields. rewrite <- Hfault. f_equal. lia.
    + intros r w1 (-> & Ht). fields_in Ht. split; [reflexivity|exact Ht].
Qed.

(** [processProxies] when the file is read, no worker reports an error and
    the store answers: the table is what the inserts of the results, in the
    order of the file, make of the empty table. *)
Lemma processProxies_saved (inputFile content : string) (w : World E) :
  healthy store_fault ->
  fst (readFileSync inputFile (env w)) = Ok content ->
  (forall chunk e, fst (worker_error chunk e) = None) ->
  ends (processProxies request worker_error readFileSync store_fault inputFile) w
    (fun r w' =>
       r = Ok tt /\
       exists results,
         map proxy results = clean_lines content /\
         Forall one_tag results /\ Forall (tag_follows request) results /\
         filtered_proxies w' = saved results []).
Proof.
  intros Hh Hread Hnone. unfold processProxies. repeat step.
  cbn [add_log env]. rewrite Hread. repeat step.
  eapply ends_weaken; [apply collect_all_ok, Hnone|].
  intros r w1 (results & -> & Hnames & Htags & Hfols & Hq).
  unfold processProxies_save, Store.delete_filtered_proxies.
  repeat step. rewrite Hh. repeat step. fields. rewrite Hh. repeat step.
  eapply ends_weaken; [apply save_loop_ok; intros; apply Hh|].
  intros r w2 (-> & Ht & _). fields_in Ht.
  repeat step. fields. rewrite Hh. repeat step. fields.
  split; [reflexivity|]. exists results. repeat split; assumption.
Qed.

(** X9. When the file is read, no worker reports an error and the store
    answers, [processProxies] replaces the table: afterwards
    [filtered_proxies] holds one row for each proxy of the file and no other
    row, no proxy twice; each row carries one tag, as the probe of its proxy
    went; and when no proxy is listed twice in the file, the rows are in the
    order of the file. *)
Theorem processProxies_rewrites_table (inputFile content : string) (w : World E) :
  healthy store_fault ->
  fst (readFileSync inputFile (env w)) = Ok content ->
  (forall chunk e, fst (worker_error chunk e) = None) ->
  ends (processProxies request worker_error readFileSync store_fault inputFile) w
    (fun r w' =>
       r = Ok tt /\
       NoDup (map proxy (filtered_proxies w')) /\
       (forall p, In p (map proxy (filtered_proxies w')) <-> In p (clean_lines content)) /\
       Forall one_tag (filtered_proxies w') /\
       Forall (tag_follows request) (filtered_proxies w') /\
       (NoDup (clean_lines content) ->
        map proxy (filtered_proxies w') = clean_lines content)).
Proof.
  intros Hh Hread Hnone.
  eapply ends_weaken; [apply processProxies_saved; eassumption|].
  intros r w' (-> & results & Hnames & Htags & Hfols & Ht). rewrite Ht.
  split; [reflexivity|]. split; [apply saved_NoDup; constructor|].
  split; [|split; [|split]].
  - intros p. rewrite saved_names, Hnames. cbn [map In].
    split; [intros [H|[]]; exact H|auto].
  - apply Forall_forall. intros x Hx. apply saved_rows in Hx.
    destruct Hx as [Hx|[]]. revert x Hx. apply Forall_forall, Htags.
  - apply Forall_forall. intros x Hx. apply saved_rows in Hx.
    destruct Hx as [Hx|[]]. revert x Hx. apply Forall_forall, Hfols.
  - intros Hnd. rewrite saved_fresh; [exact Hnames|rewrite Hnames; exact Hnd|].
    intros p _ [].
Qed.

(** X10. The save is not atomic.  When the store answers up to and including
    the [DELETE] and the first [j] inserts and fails at the next insert,
    [processProxies] still returns normally, and the table is left with the
    rows of the first [j] proxies of the file only: the old rows are gone and
    the remaining results are lost. *)
Theorem failed_insert_truncates_table (inputFile content message : string)
  (j : nat) (w : World E) :
  fst (readFileSync inputFile (env w)) = Ok content ->
  (forall chunk e, fst (worker_error chunk e) = None) ->
  NoDup (clean_lines content) ->
  j < length (clean_lines content) ->
  (forall i, i < 2 + j -> store_fault (store_ops w + i) = None) ->
  store_fault (store_ops w + (2 + j)) = Some message ->
  ends (processProxies request worker_error readFileSync store_fault inputFile) w
    (fun r w' =>
       r = Ok tt /\
       map proxy (filtered_proxies w') = firstn j (clean_lines content)).
Proof.
  intros Hread Hnone Hnd Hj Hok Hfault. unfold processProxies. repeat step.
  cbn [add_log env]. rewrite Hread. repeat step.
  eapply ends_weaken; [apply collect_all_ok, Hnone|].
  intros r w1 (results & -> & Hnames & Htags & Hfols & Hq).
  assert (Hops : store_ops w1 = store_ops w) by frame.
  unfold processProxies_save, Store.delete_filtered_proxies.
  repeat step. rewrite Hops.
  specialize (Hok 0 ltac:(lia)) as H0. rewrite Nat.add_0_r in H0. rewrite H0.
  repeat step. fields. rewrite Hops.
  specialize (Hok 1 ltac:(lia)) as H1. replace (store_ops w + 1) with (S (store_ops w)) in H1 by lia.
  rewrite H1. repeat step.
  eapply ends_weaken; [apply (save_loop_fault message results j)|].
  - rewrite <- (length_map proxy), Hnames. exact Hj.
  - intros i Hi. fields. rewrite Hops. rewrite <- (Hok (2 + i)) by lia. f_equal. lia.
  - fields. rewrite Hops. rewrite <- Hfault. f_equal. lia.
  - intros r w2 (-> & Ht). fields_in Ht. repeat step.
    split; [reflexivity|]. fields. rewrite Ht.
    rewrite saved_fresh.
    + cbn [app]. rewrite <- firstn_map, Hnames. reflexivity.
    + rewrite <- firstn_map, Hnames. clear -Hnd.
      revert j. induction Hnd as [|x l Hx Hl IH]; intros [|j]; cbn; try constructor.
      * intros H. apply Hx. revert H. clear. revert j.
        induction l as [|y l IH]; intros [|j]; cbn; try tauto.
        intros [H|H]; [left; exact H|right; exact (IH j H)].
      * apply IH.
    + intros p _ [].
Qed.

(** X23. When the input file cannot be read, [processProxies] logs the
    error and returns normally without having started a worker or sent a
    statement to the store: [filtered_proxies] keeps its rows. *)
Theorem unreadable_file_changes_nothing (inputFile message : string) (w : World E) :
  fst (readFileSync inputFile (env w)) = Throw message ->
  ends (processProxies request worker_error readFileSync store_fault inputFile) w
    (fun r w' =>
       r = Ok tt /\
       calls w' = calls w /\
       quiet w w' /\
       log w' = log w ++ [(INFO, "Starting proxy processing...");
                          (ERROR, ("Error processing proxies: " ++ message)%string)]).
Proof.
  intros Hread. unfold processProxies. repeat step.
  cbn [add_log env]. rewrite Hread. repeat step.
  split; [reflexivity|]. split; [fields; reflexivity|]. split; [frame|].
  fields. rewrite <- app_assoc. reflexivity.
Qed.

End ValidatorSaves.

(** Pairwise different strings of a concrete list. *)
Ltac distinct_strings :=
  repeat (constructor;
          [cbn; let H := fresh in
                intros H; repeat (destruct H as [H|H]; [discriminate H|]); exact H|]);
  constructor.

Section ValidatorRuns.
Import Scenario Cases Validator.

Lemma processProxies_rewrites_table_witness :
  (healthy no_fault /\
   fst (read_three "proxies.txt" (env old_table)) = Ok three_lines /\
   (forall chunk e, fst (workers_ok chunk e) = None)) /\
  ends (processProxies all_200 workers_ok read_three no_fault "proxies.txt") old_table
    (fun r w' => r = Ok tt /\ map proxy (filtered_proxies w') = three_proxies).
Proof.
  split; [split; [intros n; reflexivity|split; [reflexivity|intros chunk e; reflexivity]]|].
  eapply ends_weaken.
  - eapply (processProxies_rewrites_table all_200 workers_ok read_three no_fault
              "proxies.txt" three_lines old_table).
    + intros n. reflexivity.
    + reflexivity.
    + intros chunk e. reflexivity.
  - intros r w' (Hr & _ & _ & _ & _ & Horder). split; [exact Hr|].
    apply Horder. vm_compute. distinct_strings.
Defined.

Lemma failed_insert_truncates_table_witness :
  (fst (read_three "proxies.txt" (env old_table)) = Ok three_lines /\
   (forall chunk e, fst (workers_ok chunk e) = None) /\
   NoDup (clean_lines three_lines) /\
   1 < length (clean_lines three_lines) /\
   (forall i, i < 2 + 1 -> fault_at 3 "disk full" (store_ops old_table + i) = None) /\
   fault_at 3 "disk full" (store_ops old_table + (2 + 1)) = Some "disk full") /\
  ends (processProxies all_200 workers_ok read_three (fault_at 3 "disk full")
          "proxies.txt") old_table
    (fun r w' => r = Ok tt /\ map proxy (filtered_proxies w') = ["10.0.0.1:8080"]).
Proof.
  assert (Hnd : NoDup (clean_lines three_lines)) by (vm_compute; distinct_strings).
  assert (Hok : forall i, i < 2 + 1 ->
                  fault_at 3 "disk full" (store_ops old_table + i) = None).
  { intros i Hi. do 3 (destruct i as [|i]; [reflexivity|]). lia. }
  split.
  { split; [reflexivity|]. split; [intros chunk e; reflexivity|].
    split; [exact Hnd|]. split; [vm_compute; lia|]. split; [exact Hok|reflexivity]. }
  eapply ends_weaken.
  - eapply (failed_insert_truncates_table all_200 workers_ok read_three
              (fault_at 3 "disk full") "proxies.txt" three_lines "disk full" 1 old_table).
    + reflexivity.
    + intros chunk e. reflexivity.
    + exact Hnd.
    + vm_compute. lia.
    + exact Hok.
    + reflexivity.
  - intros r w' (Hr & Ht). split; [exact Hr|]. rewrite Ht. reflexivity.
Defined.

Lemma unreadable_file_changes_nothing_witness :
  fst (unreadable "proxies.txt" (env old_table)) = Throw "ENOENT: no such file or directory" /\
  ends (processProxies all_200 workers_ok unreadable no_fault "proxies.txt") old_table
    (fun r w' => r = Ok tt /\ filtered_proxies w' = filtered_proxies old_table).
Proof.
  split; [reflexivity|].
  eapply ends_weaken.
  - eapply (unreadable_file_changes_nothing all_200 workers_ok unreadable no_fault
              "proxies.txt" "ENOENT: no such file or directory" old_table).
    reflexivity.
  - intros r w' (Hr & _ & Hq & _). split; [exact Hr|]. apply Hq.
Defined.

End ValidatorRuns.

(** ** The assignment tables *)
Section StageTables.
Import Assignment Stage.

Lemma has_key_iff (k : string) (t : list KeyRow) :
  has_key k t = true <-> In k (map the_key t).
Proof.
  unfold has_key. rewrite existsb_exists. split.
  - intros (r & Hr & Heq). apply String.eqb_eq in Heq. subst k.
    apply in_map, Hr.
  - intros H. apply in_map_iff in H. destruct H as (r & <- & Hr).
    exists r. split; [exact Hr|apply String.eqb_refl].
Qed.

Lemma has_proxy_iff (p : string) (t : list KeyProxyRow) :
  has_proxy p t = true <-> In p (map kp_proxy t).
Proof.
  unfold has_proxy. rewrite existsb_exists. split.
  - intros (r & Hr & Heq). apply String.eqb_eq in Heq. subst p.
    apply in_map, Hr.
  - intros H. apply in_map_iff in H. destruct H as (r & <- & Hr).
    exists r. split; [exact Hr|apply String.eqb_refl].
Qed.

Lemma fold_max_bounds (t : list KeyRow) (init : Z) :
  (init <= fold_right (fun r m => Z.max (id r) m) init t)%Z /\
  forall r, In r t -> (id r <= fold_right (fun r m => Z.max (id r) m) init t)%Z.
Proof.
  induction t as [|x t [IH1 IH2]]; cbn [fold_right]; [split; [lia|intros r []]|].
  split; [lia|]. intros r [<-|Hr]; [lia|]. specialize (IH2 r Hr). lia.
Qed.

(** The id given to a new key is larger than every id in the table. *)
Lemma next_key_id_fresh (t : list KeyRow) (r : KeyRow) :
  In r t -> (id r < next_key_id t)%Z.
Proof.
  destruct t as [|x t]; [intros []|]. cbn [next_key_id].
  destruct (fold_max_bounds t (id x)) as [H1 H2].
  intros [<-|Hr]; [lia|]. specialize (H2 r Hr). lia.
Qed.

Lemma next_key_id_new (t : list KeyRow) : ~ In (next_key_id t) (map id t).
Proof.
  intros H. apply in_map_iff in H. destruct H as (r & Heq & Hr).
  apply next_key_id_fresh in Hr. lia.
Qed.

Lemma add_key_unique (k : string) (t : list KeyRow) :
  keys_unique t -> keys_unique (add_key k t).
Proof.
  intros [Hk Hi]. unfold add_key. destruct (has_key k t) eqn:Hhas; [split; assumption|].
  unfold keys_unique. rewrite !map_app. cbn [map the_key id]. split.
  - apply NoDup_snoc; [exact Hk|]. rewrite <- has_key_iff, Hhas. discriminate.
  - apply NoDup_snoc; [exact Hi|]. apply next_key_id_new.
Qed.

Lemma add_proxy_unique (keyId : Z) (p : string) (t : list KeyProxyRow) :
  proxies_unique t -> proxies_unique (add_proxy keyId p t).
Proof.
  intros H. unfold add_proxy. destruct (has_proxy p t) eqn:Hhas; [exact H|].
  unfold proxies_unique. rewrite map_app. cbn [map kp_proxy].
  apply NoDup_snoc; [exact H|]. rewrite <- has_proxy_iff, Hhas. discriminate.
Qed.

Lemma add_key_grows (k : string) (t : list KeyRow) : exists new, add_key k t = t ++ new.
Proof.
  unfold add_key. destruct (has_key k t); [exists []; symmetry; apply app_nil_r|eauto].
Qed.

Lemma add_proxy_grows (keyId : Z) (p : string) (t : list KeyProxyRow) :
  exists new, add_proxy keyId p t = t ++ new.
Proof.
  unfold add_proxy. destruct (has_proxy p t); [exists []; symmetry; apply app_nil_r|eauto].
Qed.

(** After the insert, the key has a row, and the lookup finds it. *)
Lemma find_add_key (k : string) (t : list KeyRow) :
  exists r, find (fun r => (the_key r =? k)%string) (add_key k t) = Some r /\
            the_key r = k /\ In r (add_key k t).
Proof.
  destruct (find (fun r => (the_key r =? k)%string) (add_key k t)) as [r|] eqn:Hfind.
  - exists r. apply find_some in Hfind. destruct Hfind as [Hin Heq].
    apply String.eqb_eq in Heq. auto.
  - exfalso. unfold add_key in Hfind. destruct (has_key k t) eqn:Hhas.
    + unfold has_key in Hhas. apply existsb_exists in Hhas.
      destruct Hhas as (r & Hr & Heq).
      apply (find_none _ _ Hfind) in Hr. rewrite Hr in Heq. discriminate Heq.
    + assert (Hin : In (mkKey (next_key_id t) k) (t ++ [mkKey (next_key_id t) k]))
        by (apply in_or_app; right; left; reflexivity).
      apply (find_none _ _ Hfind) in Hin. cbn in Hin.
      rewrite String.eqb_refl in Hin. discriminate Hin.
Qed.

Lemma tables_grow_refl ks kps : tables_grow ks ks kps kps.
Proof.
  unfold tables_grow.
  split; [exists []; symmetry; apply app_nil_r|].
  split; [exists []; symmetry; apply app_nil_r|]. auto.
Qed.

Lemma tables_grow_trans ks1 ks2 ks3 kps1 kps2 kps3 :
  tables_grow ks1 ks2 kps1 kps2 -> tables_grow ks2 ks3 kps2 kps3 ->
  tables_grow ks1 ks3 kps1 kps3.
Proof.
  intros ((n1 & H1) & (m1 & G1) & Hk1 & Hp1 & Hl1) ((n2 & H2) & (m2 & G2) & Hk2 & Hp2 & Hl2).
  unfold tables_grow.
  split; [exists (n1 ++ n2); rewrite H2, H1, app_assoc; reflexivity|].
  split; [exists (m1 ++ m2); rewrite G2, G1, app_assoc; reflexivity|]. auto.
Qed.

Lemma tables_grow_add_key (k : string) ks kps :
  tables_grow ks (add_key k ks) kps kps.
Proof.
  unfold tables_grow. split; [apply add_key_grows|].
  split; [exists []; symmetry; apply app_nil_r|].
  split; [apply add_key_unique|]. split; [auto|].
  intros Hl kp Hkp. destruct (add_key_grows k ks) as (new & ->).
  rewrite map_app. apply in_or_app. left. apply Hl, Hkp.
Qed.

Lemma tables_grow_add_proxy (keyId : Z) (p : string) ks kps :
  In keyId (map id ks) ->
  tables_grow ks ks kps (add_proxy keyId p kps).
Proof.
  intros Hid. unfold tables_grow. split; [exists []; symmetry; apply app_nil_r|].
  split; [apply add_proxy_grows|]. split; [auto|].
  split; [apply add_proxy_unique|].
  intros Hl kp Hkp. unfold add_proxy in Hkp. destruct (has_proxy p kps); [apply Hl, Hkp|].
  apply in_app_or in Hkp. destruct Hkp as [Hkp|[<-|[]]]; [apply Hl, Hkp|exact Hid].
Qed.

End StageTables.

(** ** The assignment stage, whatever its input *)
Section StageFacts.
Context {E : Type}.
Variable readFileSync : string -> E -> outcome string * E.
Variable existsSync : string -> E -> bool * E.
Variable mkdirSync : string -> E -> outcome unit * E.
Variable writeFileSync : string -> string -> E -> outcome unit * E.
Variable path_join : string -> string -> string.
Variable store_fault : nat -> option string.

Import Assignment Stage.

Lemma stage_frame_refl (w : World E) : stage_frame w w.
Proof. unfold stage_frame. split; [apply tables_grow_refl|repeat split; reflexivity]. Qed.

Lemma stage_frame_trans (w1 w2 w3 : World E) :
  stage_frame w1 w2 -> stage_frame w2 w3 -> stage_frame w1 w3.
Proof.
  unfold stage_frame. intros [G12 H12] [G23 H23].
  split; [eapply tables_grow_trans; eassumption|].
  decompose [and] H12. decompose [and] H23. repeat split; congruence.
Qed.

Ltac stage_prim :=
  unfold stage_frame; fields; split; [apply tables_grow_refl|repeat split; reflexivity].

(** The inner loop of [saveKeyProxyMappings], for the id of a row of [keys]. *)
Lemma insert_proxies_ends (keyId : Z) (ps : list Assigned) : forall w : World E,
  In keyId (map id (keys w)) ->
  ends (for_of ps (fun p => insert_or_ignore_key_proxy store_fault keyId
                              (assigned_proxy p))) w
    (fun r w' => stage_frame w w' /\ (r = Ok tt \/ store_error store_fault r)).
Proof.
  induction ps as [|p ps IH]; intros w Hid; cbn [for_of].
  - step. split; [apply stage_frame_refl|left; reflexivity].
  - unfold insert_or_ignore_key_proxy at 1. do 3 step.
    destruct (store_fault (store_ops w)) as [msg|] eqn:Hf.
    + split; [stage_prim|]. right. exists (store_ops w), msg. auto.
    + repeat step. eapply ends_weaken; [apply IH; fields; exact Hid|].
      intros r w1 (Hfr & Hr). split; [|exact Hr].
      eapply stage_frame_trans; [|exact Hfr].
      unfold stage_frame. fields.
      split; [apply tables_grow_add_proxy, Hid|repeat split; reflexivity].
Qed.

Lemma saveKeyProxyMapping_ends (k : KeyWithProxies) (w : World E) :
  ends (saveKeyProxyMapping store_fault k) w
    (fun r w' => stage_frame w w' /\ (r = Ok tt \/ store_error store_fault r)).
Proof.
  unfold saveKeyProxyMapping, insert_or_ignore_key, select_key. do 3 step.
  destruct (store_fault (store_ops w)) as [msg|] eqn:Hf.
  { split; [stage_prim|]. right. exists (store_ops w), msg. auto. }
  do 4 step. fields.
  assert (Hstep : stage_frame w
            (tick_store (set_keys (add_key (kwp_key k) (keys w)) (tick_store w)))).
  { unfold stage_frame. fields.
    split; [apply tables_grow_add_key|repeat split; reflexivity]. }
  destruct (store_fault (S (store_ops w))) as [msg|] eqn:Hf2.
  { split; [exact Hstep|]. right. exists (S (store_ops w)), msg. auto. }
  step. fields.
  destruct (find_add_key (kwp_key k) (keys w)) as (r & -> & _ & Hin).
  eapply ends_weaken; [apply insert_proxies_ends; fields; apply in_map, Hin|].
  intros r' w1 (Hfr & Hr). split; [|exact Hr].
  eapply stage_frame_trans; [exact Hstep|exact Hfr].
Qed.

(** X11. [saveKeyProxyMappings] always ends, and the only errors it ends
    with are those of the store: the row of a key is always found after its
    insert.  Whatever the store does, every row that [keys] and
    [keys_proxies] had is still there, in place, with new rows only after
    them; no key, id or proxy occurs twice if none did; and every row of
    [keys_proxies] names the id of a row of [keys] if that was so before. *)
Theorem saveKeyProxyMappings_only_adds (keysWithProxies : list KeyWithProxies) :
  forall w : World E,
  ends (saveKeyProxyMappings store_fault keysWithProxies) w
    (fun r w' => stage_frame w w' /\ (r = Ok tt \/ store_error store_fault r)).
Proof.
  unfold saveKeyProxyMappings.
  induction keysWithProxies as [|k rest IH]; intros w; cbn [for_of].
  - step. split; [apply stage_frame_refl|left; reflexivity].
  - step. eapply ends_weaken; [apply saveKeyProxyMapping_ends|].
    intros [[]|msg] w1 (Hfr & Hr); cbv beta.
    + eapply ends_weaken; [apply IH|].
      intros r w2 (Hfr2 & Hr2). split; [|exact Hr2].
      eapply stage_frame_trans; eassumption.
    + split; [exact Hfr|exact Hr].
Qed.

Lemma respects_saveKeyProxyMappings (keysWithProxies : list KeyWithProxies) :
  respects (E := E) stage_frame (saveKeyProxyMappings store_fault keysWithProxies).
Proof.
  unfold saveKeyProxyMappings.
  apply (respects_for_of _ (@stage_frame_refl) (@stage_frame_trans)).
  intros k w. eapply ends_weaken; [apply saveKeyProxyMapping_ends|].
  intros r w1 (Hfr & _). exact Hfr.
Qed.

(** X12. [processKeysAndProxies] always returns, and never with an error: a
    key file that cannot be read, a store that fails and a failure list that
    cannot be written are logged and swallowed.  Whatever happens, it only
    adds rows to [keys] and [keys_proxies], keeps their constraints, and
    leaves the clock, [filtered_proxies], [task_monitoring] and the failure
    file of the tasks as they were. *)
Theorem processKeysAndProxies_always_returns (keyFilePath outputDir : string)
  (w : World E) :
  ends (processKeysAndProxies readFileSync existsSync mkdirSync writeFileSync
          path_join store_fault keyFilePath outputDir) w
    (fun r w' => r = Ok tt /\ stage_frame w w').
Proof.
  unfold processKeysAndProxies. step.
  match goal with
  | |- ends ?body _ _ => assert (Hbody : respects stage_frame body)
  end.
  { unfold getFilteredProxiesFromDB, readKeysFromFile, saveFailedProxies.
    respects_with (@stage_frame_refl) (@stage_frame_trans) ltac:(stage_prim).
    apply respects_saveKeyProxyMappings. }
  eapply ends_weaken; [apply (Hbody w)|].
  intros [[]|msg] w1 H1; cbv beta in H1 |- *.
  - split; [reflexivity|exact H1].
  - step. split; [reflexivity|].
    eapply stage_frame_trans; [exact H1|]. stage_prim.
Qed.

End StageFacts.

(** ** The assignment tables when the store answers *)
Section StageTablesHealthy.
Import Assignment Stage.

Lemma has_key_app (k : string) (t new : list KeyRow) :
  has_key k t = true -> has_key k (t ++ new) = true.
Proof. unfold has_key. rewrite existsb_app. intros ->. reflexivity. Qed.

Lemma has_proxy_app (p : string) (t new : list KeyProxyRow) :
  has_proxy p t = true -> has_proxy p (t ++ new) = true.
Proof. unfold has_proxy. rewrite existsb_app. intros ->. reflexivity. Qed.

Lemma has_proxy_add_proxy (keyId : Z) (p : string) (t : list KeyProxyRow) :
  has_proxy p (add_proxy keyId p t) = true.
Proof.
  unfold add_proxy. destruct (has_proxy p t) eqn:H; [exact H|].
  unfold has_proxy. rewrite existsb_app. cbn. rewrite String.eqb_refl.
  apply orb_true_iff. right. reflexivity.
Qed.

Lemma add_proxies_cons (keyId : Z) (q : Assigned) (ps : list Assigned)
  (t : list KeyProxyRow) :
  add_proxies keyId (q :: ps) t
  = add_proxies keyId ps (add_proxy keyId (assigned_proxy q) t).
Proof. reflexivity. Qed.

Lemma add_proxies_grows (keyId : Z) (ps : list Assigned) :
  forall t, exists new, add_proxies keyId ps t = t ++ new.
Proof.
  induction ps as [|p ps IH]; intros t.
  - exists []. symmetry. apply app_nil_r.
  - rewrite add_proxies_cons.
    destruct (IH (add_proxy keyId (assigned_proxy p) t)) as (new & Hnew).
    destruct (add_proxy_grows keyId (assigned_proxy p) t) as (new0 & H0).
    exists (new0 ++ new). rewrite Hnew, H0, app_assoc. reflexivity.
Qed.

Lemma add_proxies_present (keyId : Z) (ps : list Assigned) :
  forall t p, In p ps -> has_proxy (assigned_proxy p) (add_proxies keyId ps t) = true.
Proof.
  induction ps as [|q ps IH]; intros t p Hin; [destruct Hin|].
  rewrite add_proxies_cons.
  destruct Hin as [<-|Hin]; [|apply IH, Hin].
  destruct (add_proxies_grows keyId ps (add_proxy keyId (assigned_proxy q) t))
    as (new & ->).
  apply has_proxy_app, has_proxy_add_proxy.
Qed.

Lemma add_proxies_id (keyId : Z) (ps : list Assigned) :
  forall t,
  (forall p, In p ps -> has_proxy (assigned_proxy p) t = true) ->
  add_proxies keyId ps t = t.
Proof.
  induction ps as [|q ps IH]; intros t H; [reflexivity|].
  rewrite add_proxies_cons. unfold add_proxy.
  rewrite (H q (or_introl eq_refl)). apply IH.
  intros p Hp. apply H. right. exact Hp.
Qed.

Lemma save_one_grows (s : list KeyRow * list KeyProxyRow) (k : KeyWithProxies) :
  exists n m, fst (save_one s k) = fst s ++ n /\ snd (save_one s k) = snd s ++ m.
Proof.
  unfold save_one.
  destruct (find_add_key (kwp_key k) (fst s)) as (r & -> & _ & _).
  destruct (add_key_grows (kwp_key k) (fst s)) as (n & Hn).
  destruct (add_proxies_grows (id r) (proxies k) (snd s)) as (m & Hm).
  exists n, m. cbn [fst snd]. split; [exact Hn|exact Hm].
Qed.

Lemma save_all_grows (kwps : list KeyWithProxies) :
  forall s, exists n m,
    fst (save_all kwps s) = fst s ++ n /\ snd (save_all kwps s) = snd s ++ m.
Proof.
  induction kwps as [|k kwps IH]; intros s; cbn [save_all fold_left].
  - exists [], []. rewrite !app_nil_r. split; reflexivity.
  - destruct (IH (save_one s k)) as (n & m & Hn & Hm).
    destruct (save_one_grows s k) as (n0 & m0 & Hn0 & Hm0).
    exists (n0 ++ n), (m0 ++ m). unfold save_all in Hn, Hm.
    rewrite Hn, Hm, Hn0, Hm0, !app_assoc. split; reflexivity.
Qed.

Lemma save_one_present (s : list KeyRow * list KeyProxyRow) (k : KeyWithProxies) :
  has_key (kwp_key k) (fst (save_one s k)) = true /\
  forall p, In p (proxies k) -> has_proxy (assigned_proxy p) (snd (save_one s k)) = true.
Proof.
  unfold save_one.
  destruct (find_add_key (kwp_key k) (fst s)) as (r & -> & Hkey & Hin).
  cbn [fst snd]. split.
  - apply has_key_iff, in_map_iff. exists r. split; [exact Hkey|exact Hin].
  - intros p Hp. apply add_proxies_present, Hp.
Qed.

Lemma save_one_id (s : list KeyRow * list KeyProxyRow) (k : KeyWithProxies) :
  has_key (kwp_key k) (fst s) = true ->
  (forall p, In p (proxies k) -> has_proxy (assigned_proxy p) (snd s) = true) ->
  save_one s k = s.
Proof.
  intros Hk Hp. unfold save_one, add_key. rewrite Hk.
  destruct (find (fun r => (the_key r =? kwp_key k)%string) (fst s)) as [r|];
    [|destruct s; reflexivity].
  fold (add_proxies (id r) (proxies k) (snd s)).
  rewrite add_proxies_id by exact Hp. destruct s; reflexivity.
Qed.

Lemma save_all_present (kwps : list KeyWithProxies) :
  forall s, all_present kwps (save_all kwps s).
Proof.
  induction kwps as [|k kwps IH]; intros s x Hx; [destruct Hx|].
  cbn [save_all fold_left]. fold (save_all kwps (save_one s k)).
  destruct Hx as [<-|Hx]; [|apply IH, Hx].
  destruct (save_one_present s k) as [Hk Hp].
  destruct (save_all_grows kwps (save_one s k)) as (n & m & -> & ->).
  split; [apply has_key_app, Hk|].
  intros p Hin. apply has_proxy_app, Hp, Hin.
Qed.

Lemma save_all_id (kwps : list KeyWithProxies) :
  forall s, all_present kwps s -> save_all kwps s = s.
Proof.
  induction kwps as [|k kwps IH]; intros s H; [reflexivity|].
  cbn [save_all fold_left]. fold (save_all kwps (save_one s k)).
  destruct (H k (or_introl eq_refl)) as [Hk Hp].
  rewrite save_one_id by assumption.
  apply IH. intros x Hx. apply H. right. exact Hx.
Qed.

End StageTablesHealthy.

Section StageHealthy.
Context {E : Type}.
Variable store_fault : nat -> option string.
Import Assignment Stage.

Lemma insert_proxies_healthy (keyId : Z) (ps : list Assigned) : forall w : World E,
  healthy store_fault ->
  ends (for_of ps (fun p => insert_or_ignore_key_proxy store_fault keyId
                              (assigned_proxy p))) w
    (fun r w' =>
       r = Ok tt /\ keys w' = keys w /\
       keys_proxies w' = add_proxies keyId ps (keys_proxies w) /\
       env w' = env w /\ db_open w' = db_open w).
Proof.
  intros w Hh. revert w.
  induction ps as [|p ps IH]; intros w; cbn [for_of].
  - step. repeat split.
  - unfold insert_or_ignore_key_proxy at 1. do 3 step. rewrite Hh. repeat step.
    eapply ends_weaken; [apply IH|].
    intros r w1 (-> & Hk & Hkp & He & Hd). fields_in Hk. fields_in Hkp.
    fields_in He. fields_in Hd.
    split; [reflexivity|]. split; [exact Hk|]. split; [exact Hkp|].
    split; [exact He|exact Hd].
Qed.

Lemma saveKeyProxyMappings_healthy (kwps : list KeyWithProxies) : forall w : World E,
  healthy store_fault ->
  ends (saveKeyProxyMappings store_fault kwps) w
    (fun r w' =>
       r = Ok tt /\
       (keys w', keys_proxies w') = save_all kwps (keys w, keys_proxies w) /\
       env w' = env w /\ db_open w' = db_open w).
Proof.
  intros w Hh. revert w. unfold saveKeyProxyMappings.
  induction kwps as [|k kwps IH]; intros w; cbn [for_of].
  - step. repeat split.
  - step. unfold saveKeyProxyMapping, insert_or_ignore_key, select_key.
    do 3 step. rewrite Hh. do 4 step. rewrite Hh. step. fields.
    destruct (find (fun r => (the_key r =? kwp_key k)%string)
                   (add_key (kwp_key k) (keys w))) as [r|] eqn:Hfind.
    2:{ destruct (find_add_key (kwp_key k) (keys w)) as (r & Hr & _).
        rewrite Hr in Hfind. discriminate Hfind. }
    eapply ends_weaken; [apply insert_proxies_healthy, Hh|].
    intros r0 w1 (-> & Hk & Hkp & He & Hd). fields_in Hk. fields_in Hkp.
    fields_in He. fields_in Hd.
    eapply ends_weaken; [apply IH|].
    intros r1 w2 (-> & Hs & He2 & Hd2).
    split; [reflexivity|]. split; [|split; congruence].
    rewrite Hs, Hk, Hkp. cbn [save_all fold_left]. f_equal.
    unfold save_one. cbn [fst snd]. rewrite Hfind. reflexivity.
Qed.

(** X13. When the store answers, saving the same assignment a second time
    changes nothing: both runs end normally, and after the second [keys] and
    [keys_proxies] are as the first left them. *)
Theorem saveKeyProxyMappings_twice (keysWithProxies : list KeyWithProxies)
  (w : World E) :
  healthy store_fault ->
  ends (saveKeyProxyMappings store_fault keysWithProxies) w (fun r1 w1 =>
    r1 = Ok tt /\
    ends (saveKeyProxyMappings store_fault keysWithProxies) w1 (fun r2 w2 =>
      r2 = Ok tt /\ keys w2 = keys w1 /\ keys_proxies w2 = keys_proxies w1)).
Proof.
  intros Hh. eapply ends_weaken; [apply saveKeyProxyMappings_healthy, Hh|].
  intros r1 w1 (-> & Hs1 & _). split; [reflexivity|].
  eapply ends_weaken; [apply saveKeyProxyMappings_healthy, Hh|].
  intros r2 w2 (-> & Hs2 & _). split; [reflexivity|].
  rewrite save_all_id in Hs2.
  - injection Hs2 as Hk Hkp. split; assumption.
  - rewrite Hs1. apply save_all_present.
Qed.

End StageHealthy.

(** ** From the assignment to the pairs of the orchestrator *)
Section PipelineTables.
Import Manager Assignment Stage.









End PipelineTables.

Section Pipeline.
Context {E : Type}.
Variable readFileSync : string -> E -> outcome string * E.
Variable existsSync : string -> E -> bool * E.
Variable mkdirSync : string -> E -> outcome unit * E.
Variable writeFileSync : string -> string -> E -> outcome unit * E.
Variable path_join : string -> string -> string.
Variable store_fault : nat -> option string.

Import Manager Assignment Stage.






End Pipeline.

(** ** From the two input files to the pairs of the orchestrator *)
Section WholePipeline.
Context {E : Type}.
Variable request : string -> string -> E -> Validator.Response * E.
Variable worker_error : list string -> E -> option string * E.
Variable readFileSync : string -> E -> outcome string * E.
Variable existsSync : string -> E -> bool * E.
Variable mkdirSync : string -> E -> outcome unit * E.
Variable writeFileSync : string -> string -> E -> outcome unit * E.
Variable path_join : string -> string -> string.
Variable store_fault : nat -> option string.

Import Manager Assignment Stage Validator.


End WholePipeline.

(** ** The handler, whatever the store, the plugin and the browser do *)
Section HandlerInGeneral.
Context {E driver : Type}.
Variable cwd : string.
Variable tokenPlugin : Plugin.Plugin E driver.
Variable build_session : string -> string -> E -> outcome driver * E.
Variable tabReset : option driver -> E -> outcome unit * E.
Variable rmSync : string -> E -> outcome unit * E.
Variable store_fault : nat -> option string.
Variable cfg : Config.

Import Manager Plugin.

Lemma same_calls_refl (w : World E) : same_calls w w.
Proof. reflexivity. Qed.

Lemma same_calls_trans (w1 w2 w3 : World E) :
  same_calls w1 w2 -> same_calls w2 w3 -> same_calls w1 w3.
Proof. unfold same_calls. congruence. Qed.

Ltac calls_prim := unfold same_calls; fields; reflexivity.

Lemma initializeCNTPTask_no_call (keyId : Z) (proxyUrl : string) :
  respects (E := E) same_calls (initializeCNTPTask store_fault keyId proxyUrl).
Proof.
  unfold initializeCNTPTask, getDB, Store.get_cntp_task, Store.insert_pending_task.
  respects_with (@same_calls_refl) (@same_calls_trans) ltac:(calls_prim).
Qed.

Lemma getCNTPTaskState_no_call (keyId : Z) (proxyUrl : string) :
  respects (E := E) same_calls (getCNTPTaskState store_fault keyId proxyUrl).
Proof.
  unfold getCNTPTaskState, getDB, Store.get_cntp_task.
  respects_with (@same_calls_refl) (@same_calls_trans) ltac:(calls_prim).
Qed.

Lemma updateCNTPTaskState_no_call (keyId : Z) (proxyUrl newState : string) (pt : value) :
  respects (E := E) same_calls
    (updateCNTPTaskState store_fault keyId proxyUrl newState pt).
Proof.
  unfold updateCNTPTaskState, getDB, Store.update_cntp_task.
  respects_with (@same_calls_refl) (@same_calls_trans) ltac:(calls_prim).
Qed.

(** One turn of the login loop calls [login] once. *)
Lemma login_attempt_calls (d : driver) (the_key proxyUrl : string)
  (loginSuccess : value) (loginAttempts : nat) (w : World E) :
  ends (login_attempt tokenPlugin cfg d the_key proxyUrl (loginSuccess, loginAttempts)) w
    (fun r w' =>
       calls w' = calls w ++ [Login "cntp" the_key proxyUrl] /\
       exists v n, r = Ok (v, n) /\
         ((truthy v = true /\ n = loginAttempts) \/
          (truthy v = false /\ n = loginAttempts + 1))).
Proof.
  unfold login_attempt. do 3 step.
  destruct (fst (login tokenPlugin d "cntp" the_key proxyUrl (env w))) as [v|msg].
  - destruct (truthy v) eqn:Hv; cbn [negb]; repeat step;
      (split; [fields; reflexivity|]); eexists _, _; (split; [reflexivity|]); auto.
  - repeat step.
    destruct (truthy loginSuccess) eqn:Hv; cbn [negb]; repeat step;
      (split; [fields; reflexivity|]); eexists _, _; (split; [reflexivity|]); auto.
Qed.

(** The login loop calls [login] at most as often as there are attempts
    left, and at least once when it ends with a login that succeeded. *)
Lemma login_loop_calls (d : driver) (the_key proxyUrl : string) :
  forall n fuel loginSuccess loginAttempts (w : World E),
  MAX_LOGIN_RETRIES cfg - loginAttempts <= n ->
  n < fuel ->
  ends (whileM fuel (login_pending cfg)
               (login_attempt tokenPlugin cfg d the_key proxyUrl)
               (loginSuccess, loginAttempts)) w
    (fun r w' =>
       exists k v a,
         r = Ok (v, a) /\
         k <= MAX_LOGIN_RETRIES cfg - loginAttempts /\
         (truthy v = true -> truthy loginSuccess = true \/ 1 <= k) /\
         calls w' = calls w ++ repeat (Login "cntp" the_key proxyUrl) k).
Proof.
  induction n as [|n IH]; intros fuel v0 a w Hn Hfuel;
    (destruct fuel as [|fuel]; [lia|]); rewrite whileM_unfold.
  - assert (Hp : login_pending cfg (v0, a) = false).
    { unfold login_pending. destruct (a <? MAX_LOGIN_RETRIES cfg) eqn:Ha;
        [apply Nat.ltb_lt in Ha; lia|apply andb_false_r]. }
    rewrite Hp. step. exists 0, v0, a. cbn [repeat]. rewrite app_nil_r.
    split; [reflexivity|]. split; [lia|]. split; [auto|reflexivity].
  - destruct (login_pending cfg (v0, a)) eqn:Hp.
    + unfold login_pending in Hp. apply andb_true_iff in Hp. destruct Hp as [Hv0 Ha].
      apply Nat.ltb_lt in Ha.
      step. eapply ends_weaken; [apply login_attempt_calls|].
      intros r w1 (Hc & v & a1 & -> & Hcase).
      destruct Hcase as [[Hv ->]|[Hv ->]].
      * destruct fuel as [|fuel]; [lia|]. rewrite whileM_unfold.
        unfold login_pending at 1. rewrite Hv. cbn [negb andb]. step.
        exists 1, v, a. cbn [repeat].
        split; [reflexivity|]. split; [lia|]. split; [auto|exact Hc].
      * eapply ends_weaken; [apply (IH fuel v (a + 1) w1); lia|].
        intros r w2 (k & v2 & a2 & -> & Hk & Hsucc & Hc2).
        exists (S k), v2, a2. split; [reflexivity|]. split; [lia|].
        split; [intros _; right; lia|].
        rewrite Hc2, Hc. cbn [repeat]. rewrite <- app_assoc. reflexivity.
    + step. exists 0, v0, a. cbn [repeat]. rewrite app_nil_r.
      split; [reflexivity|]. split; [lia|]. split; [auto|reflexivity].
Qed.

(** The [catch] block never throws and asks for at most one removal. *)
Lemma fatal_calls (the_key profilePath message : string) (w : World E) :
  ends (fatal rmSync cfg the_key profilePath message) w (fun r w' =>
    r = Ok tt /\
    exists n, n <= 1 /\ (n = 1 -> PROFILE_CLEANUP_ON_FAILURE cfg = true) /\
              calls w' = calls w ++ repeat (RemoveProfile profilePath) n).
Proof.
  unfold fatal, handleCleanup. do 2 step.
  destruct (PROFILE_CLEANUP_ON_FAILURE cfg) eqn:Hflag.
  - do 3 step. destruct (fst (rmSync profilePath (env (add_log _ _ w)))); repeat step;
      (split; [reflexivity|]); exists 1; (split; [lia|]); (split; [auto|]);
      fields; reflexivity.
  - step. split; [reflexivity|]. exists 0. split; [lia|]. split; [lia|].
    fields. cbn [repeat]. rewrite app_nil_r. reflexivity.
Qed.

(** The [try] block: the logins, then at most one check. *)
Lemma attempt_calls (fuel : nat) (d : driver) (keyId : Z) (the_key proxyUrl : string)
  (w : World E) :
  MAX_LOGIN_RETRIES cfg < fuel ->
  ends (attempt tokenPlugin store_fault cfg fuel d keyId the_key proxyUrl) w
    (fun r w' =>
       exists k c,
         k <= MAX_LOGIN_RETRIES cfg /\ c <= 1 /\ (c = 1 -> 1 <= k) /\
         calls w' = calls w ++ repeat (Login "cntp" the_key proxyUrl) k
                            ++ repeat (Check "cntp" the_key proxyUrl) c).
Proof.
  intros Hfuel. unfold attempt, login_loop. step.
  eapply ends_weaken;
    [apply (login_loop_calls d the_key proxyUrl (MAX_LOGIN_RETRIES cfg)); lia|].
  intros r w1 (k & v & a & -> & Hk & Hsucc & Hc). cbv beta iota.
  destruct (truthy v) eqn:Hv; cbn [negb].
  - destruct (Hsucc eq_refl) as [Habs|Hk1]; [discriminate Habs|].
    step. step.
    assert (Hcheck : forall (r : outcome unit) (w2 : World E),
              same_calls
                (set_env (snd (check tokenPlugin d "cntp" the_key proxyUrl (env w1)))
                         (record_call (Check "cntp" the_key proxyUrl) w1)) w2 ->
              exists k c,
                k <= MAX_LOGIN_RETRIES cfg /\ c <= 1 /\ (c = 1 -> 1 <= k) /\
                calls w2 = calls w ++ repeat (Login "cntp" the_key proxyUrl) k
                                   ++ repeat (Check "cntp" the_key proxyUrl) c).
    { intros r w2 H2. exists k, 1. split; [lia|]. split; [lia|]. split; [auto|].
      unfold same_calls in H2. fields_in H2. rewrite H2, Hc, <- app_assoc.
      reflexivity. }
    destruct (fst (check tokenPlugin d "cntp" the_key proxyUrl (env w1))) as [cr|msg].
    + destruct (strict_eq_false cr).
      * match goal with
        | |- ends ?m _ _ => assert (Hm : respects same_calls m)
        end.
        { apply (respects_bind _ (@same_calls_trans));
            [apply respects_modify; intros ?; calls_prim|intros _].
          apply (respects_bind _ (@same_calls_trans));
            [apply updateCNTPTaskState_no_call|intros _].
          unfold logFailedTask. apply respects_modify. intros ?. calls_prim. }
        eapply ends_weaken; [apply Hm|]. intros r w2 H2. exact (Hcheck r w2 H2).
      * match goal with
        | |- ends ?m _ _ => assert (Hm : respects same_calls m)
        end.
        { apply (respects_bind _ (@same_calls_trans));
            [apply respects_modify; intros ?; calls_prim|intros _].
          apply updateCNTPTaskState_no_call. }
        eapply ends_weaken; [apply Hm|]. intros r w2 H2. exact (Hcheck r w2 H2).
    + apply (Hcheck (Throw msg)). reflexivity.
  - match goal with
    | |- ends ?m _ _ => assert (Hm : respects same_calls m)
    end.
    { apply (respects_bind _ (@same_calls_trans));
        [apply respects_modify; intros ?; calls_prim|intros _].
      apply (respects_bind _ (@same_calls_trans));
        [apply updateCNTPTaskState_no_call|intros _].
      unfold logFailedTask. apply respects_modify. intros ?. calls_prim. }
    eapply ends_weaken; [apply Hm|]. intros r w2 H2.
    exists k, 0. split; [lia|]. split; [lia|]. split; [lia|].
    unfold same_calls in H2. rewrite H2, Hc. cbn [repeat]. rewrite app_nil_r.
    reflexivity.
Qed.

(** X15. The calls of one run of the handler, whatever the store, the plugin
    and the browser answer: either none at all (the pair is skipped), or the
    creation of one session, then at most [MAX_LOGIN_RETRIES] calls of
    [login], then at most one call of [check] (none without a login), then
    the removal of the profile at most once (only after an error, and only
    under the clean-up policy), and last the [tabReset] of the [finally]
    block, exactly once, also when no session could be created. *)
Theorem handler_call_sequence (fuel : nat) (kp : KeyProxy) (w : World E) :
  MAX_LOGIN_RETRIES cfg < fuel ->
  ends (handleKeyProxyTask cwd tokenPlugin build_session tabReset rmSync
          store_fault cfg fuel kp) w
    (fun r w' =>
       exists cs,
         calls w' = calls w ++ cs /\
         handler_calls cfg (getProfilePath cwd (pair_key kp) (pair_proxy kp))
                       (pair_key kp) (pair_proxy kp) cs).
Proof.
  intros Hfuel. unfold handleKeyProxyTask. cbv zeta.
  set (profilePath := getProfilePath cwd (pair_key kp) (pair_proxy kp)).
  assert (Hnone : forall w1 : World E, calls w1 = calls w ->
            exists cs, calls w1 = calls w ++ cs /\
              handler_calls cfg profilePath (pair_key kp) (pair_proxy kp) cs).
  { intros w1 H1. exists []. rewrite app_nil_r. split; [exact H1|left; reflexivity]. }
  step. eapply ends_weaken; [apply initializeCNTPTask_no_call|].
  intros [[]|msg] w1 H1; cbv beta in H1 |- *; [|apply Hnone, H1].
  step. eapply ends_weaken; [apply getCNTPTaskState_no_call|].
  intros [st|msg] w2 H2; cbv beta in H2 |- *;
    [|apply Hnone; unfold same_calls in *; congruence].
  assert (Hc2 : calls w2 = calls w) by (unfold same_calls in *; congruence).
  destruct (is_terminal st).
  { step. apply Hnone. fields. exact Hc2. }
  unfold initializeDriver. do 3 step.
  set (w3 := set_env _ (record_call _ w2)).
  assert (Hc3 : calls w3 = calls w ++ [CreateSession profilePath (pair_proxy kp)])
    by (subst w3; fields; rewrite Hc2; reflexivity).
  destruct (fst (build_session profilePath (pair_proxy kp) (env w2))) as [d|msg].
  - do 2 step. eapply ends_weaken; [apply attempt_calls, Hfuel|].
    intros [[]|msg] w4 (k & c & Hk & Hc & Hck & Hc4); cbv beta iota.
    + step. destruct (fst (tabReset (Some d) (env w4)));
        (eexists; split;
         [fields; rewrite Hc4, Hc3, <- ?app_assoc; reflexivity|]);
        right; exists k, c, 0; cbn [repeat app];
        (split; [exact Hk|]); (split; [exact Hc|]); (split; [lia|]);
        (split; [exact Hck|]); (split; [lia|]); rewrite <- ?app_assoc; reflexivity.
    + eapply ends_weaken; [apply fatal_calls|].
      intros r w5 (-> & n & Hn & Hflag & Hc5).
      step. destruct (fst (tabReset (Some d) (env w5)));
        (eexists; split;
         [fields; rewrite Hc5, Hc4, Hc3, <- ?app_assoc; reflexivity|]);
        right; exists k, c, n; cbn [app];
        (split; [exact Hk|]); (split; [exact Hc|]); (split; [exact Hn|]);
        (split; [exact Hck|]); (split; [exact Hflag|]);
        rewrite <- ?app_assoc; reflexivity.
  - step. eapply ends_weaken; [apply fatal_calls|].
    intros r w5 (-> & n & Hn & Hflag & Hc5).
    step. destruct (fst (tabReset None (env w5)));
      (eexists; split;
       [fields; rewrite Hc5, Hc3, <- ?app_assoc; reflexivity|]);
      right; exists 0, 0, n; cbn [repeat app];
      (split; [lia|]); (split; [lia|]); (split; [exact Hn|]);
      (split; [lia|]); (split; [exact Hflag|]); reflexivity.
Qed.

End HandlerInGeneral.

(** ** What a run of the handler leaves alone *)
Section HandlerFrame.
Context {E driver : Type}.
Variable cwd : string.
Variable tokenPlugin : Plugin.Plugin E driver.
Variable build_session : string -> string -> E -> outcome driver * E.
Variable tabReset : option driver -> E -> outcome unit * E.
Variable rmSync : string -> E -> outcome unit * E.
Variable store_fault : nat -> option string.
Variable cfg : Config.
Variable keyId : Z.
Variable the_key proxyUrl : string.

Import Manager Plugin.

Lemma rows_kept_refl (tm : list TaskRow) : rows_kept keyId proxyUrl tm tm.
Proof. unfold rows_kept. split; [reflexivity|lia]. Qed.

Lemma rows_kept_trans (t1 t2 t3 : list TaskRow) :
  rows_kept keyId proxyUrl t1 t2 -> rows_kept keyId proxyUrl t2 t3 ->
  rows_kept keyId proxyUrl t1 t3.
Proof. unfold rows_kept. intros (H1 & H2 & H3) (G1 & G2 & G3). split; [congruence|lia]. Qed.

Lemma rows_kept_update (newState : string) (pt : value) (t : Z) (tm : list TaskRow) :
  rows_kept keyId proxyUrl tm (map (Store.update_row keyId proxyUrl newState pt t) tm).
Proof.
  unfold rows_kept. split.
  - unfold other_rows. induction tm as [|r tm IH]; [reflexivity|].
    cbn [map filter]. rewrite is_cntp_task_update_row.
    destruct (Store.is_cntp_task keyId proxyUrl r) eqn:Hr; cbn [negb]; [exact IH|].
    rewrite IH. unfold Store.update_row. rewrite Hr. reflexivity.
  - destruct (rows_of_updated keyId proxyUrl newState pt t tm) as [_ Hlen]. lia.
Qed.

Lemma rows_kept_insert (rowid t : Z) (tm : list TaskRow) :
  find (Store.is_cntp_task keyId proxyUrl) tm = None ->
  rows_kept keyId proxyUrl tm
    (tm ++ [mkTask rowid keyId proxyUrl "cntp" "pending" 0%Z (VNum 0) t]).
Proof.
  intros Hfind. unfold rows_kept, other_rows, rows_of. rewrite !filter_app.
  cbn [filter]. rewrite is_cntp_task_pending. cbn [negb].
  assert (Hnone : filter (Store.is_cntp_task keyId proxyUrl) tm = []).
  { induction tm as [|r tm IH]; [reflexivity|]. cbn [find] in Hfind. cbn [filter].
    destruct (Store.is_cntp_task keyId proxyUrl r); [discriminate Hfind|exact (IH Hfind)]. }
  rewrite Hnone, app_nil_r. cbn. split; [reflexivity|lia].
Qed.

Abbreviation frame := (handler_frame (E := E) keyId the_key proxyUrl).

Lemma handler_frame_refl (w : World E) : frame w w.
Proof.
  unfold handler_frame. repeat split; try reflexivity; try apply rows_kept_refl.
  exists []. rewrite app_nil_r. split; [reflexivity|constructor].
Qed.

Lemma handler_frame_trans (w1 w2 w3 : World E) : frame w1 w2 -> frame w2 w3 -> frame w1 w3.
Proof.
  unfold handler_frame.
  intros (A1 & A2 & A3 & A4 & A5 & m1 & A6 & A7) (B1 & B2 & B3 & B4 & B5 & m2 & B6 & B7).
  split; [congruence|]. split; [congruence|]. split; [congruence|]. split; [congruence|].
  split; [eapply rows_kept_trans; eassumption|].
  exists (m1 ++ m2). split; [rewrite B6, A6, app_assoc; reflexivity|].
  apply Forall_app. split; assumption.
Qed.

(** A state change that leaves the tables and the failure file alone. *)
Lemma handler_frame_same (w w' : World E) :
  now w' = now w -> keys w' = keys w -> keys_proxies w' = keys_proxies w ->
  filtered_proxies w' = filtered_proxies w ->
  task_monitoring w' = task_monitoring w -> fail_tasks w' = fail_tasks w ->
  frame w w'.
Proof.
  intros H1 H2 H3 H4 H5 H6. unfold handler_frame, failures. rewrite H5, H6.
  repeat split; try assumption; try apply rows_kept_refl.
  exists []. rewrite app_nil_r. split; [reflexivity|constructor].
Qed.

Ltac frame_prim := apply handler_frame_same; fields; reflexivity.

Lemma quiet_handler_frame (w w' : World E) : quiet w w' -> frame w w'.
Proof.
  unfold quiet. intros H. decompose [and] H. apply handler_frame_same; assumption.
Qed.

Lemma getDB_frame : respects frame (getDB store_fault).
Proof.
  unfold getDB.
  respects_with (@handler_frame_refl) (@handler_frame_trans) ltac:(frame_prim).
Qed.

Lemma getCNTPTaskState_frame : respects frame (getCNTPTaskState store_fault keyId proxyUrl).
Proof.
  unfold getCNTPTaskState, getDB, Store.get_cntp_task.
  respects_with (@handler_frame_refl) (@handler_frame_trans) ltac:(frame_prim).
Qed.

Lemma updateCNTPTaskState_frame (newState : string) (pt : value) :
  respects frame (updateCNTPTaskState store_fault keyId proxyUrl newState pt).
Proof.
  unfold updateCNTPTaskState, getDB, Store.update_cntp_task.
  respects_with (@handler_frame_refl) (@handler_frame_trans)
    ltac:(first [frame_prim
                |unfold handler_frame, failures; fields;
                 do 4 (split; [reflexivity|]);
                 split; [apply rows_kept_update|];
                 exists []; rewrite app_nil_r; split; [reflexivity|constructor]]).
Qed.

Lemma logFailedTask_frame : respects frame (logFailedTask the_key proxyUrl).
Proof.
  unfold logFailedTask. apply respects_modify. intros w.
  unfold handler_frame, failures. fields.
  do 4 (split; [reflexivity|]). split; [apply rows_kept_refl|].
  exists [mkFailed the_key proxyUrl "cntp" (now w)].
  split; [reflexivity|]. constructor; [|constructor]. repeat split.
Qed.

(** Making sure of the row adds a row only when the pair has none. *)
Lemma initializeCNTPTask_frame :
  respects frame (initializeCNTPTask store_fault keyId proxyUrl).
Proof.
  intros w. unfold initializeCNTPTask. do 2 step.
  eapply ends_weaken; [apply getDB_frame|].
  intros [[]|msg] w1 H1; cbv beta in H1 |- *.
  2:{ step. eapply handler_frame_trans; [exact H1|frame_prim]. }
  unfold Store.get_cntp_task. do 3 step.
  destruct (store_fault (store_ops w1)).
  { step. eapply handler_frame_trans; [exact H1|frame_prim]. }
  step. fields.
  destruct (find (Store.is_cntp_task keyId proxyUrl) (task_monitoring w1)) eqn:Hfind.
  { step. eapply handler_frame_trans; [exact H1|frame_prim]. }
  unfold Store.insert_pending_task. do 3 step. fields.
  destruct (store_fault (S (store_ops w1))).
  { step. eapply handler_frame_trans; [exact H1|frame_prim]. }
  repeat step. eapply handler_frame_trans; [exact H1|].
  unfold handler_frame, failures. fields.
  do 4 (split; [reflexivity|]). split; [apply rows_kept_insert, Hfind|].
  exists []. rewrite app_nil_r. split; [reflexivity|constructor].
Qed.

(** The frame of the handler, as a rule for [respects]. *)
Lemma handler_frame_respected (fuel : nat) :
  MAX_LOGIN_RETRIES cfg < fuel ->
  respects frame
    (handleKeyProxyTask cwd tokenPlugin build_session tabReset rmSync
       store_fault cfg fuel (mkPair keyId the_key proxyUrl)).
Proof.
  intros Hfuel.
  assert (Hloop : forall d,
            respects frame (login_loop tokenPlugin cfg fuel d the_key proxyUrl)).
  { intros d w0. unfold login_loop.
    eapply ends_weaken;
      [apply (login_loop_ends tokenPlugin cfg d the_key proxyUrl
                (MAX_LOGIN_RETRIES cfg)); lia|].
    intros r w1 (_ & Hq & _). apply quiet_handler_frame, Hq. }
  unfold handleKeyProxyTask, attempt, fatal, handleCleanup, initializeDriver.
  cbn [pair_id pair_key pair_proxy]. cbv zeta.
  respects_with (@handler_frame_refl) (@handler_frame_trans) ltac:(frame_prim).
  all: first [apply initializeCNTPTask_frame | apply getCNTPTaskState_frame
             | apply updateCNTPTaskState_frame | apply logFailedTask_frame
             | apply Hloop].
Qed.

(** The rows of another pair read as before. *)
Lemma stored_state_other (k' : Z) (p' : string) (tm tm' : list TaskRow) :
  rows_kept keyId proxyUrl tm tm' ->
  (k', p') <> (keyId, proxyUrl) ->
  stored_state k' p' tm' = stored_state k' p' tm.
Proof.
  intros [Hother _] Hne. unfold stored_state. f_equal.
  assert (Hfind : forall t,
            find (Store.is_cntp_task k' p') (other_rows keyId proxyUrl t)
            = find (Store.is_cntp_task k' p') t).
  { induction t as [|r t IH]; [reflexivity|]. unfold other_rows in *. cbn [filter find].
    destruct (Store.is_cntp_task keyId proxyUrl r) eqn:Hr; cbn [negb].
    - rewrite IH.
      destruct (Store.is_cntp_task k' p' r) eqn:Hr'; [|reflexivity].
      exfalso. apply Hne. unfold Store.is_cntp_task in Hr, Hr'.
      apply andb_true_iff in Hr. destruct Hr as [Hr _].
      apply andb_true_iff in Hr. destruct Hr as [Hk Hp].
      apply andb_true_iff in Hr'. destruct Hr' as [Hr' _].
      apply andb_true_iff in Hr'. destruct Hr' as [Hk' Hp'].
      apply Z.eqb_eq in Hk, Hk'. apply String.eqb_eq in Hp, Hp'. congruence.
    - cbn [find]. rewrite IH. reflexivity. }
  rewrite <- (Hfind tm'), <- (Hfind tm), Hother. reflexivity.
Qed.

(** X16. Whatever the store, the plugin and the browser do, a run of the
    handler for a pair leaves the clock, [keys], [keys_proxies] and
    [filtered_proxies] as they were and every row of [task_monitoring] that
    belongs to another pair as it was; it removes no row of its pair and adds
    one only when the pair has none; and the failure file keeps its records,
    with at most new records about this pair after them. *)
Theorem handler_keeps_to_its_pair (fuel : nat) (w : World E) :
  MAX_LOGIN_RETRIES cfg < fuel ->
  ends (handleKeyProxyTask cwd tokenPlugin build_session tabReset rmSync
          store_fault cfg fuel (mkPair keyId the_key proxyUrl)) w
    (fun _ w' => handler_frame keyId the_key proxyUrl w w').
Proof.
  intros Hfuel.
  assert (Hloop : forall d,
            respects frame (login_loop tokenPlugin cfg fuel d the_key proxyUrl)).
  { intros d w0. unfold login_loop.
    eapply ends_weaken;
      [apply (login_loop_ends tokenPlugin cfg d the_key proxyUrl
                (MAX_LOGIN_RETRIES cfg)); lia|].
    intros r w1 (_ & Hq & _). apply quiet_handler_frame, Hq. }
  revert w.
  change (respects frame
            (handleKeyProxyTask cwd tokenPlugin build_session tabReset rmSync
               store_fault cfg fuel (mkPair keyId the_key proxyUrl))).
  unfold handleKeyProxyTask, attempt, fatal, handleCleanup, initializeDriver.
  cbn [pair_id pair_key pair_proxy]. cbv zeta.
  respects_with (@handler_frame_refl) (@handler_frame_trans) ltac:(frame_prim).
  all: first [apply initializeCNTPTask_frame | apply getCNTPTaskState_frame
             | apply updateCNTPTaskState_frame | apply logFailedTask_frame
             | apply Hloop].
Qed.

End HandlerFrame.

(** ** How a run of the handler can end *)
Section HandlerOutcomes.
Context {E driver : Type}.
Variable cwd : string.
Variable tokenPlugin : Plugin.Plugin E driver.
Variable build_session : string -> string -> E -> outcome driver * E.
Variable tabReset : option driver -> E -> outcome unit * E.
Variable rmSync : string -> E -> outcome unit * E.
Variable store_fault : nat -> option string.
Variable cfg : Config.

Import Manager Plugin.

Lemma same_records_refl (w : World E) : same_records w w.
Proof. split; reflexivity. Qed.

Lemma same_records_trans (w1 w2 w3 : World E) :
  same_records w1 w2 -> same_records w2 w3 -> same_records w1 w3.
Proof. unfold same_records. intros [A B] [C D]. split; congruence. Qed.

Lemma fatal_same_records (the_key profilePath message : string) :
  respects (E := E) same_records (fatal rmSync cfg the_key profilePath message).
Proof.
  unfold fatal, handleCleanup.
  respects_with (@same_records_refl) (@same_records_trans)
    ltac:(unfold same_records; fields; split; reflexivity).
Qed.

(** The [try] block when the store answers: it ends normally with the rows
    of the pair marked 'success' (with what [check] answered) or 'failed'
    (and a record added to the failure file), or it ends with the error that
    [check] threw, having written nothing. *)
Lemma attempt_outcomes (fuel : nat) (d : driver) (keyId : Z) (the_key proxyUrl : string)
  (w : World E) :
  healthy store_fault ->
  MAX_LOGIN_RETRIES cfg < fuel ->
  ends (attempt tokenPlugin store_fault cfg fuel d keyId the_key proxyUrl) w
    (fun r w' =>
       match r with
       | Ok _ =>
           (exists v e,
              fst (check tokenPlugin d "cntp" the_key proxyUrl e) = Ok v /\
              strict_eq_false v = false /\
              task_monitoring w'
              = map (Store.update_row keyId proxyUrl "success" v (now w))
                    (task_monitoring w) /\
              fail_tasks w' = fail_tasks w) \/
           (task_monitoring w'
            = map (Store.update_row keyId proxyUrl "failed" (VNum 0) (now w))
                  (task_monitoring w) /\
            fail_tasks w'
            = Some (failures w ++ [mkFailed the_key proxyUrl "cntp" (now w)]))
       | Throw message =>
           same_records w w' /\
           exists e, fst (check tokenPlugin d "cntp" the_key proxyUrl e) = Throw message
       end).
Proof.
  intros Hh Hfuel. unfold attempt, login_loop. step.
  eapply ends_weaken;
    [apply (login_loop_ends tokenPlugin cfg d the_key proxyUrl
              (MAX_LOGIN_RETRIES cfg)); lia|].
  intros r w1 (_ & Hq & [v a] & ->). cbv beta iota.
  assert (Hnow : now w1 = now w) by frame.
  assert (Htm : task_monitoring w1 = task_monitoring w) by frame.
  assert (Hft : fail_tasks w1 = fail_tasks w) by frame.
  assert (Hfailed : forall w2 : World E,
            now w2 = now w -> task_monitoring w2 = task_monitoring w ->
            fail_tasks w2 = fail_tasks w ->
            ends (updateCNTPTaskState store_fault keyId proxyUrl "failed" (VNum 0) ;;;
                  logFailedTask the_key proxyUrl) w2
              (fun r w' =>
                 match r with
                 | Ok _ =>
                     (exists v e,
                        fst (check tokenPlugin d "cntp" the_key proxyUrl e) = Ok v /\
                        strict_eq_false v = false /\
                        task_monitoring w'
                        = map (Store.update_row keyId proxyUrl "success" v (now w))
                              (task_monitoring w) /\
                        fail_tasks w' = fail_tasks w) \/
                     (task_monitoring w'
                      = map (Store.update_row keyId proxyUrl "failed" (VNum 0) (now w))
                            (task_monitoring w) /\
                      fail_tasks w'
                      = Some (failures w ++ [mkFailed the_key proxyUrl "cntp" (now w)]))
                 | Throw message =>
                     same_records w w' /\
                     exists e, fst (check tokenPlugin d "cntp" the_key proxyUrl e)
                               = Throw message
                 end)).
  { intros w2 Hn2 Ht2 Hf2. step.
    eapply ends_weaken; [apply updateCNTPTaskState_healthy, Hh|].
    intros r w3 (-> & _ & Ht3 & Hs3).
    unfold logFailedTask. step. right. fields.
    assert (Hn3 : now w3 = now w2) by frame.
    assert (Hf3 : fail_tasks w3 = fail_tasks w2) by frame.
    split; [congruence|]. unfold failures. rewrite Hf3, Hf2, Hn3, Hn2. reflexivity. }
  destruct (truthy v); cbn [negb].
  - do 2 step.
    destruct (fst (check tokenPlugin d "cntp" the_key proxyUrl (env w1))) as [cr|msg] eqn:Hcr.
    + destruct (strict_eq_false cr) eqn:Hfalse.
      * step. step. apply Hfailed; fields; assumption.
      * step. step.
        eapply ends_weaken; [apply updateCNTPTaskState_healthy, Hh|].
        intros r w3 (-> & _ & Ht3 & Hs3). fields_in Ht3.
        left. exists cr, (env w1). split; [exact Hcr|]. split; [exact Hfalse|].
        split; [congruence|]. assert (fail_tasks w3 = fail_tasks w1) by frame. congruence.
    + split; [split; fields; assumption|]. exists (env w1). exact Hcr.
  - step. step. apply Hfailed; fields; assumption.
Qed.

(** The handler for a pair that is not terminal, when the store answers,
    with the call whose answer decided the end. *)
Lemma handler_outcomes_traced (fuel : nat) (kp : KeyProxy) (w : World E) :
  healthy store_fault ->
  MAX_LOGIN_RETRIES cfg < fuel ->
  is_terminal (stored_state (pair_id kp) (pair_proxy kp) (task_monitoring w)) = false ->
  ends (handleKeyProxyTask cwd tokenPlugin build_session tabReset rmSync
          store_fault cfg fuel kp) w
    (fun r w' =>
       let tm0 := ensured (pair_id kp) (pair_proxy kp) (now w) (task_monitoring w) in
       (exists d v e,
          fst (check tokenPlugin d "cntp" (pair_key kp) (pair_proxy kp) e) = Ok v /\
          strict_eq_false v = false /\
          task_monitoring w'
          = map (Store.update_row (pair_id kp) (pair_proxy kp) "success" v (now w)) tm0 /\
          fail_tasks w' = fail_tasks w) \/
       (task_monitoring w'
        = map (Store.update_row (pair_id kp) (pair_proxy kp) "failed" (VNum 0) (now w))
              tm0 /\
        fail_tasks w'
        = Some (failures w ++ [mkFailed (pair_key kp) (pair_proxy kp) "cntp" (now w)])) \/
       (task_monitoring w' = tm0 /\ fail_tasks w' = fail_tasks w /\
        ((exists message,
            fst (build_session (getProfilePath cwd (pair_key kp) (pair_proxy kp))
                               (pair_proxy kp) (env w)) = Throw message) \/
         (exists d e message,
            fst (check tokenPlugin d "cntp" (pair_key kp) (pair_proxy kp) e)
            = Throw message)))).
Proof.
  intros Hh Hfuel Hnt. apply handle_nonterminal; [exact Hh|exact Hnt|].
  intros w2 Htm2 Hs2. cbv zeta.
  set (profilePath := getProfilePath cwd (pair_key kp) (pair_proxy kp)).
  set (w3 := set_env _ (record_call _ w2)).
  assert (Hnow3 : now w3 = now w) by (subst w3; frame).
  assert (Htm3 : task_monitoring w3 = task_monitoring w2) by (subst w3; fields; reflexivity).
  assert (Hft3 : fail_tasks w3 = fail_tasks w) by (subst w3; frame).
  destruct (fst (build_session profilePath (pair_proxy kp) (env w))) as [d|message] eqn:Hs.
  - do 2 step. eapply ends_weaken; [apply attempt_outcomes; assumption|].
    intros [[]|msg] w4 H4; cbv beta iota.
    + step. rewrite Hnow3, Htm3, Htm2 in H4. unfold failures in H4 |- *.
      rewrite Hft3 in H4. fields.
      destruct H4 as [(v & e & Hv & Hf & Ht & Hfl)|[Ht Hfl]].
      * destruct (fst (tabReset (Some d) (env w4)));
          left; exists d, v, e; repeat split; assumption.
      * destruct (fst (tabReset (Some d) (env w4))); right; left; split; assumption.
    + destruct H4 as ([Ht4 Hf4] & e & He).
      eapply ends_weaken; [apply fatal_same_records|].
      intros r w5 [Ht5 Hf5]. step. fields.
      assert (Hend : task_monitoring w5
                     = ensured (pair_id kp) (pair_proxy kp) (now w) (task_monitoring w) /\
                     fail_tasks w5 = fail_tasks w) by (split; congruence).
      destruct Hend as [Ht Hf].
      destruct r; destruct (fst (tabReset (Some d) (env w5)));
        right; right; (split; [exact Ht|]); (split; [exact Hf|]);
        right; exists d, e, msg; exact He.
  - eapply ends_weaken; [apply fatal_then_reset|].
    intros r w5 (Ht5 & Hf5 & _). right. right.
    split; [congruence|]. split; [congruence|]. left. exists message. reflexivity.
Qed.

Lemma stored_state_of_rows (keyId : Z) (proxyUrl s : string) (pt : value)
  (tm : list TaskRow) :
  rows_of keyId proxyUrl tm <> [] ->
  Forall (fun r => state r = s /\ point r = pt) (rows_of keyId proxyUrl tm) ->
  stored_state keyId proxyUrl tm = Some s.
Proof.
  unfold stored_state, rows_of. intros Hne Hall.
  destruct (find (Store.is_cntp_task keyId proxyUrl) tm) as [r|] eqn:Hfind.
  - apply find_some in Hfind. destruct Hfind as [Hin Hr].
    rewrite Forall_forall in Hall.
    destruct (Hall r) as [Hs _]; [apply filter_In; split; assumption|].
    cbn. rewrite Hs. reflexivity.
  - exfalso. apply Hne. clear Hne Hall.
    induction tm as [|x tm IH]; [reflexivity|]. cbn [find] in Hfind. cbn [filter].
    destruct (Store.is_cntp_task keyId proxyUrl x); [discriminate Hfind|exact (IH Hfind)].
Qed.


End HandlerOutcomes.

(** ** The plugin of the repository *)
Section TokenPluginInGeneral.
Context {E driver element : Type}.
Variable cwd : string.
Variable browser : Plugin.Browser E driver element.
Variable build_session : string -> string -> E -> outcome driver * E.
Variable tabReset : option driver -> E -> outcome unit * E.
Variable rmSync : string -> E -> outcome unit * E.
Variable store_fault : nat -> option string.
Variable cfg : Config.

Import Manager Plugin.

Lemma catchB_returns {A} (body : B E A) (a : A) (e : E) :
  exists x, fst (catchB body (fun _ => retB a) e) = Ok x /\
            (x = a \/ fst (body e) = Ok x).
Proof.
  unfold catchB, retB. destruct (body e) as [[x|msg] e']; cbn.
  - exists x. auto.
  - exists a. auto.
Qed.

Lemma answers_retB {A} (a : A) (P : A -> Prop) : P a -> answers (E := E) (retB a) P.
Proof. intros H e x Hx. cbn in Hx. injection Hx as <-. exact H. Qed.

Lemma answers_bindB {A C} (m : B E A) (k : A -> B E C) (P : C -> Prop) :
  (forall a, answers (k a) P) -> answers (bindB m k) P.
Proof.
  intros Hk e x. unfold bindB. destruct (m e) as [[a|msg] e']; [apply Hk|].
  cbn. discriminate.
Qed.

Lemma cntp_login_boolean (d : driver) (the_key proxyUrl : string) (e : E) :
  exists b, fst (cntp_login browser d the_key proxyUrl e) = Ok (VBool b).
Proof.
  unfold cntp_login.
  match goal with
  | |- context [catchB ?body _ e] =>
      assert (Hbody : answers body (fun x => x = VBool true))
  end.
  { apply answers_bindB. intros _. apply answers_bindB. intros [|].
    - apply answers_retB. reflexivity.
    - repeat (apply answers_bindB; intros ?). apply answers_retB. reflexivity. }
  match goal with
  | |- context [catchB ?body _ e] =>
      destruct (catchB_returns body (VBool false) e) as (x & Hx & [->|Hok])
  end.
  - exists false. exact Hx.
  - exists true. rewrite Hx. f_equal. exact (Hbody e x Hok).
Qed.

(** X18. [TokenPlugin.login] and [TokenPlugin.check] never throw, whatever
    the browser does: [login] answers a boolean, and [check] a number or
    [false].  For a service other than "cntp" both answer [false] without
    touching the browser. *)
Theorem token_plugin_answers (d : driver) (service the_key proxyUrl : string) (e : E) :
  (exists b, fst (token_login browser d service the_key proxyUrl e) = Ok (VBool b)) /\
  ((exists n, fst (token_check browser d service the_key proxyUrl e) = Ok (VNum n)) \/
   fst (token_check browser d service the_key proxyUrl e) = Ok (VBool false)) /\
  (if has_service service then True
   else token_login browser d service the_key proxyUrl e = (Ok (VBool false), e) /\
        token_check browser d service the_key proxyUrl e = (Ok (VBool false), e)).
Proof.
  split; [|split].
  - unfold token_login.
    destruct (has_service service); cbn [negb].
    + destruct (cntp_login_boolean d the_key proxyUrl e) as (b & Hb).
      exists b. unfold catchB.
      destruct (cntp_login browser d the_key proxyUrl e) as [[x|m] e']; cbn in Hb |- *;
        [exact Hb|discriminate Hb].
    + exists false. reflexivity.
  - apply token_check_number_or_false.
  - unfold token_login, token_check.
    destruct (has_service service); [exact I|]. split; reflexivity.
Qed.


End TokenPluginInGeneral.

(** ** The scheduler for any number of pairs *)
Section SchedulerInGeneral.
Context {E driver : Type}.
Variable cwd : string.
Variable tokenPlugin : Plugin.Plugin E driver.
Variable build_session : string -> string -> E -> outcome driver * E.
Variable tabReset : option driver -> E -> outcome unit * E.
Variable rmSync : string -> E -> outcome unit * E.
Variable setTimeout : Z -> E -> Z * E.
Variable store_fault : nat -> option string.
Variable cfg : Config.

Import Manager Plugin.

Lemma spaced_from (delay a b : Z) (times : list Z) :
  (b <= a)%Z -> spaced delay a times -> spaced delay b times.
Proof. destruct times as [|t ts]; [auto|]. cbn. intros Hba [Ht Hts]. split; [lia|exact Hts]. Qed.

Lemma launch_all_spaced (fuel : nat) (pairs : list KeyProxy) :
  MAX_LOGIN_RETRIES cfg < fuel ->
  (forall ms e, (ms <= fst (setTimeout ms e))%Z) ->
  forall w : World E,
  ends (mapM (launch cwd tokenPlugin build_session tabReset rmSync setTimeout
                store_fault cfg fuel) pairs) w
    (fun r w' =>
       exists promises times,
         r = Ok promises /\
         promise_all promises = Ok (map (fun _ => tt) pairs) /\
         length times = length pairs /\
         starts (calls w') = starts (calls w) ++ started pairs times /\
         hd (now w) times = now w /\
         spaced (STAGGER_DELAY cfg) (now w) times /\
         (now w + Z.of_nat (length pairs) * STAGGER_DELAY cfg <= now w')%Z).
Proof.
  intros Hfuel Htimer. induction pairs as [|kp pairs IH]; intros w; cbn [mapM].
  - step. exists [], []. cbn. rewrite app_nil_r.
    repeat split; try reflexivity. lia.
  - step. eapply ends_weaken; [apply launch_ends; assumption|].
    intros r w1 (-> & _ & _ & Hst1 & Ht1). step. eapply ends_weaken; [apply IH|].
    intros r w2 (ps & times & -> & Hall & Hlen & Hst2 & _ & Hsp & Hend).
    step. exists (Ok tt :: ps), (now w :: times).
    split; [reflexivity|]. split; [cbn; rewrite Hall; reflexivity|].
    split; [cbn; rewrite Hlen; reflexivity|].
    split; [rewrite Hst2, Hst1, <- app_assoc; reflexivity|].
    split; [reflexivity|].
    split; [cbn [spaced]; split; [lia|]; apply (spaced_from _ (now w1)); assumption|].
    cbn [length]. rewrite Nat2Z.inj_succ. lia.
Qed.

(** X20. However many pairs the store holds, when it answers and no timer
    fires early: [run] starts one unit per pair, in the order in which
    [loadKeyProxyData] lists them, the first at once and each later one no
    sooner than [STAGGER_DELAY] after the one before; it sleeps after the last
    start as well, so it does not return before as many delays as there are
    pairs have passed; and it returns normally after logging that all tasks
    completed, whatever the units did. *)
Theorem run_staggers_every_pair (fuel : nat) (w : World E) :
  healthy store_fault ->
  MAX_LOGIN_RETRIES cfg < fuel ->
  (forall ms e, (ms <= fst (setTimeout ms e))%Z) ->
  ends (run cwd tokenPlugin build_session tabReset rmSync setTimeout
          store_fault cfg fuel) w
    (fun r w' =>
       let pairs := join_keys (keys w) (keys_proxies w) in
       r = Ok tt /\
       (exists times,
          length times = length pairs /\
          starts (calls w') = starts (calls w) ++ started pairs times /\
          hd (now w) times = now w /\
          spaced (STAGGER_DELAY cfg) (now w) times) /\
       (now w + Z.of_nat (length pairs) * STAGGER_DELAY cfg <= now w')%Z /\
       (exists l, log w' = l ++ [(INFO, "[SYSTEM] All cntp automation tasks completed")])).
Proof.
  intros Hh Hfuel Htimer. unfold run. do 2 step.
  eapply ends_weaken; [apply loadKeyProxyData_healthy, Hh|].
  intros r w0 (-> & Hn0 & Hk0 & Hkp0 & Hst0). step.
  eapply ends_weaken; [apply launch_all_spaced; assumption|].
  intros r w1 (ps & times & -> & Hall & Hlen & Hst1 & Hhd & Hsp & Hend).
  repeat step. rewrite Hall. repeat step. cbv zeta. fields.
  split; [reflexivity|]. rewrite Hn0 in *. rewrite Hst0 in Hst1.
  split; [exists times; repeat split; assumption|].
  split; [exact Hend|]. eauto.
Qed.

(** X21. When the first statement that [run] sends to the store fails, the
    pairs cannot be loaded: [run] logs the failure, starts no unit, makes no
    call and writes nothing, and still returns normally after logging that
    all tasks completed. *)
Theorem run_without_store (fuel : nat) (message : string) (w : World E) :
  store_fault (store_ops w) = Some message ->
  ends (run cwd tokenPlugin build_session tabReset rmSync setTimeout
          store_fault cfg fuel) w
    (fun r w' =>
       r = Ok tt /\
       calls w' = calls w /\
       now w' = now w /\
       task_monitoring w' = task_monitoring w /\
       fail_tasks w' = fail_tasks w /\
       log w' = log w
                ++ [(ERROR, ("Failed to load keys+proxies from DB: " ++ message)%string);
                    (INFO, "[SYSTEM] All cntp automation tasks completed")]).
Proof.
  intros Hfault. unfold run, loadKeyProxyData, getDB. do 6 step.
  destruct (db_open w).
  - repeat step. rewrite Hfault. repeat step. cbn [mapM]. repeat step.
    cbn [promise_all]. repeat step. fields. rewrite <- app_assoc.
    repeat split; reflexivity.
  - repeat step. rewrite Hfault. repeat step. cbn [mapM]. repeat step.
    cbn [promise_all]. repeat step. fields. rewrite <- app_assoc.
    repeat split; reflexivity.
Qed.

End SchedulerInGeneral.

(** ** The handler while the store is down *)
Section HandlerWithoutStore.
Context {E driver : Type}.
Variable cwd : string.
Variable tokenPlugin : Plugin.Plugin E driver.
Variable build_session : string -> string -> E -> outcome driver * E.
Variable tabReset : option driver -> E -> outcome unit * E.
Variable rmSync : string -> E -> outcome unit * E.
Variable store_fault : nat -> option string.
Variable cfg : Config.

Import Manager Plugin.

Lemma unrecorded_refl (w : World E) : unrecorded w w.
Proof. split; [reflexivity|]. exists []. symmetry. apply app_nil_r. Qed.

Lemma unrecorded_trans (w1 w2 w3 : World E) :
  unrecorded w1 w2 -> unrecorded w2 w3 -> unrecorded w1 w3.
Proof.
  intros [A (c1 & B)] [C (c2 & D)]. split; [congruence|].
  exists (c1 ++ c2). rewrite D, B, app_assoc. reflexivity.
Qed.

Ltac unrecorded_prim :=
  unfold unrecorded; fields; split; [reflexivity|];
  first [exists []; symmetry; apply app_nil_r | eexists; reflexivity].

(** While the store is down, a store procedure of the manager (which starts
    with [getDB] and then sends a statement) ends in its [catch] block, having
    changed nothing but the statement counter and the log. *)
Lemma procedure_down {A B} (f : World E -> B) (k : B -> M E A)
  (handler : string -> M E A) (P : outcome A -> Prop) (w : World E) :
  store_down store_fault ->
  (forall message (w1 : World E),
     ends (handler message) w1 (fun r w' =>
       P r /\ unrecorded w1 w' /\ calls w' = calls w1)) ->
  ends (try_catch (getDB store_fault ;;;
                   x <- (Store.statement store_fault ;;; gets f) ;; k x) handler) w
    (fun r w' => P r /\ unrecorded w w' /\ calls w' = calls w).
Proof.
  intros Hdown Hhandler. step. step. unfold getDB. do 2 step.
  assert (Hcatch : forall message (w1 : World E),
            unrecorded w w1 -> calls w1 = calls w ->
            ends (handler message) w1
              (fun r w' => P r /\ unrecorded w w' /\ calls w' = calls w)).
  { intros message w1 Hu Hc. eapply ends_weaken; [apply Hhandler|].
    intros r w2 (HP & Hu2 & Hc2). split; [exact HP|].
    split; [eapply unrecorded_trans; eassumption|congruence]. }
  destruct (db_open w) eqn:Hopen.
  - do 4 step.
    destruct (store_fault (store_ops w)) as [msg|] eqn:Hf; [|destruct (Hdown _ Hf)].
    apply Hcatch; [unrecorded_prim|fields; reflexivity].
  - do 2 step.
    destruct (store_fault (store_ops w)) as [msg|] eqn:Hf; [|destruct (Hdown _ Hf)].
    apply Hcatch; [unrecorded_prim|fields; reflexivity].
Qed.

Lemma logger_unrecorded {A} (l : Level) (text : string) (a : A) (P : outcome A -> Prop)
  (w1 : World E) :
  P (Ok a) ->
  ends (logger l text ;;; ret a) w1 (fun r w' =>
    P r /\ unrecorded w1 w' /\ calls w' = calls w1).
Proof.
  intros HP. repeat step. split; [exact HP|]. split; [unrecorded_prim|fields; reflexivity].
Qed.

Lemma initializeCNTPTask_down (keyId : Z) (proxyUrl : string) (w : World E) :
  store_down store_fault ->
  ends (initializeCNTPTask store_fault keyId proxyUrl) w (fun r w' =>
    r = Ok tt /\ unrecorded w w' /\ calls w' = calls w).
Proof.
  intros Hdown. unfold initializeCNTPTask, Store.get_cntp_task.
  apply (procedure_down _ _ _ (fun r => r = Ok tt)); [exact Hdown|].
  intros message w1. step. split; [reflexivity|].
  split; [unrecorded_prim|fields; reflexivity].
Qed.

Lemma getCNTPTaskState_down (keyId : Z) (proxyUrl : string) (w : World E) :
  store_down store_fault ->
  ends (getCNTPTaskState store_fault keyId proxyUrl) w (fun r w' =>
    r = Ok None /\ unrecorded w w' /\ calls w' = calls w).
Proof.
  intros Hdown. unfold getCNTPTaskState, Store.get_cntp_task.
  apply (procedure_down _ _ _ (fun r => r = Ok None)); [exact Hdown|].
  intros message w1. apply (logger_unrecorded _ _ _ (fun r => r = Ok None)). reflexivity.
Qed.

Lemma updateCNTPTaskState_down (keyId : Z) (proxyUrl newState : string) (pt : value) :
  store_down store_fault ->
  respects (E := E) unrecorded (updateCNTPTaskState store_fault keyId proxyUrl newState pt).
Proof.
  intros Hdown w. unfold updateCNTPTaskState, getDB, Store.update_cntp_task.
  do 4 step.
  destruct (db_open w).
  - do 4 step.
    destruct (store_fault (store_ops w)) as [msg|] eqn:Hf; [|destruct (Hdown _ Hf)].
    step. unrecorded_prim.
  - do 2 step.
    destruct (store_fault (store_ops w)) as [msg|] eqn:Hf; [|destruct (Hdown _ Hf)].
    step. unrecorded_prim.
Qed.

(** X22. While the store is down (every statement fails), no pair is ever
    skipped: the state cannot be read, so the handler opens a session for the
    pair whatever state its row holds, also for a pair already marked
    'success' or 'failed'; and whatever the run finds, [task_monitoring] is
    left as it was. *)
Theorem handler_without_store (fuel : nat) (kp : KeyProxy) (w : World E) :
  store_down store_fault ->
  MAX_LOGIN_RETRIES cfg < fuel ->
  ends (handleKeyProxyTask cwd tokenPlugin build_session tabReset rmSync
          store_fault cfg fuel kp) w
    (fun r w' =>
       task_monitoring w' = task_monitoring w /\
       exists cs,
         calls w' = calls w
                    ++ CreateSession (getProfilePath cwd (pair_key kp) (pair_proxy kp))
                                     (pair_proxy kp) :: cs).
Proof.
  intros Hdown Hfuel. unfold handleKeyProxyTask. cbv zeta.
  set (profilePath := getProfilePath cwd (pair_key kp) (pair_proxy kp)).
  step. eapply ends_weaken; [apply initializeCNTPTask_down, Hdown|].
  intros r w1 (-> & [Ht1 _] & Hc1).
  step. eapply ends_weaken; [apply getCNTPTaskState_down, Hdown|].
  intros r w2 (-> & [Ht2 _] & Hc2). cbn [is_terminal].
  unfold initializeDriver. do 3 step.
  set (w3 := set_env _ (record_call _ w2)).
  assert (Ht3 : task_monitoring w3 = task_monitoring w)
    by (subst w3; fields; congruence).
  assert (Hc3 : calls w3 = calls w ++ [CreateSession profilePath (pair_proxy kp)])
    by (subst w3; fields; congruence).
  assert (Hloop : forall d,
            respects unrecorded
              (login_loop tokenPlugin cfg fuel d (pair_key kp) (pair_proxy kp))).
  { intros d w0. unfold login_loop.
    eapply ends_weaken;
      [apply ends_and;
       [apply (login_loop_ends tokenPlugin cfg d (pair_key kp) (pair_proxy kp)
                 (MAX_LOGIN_RETRIES cfg)); lia
       |apply (login_loop_calls tokenPlugin cfg d (pair_key kp) (pair_proxy kp)
                 (MAX_LOGIN_RETRIES cfg)); lia]|].
    intros r w5 [(_ & Hq & _) (k & _ & _ & _ & _ & _ & Hc)].
    split; [frame|]. eexists. exact Hc. }
  match goal with
  | |- ends ?rest w3 _ => assert (Hrest : respects unrecorded rest)
  end.
  { unfold attempt, fatal, handleCleanup, logFailedTask.
    respects_with (@unrecorded_refl) (@unrecorded_trans) ltac:(unrecorded_prim).
    all: first [apply updateCNTPTaskState_down, Hdown | apply Hloop]. }
  eapply ends_weaken; [apply Hrest|].
  intros r w4 [Ht4 (cs & Hc4)]. split; [congruence|].
  exists cs. rewrite Hc4, Hc3, <- app_assoc. reflexivity.
Qed.

End HandlerWithoutStore.

(** ** The fan-out of the validator, whatever the workers do *)
Section FanOut.
Context {E : Type}.
Variable request : string -> string -> E -> Validator.Response * E.
Variable worker_error : list string -> E -> option string * E.
Variable readFileSync : string -> E -> outcome string * E.
Variable store_fault : nat -> option string.

Import Validator.

Lemma spawned_workers (chunks : list (list string)) :
  spawned (map SpawnWorker chunks) = chunks.
Proof. induction chunks as [|c cs IH]; [reflexivity|]. cbn. rewrite IH. reflexivity. Qed.

Lemma save_no_call (combinedResults : list ProbeResult) :
  respects (E := E) same_calls (processProxies_save store_fault combinedResults).
Proof.
  unfold processProxies_save, Store.delete_filtered_proxies,
    Store.insert_or_replace_filtered_proxy.
  respects_with (@same_calls_refl E) (@same_calls_trans E)
    ltac:(unfold same_calls; fields; reflexivity).
Qed.

(** X25. When the input file is read, [processProxies] starts one worker per
    chunk, in order, whatever the workers and the store do afterwards: the
    chunks put end to end are the cleaned lines of the file, none is empty
    and none holds more than [PROXY_CHUNK_SIZE] proxies, and there are no
    more of them than it takes to cover the list.  A worker that fails does
    not keep the later workers from being started. *)
Theorem one_worker_per_chunk (inputFile content : string) (w : World E) :
  fst (readFileSync inputFile (env w)) = Ok content ->
  ends (processProxies request worker_error readFileSync store_fault inputFile) w
    (fun r w' =>
       exists chunks,
         spawned (calls w') = spawned (calls w) ++ chunks /\
         concat chunks = clean_lines content /\
         Forall (fun c => 0 < length c <= PROXY_CHUNK_SIZE) chunks /\
         length (clean_lines content) <= length chunks * PROXY_CHUNK_SIZE
         < length (clean_lines content) + PROXY_CHUNK_SIZE).
Proof.
  intros Hread. unfold processProxies. repeat step.
  cbn [add_log env]. rewrite Hread. repeat step.
  unfold processProxies_collect.
  destruct (chunkArray_cuts_in_order_lemma (clean_lines content) PROXY_CHUNK_SIZE
              (S (length (clean_lines content))))
    as (chunks & -> & Hcat & Hcount & Hall); [unfold PROXY_CHUNK_SIZE; lia|lia|].
  repeat step. eapply ends_weaken; [apply dispatch_ends|].
  intros r w1 (promises & -> & Hc & Hq & _). rewrite map_snd_indexed in Hc.
  assert (Hsp : spawned (calls w1) = spawned (calls w) ++ chunks).
  { rewrite Hc, spawned_app, spawned_workers. fields. reflexivity. }
  assert (Hdone : forall w2 : World E, calls w2 = calls w1 ->
            exists chunks0,
              spawned (calls w2) = spawned (calls w) ++ chunks0 /\
              concat chunks0 = clean_lines content /\
              Forall (fun c => 0 < length c <= PROXY_CHUNK_SIZE) chunks0 /\
              length (clean_lines content) <= length chunks0 * PROXY_CHUNK_SIZE
              < length (clean_lines content) + PROXY_CHUNK_SIZE).
  { intros w2 H2. exists chunks. rewrite H2. repeat split; try assumption; apply Hcount. }
  do 2 step. destruct (promise_all promises) as [allResults|message].
  - repeat step. eapply ends_weaken; [apply save_no_call|].
    intros [[]|msg] w2 H2; cbv beta in H2 |- *; unfold same_calls in H2; fields_in H2.
    + apply Hdone. exact H2.
    + step. apply Hdone. fields. exact H2.
  - repeat step. apply Hdone. fields. reflexivity.
Qed.

End FanOut.

(** ** Runs over settled pairs, and runs that settle every pair *)
Section RunSettled.
Context {E driver : Type}.
Variable cwd : string.
Variable tokenPlugin : Plugin.Plugin E driver.
Variable build_session : string -> string -> E -> outcome driver * E.
Variable tabReset : option driver -> E -> outcome unit * E.
Variable rmSync : string -> E -> outcome unit * E.
Variable setTimeout : Z -> E -> Z * E.
Variable store_fault : nat -> option string.
Variable cfg : Config.

Import Manager Plugin.

Lemma ensured_settled (keyId : Z) (proxyUrl : string) (t : Z) (tm : list TaskRow) :
  is_terminal (stored_state keyId proxyUrl tm) = true ->
  ensured keyId proxyUrl t tm = tm.
Proof.
  unfold ensured, stored_state.
  destruct (find (Store.is_cntp_task keyId proxyUrl) tm); [reflexivity|].
  cbn. discriminate.
Qed.

(** A settled pair is skipped, whatever its row says beyond the state. *)
Lemma handle_terminal (fuel : nat) (kp : KeyProxy) (w : World E) :
  healthy store_fault ->
  settled kp (task_monitoring w) ->
  ends (handleKeyProxyTask cwd tokenPlugin build_session tabReset rmSync
          store_fault cfg fuel kp) w
    (fun r w' => r = Ok tt /\ task_monitoring w' = task_monitoring w /\ steady w w').
Proof.
  intros H Hterm. unfold settled in Hterm. unfold handleKeyProxyTask. cbv zeta.
  repeat step. eapply ends_weaken; [apply initializeCNTPTask_healthy, H|].
  intros r w1 (-> & Hopen & Htm & Hs). step.
  eapply ends_weaken; [apply getCNTPTaskState_healthy, H|].
  intros r w2 (-> & Hopen2 & Htm2 & Hs2).
  rewrite Htm, is_terminal_ensured, Hterm. repeat step.
  rewrite ensured_settled in Htm by exact Hterm.
  split; [reflexivity|]. split; [fields; congruence|]. frame.
Qed.

Lemma launch_settled (fuel : nat) (kp : KeyProxy) (w0 : World E) :
  healthy store_fault ->
  settled kp (task_monitoring w0) ->
  ends (launch cwd tokenPlugin build_session tabReset rmSync setTimeout
          store_fault cfg fuel kp) w0
    (fun r w' =>
       r = Ok (Ok tt) /\
       task_monitoring w' = task_monitoring w0 /\
       fail_tasks w' = fail_tasks w0 /\
       calls w' = calls w0 ++ [StartUnit (pair_key kp) (pair_proxy kp) (now w0)]).
Proof.
  intros H Hs. unfold launch. repeat step.
  eapply ends_weaken; [apply handle_terminal; [exact H|fields; exact Hs]|].
  intros r w1 (-> & Htm & Hst). cbv beta iota. unfold sleep. repeat step.
  fields_in Htm. unfold steady in Hst. fields_in Hst.
  destruct Hst as (_ & _ & _ & _ & Hf & Hc & _). fields.
  split; [reflexivity|]. split; [exact Htm|]. split; [exact Hf|exact Hc].
Qed.

Lemma launch_all_settled (fuel : nat) (pairs : list KeyProxy) :
  healthy store_fault ->
  forall w0 : World E,
  (forall kp, In kp pairs -> settled kp (task_monitoring w0)) ->
  ends (mapM (launch cwd tokenPlugin build_session tabReset rmSync setTimeout
                store_fault cfg fuel) pairs) w0
    (fun r w' =>
       exists promises cs,
         r = Ok promises /\
         promise_all promises = Ok (map (fun _ => tt) pairs) /\
         task_monitoring w' = task_monitoring w0 /\
         fail_tasks w' = fail_tasks w0 /\
         calls w' = calls w0 ++ cs /\ only_starts cs /\ length cs = length pairs).
Proof.
  intros H. induction pairs as [|kp pairs IH]; intros w0 Hall; cbn [mapM].
  - step. exists [], []. rewrite app_nil_r. repeat split. constructor.
  - step. eapply ends_weaken;
      [apply launch_settled; [exact H|apply Hall; left; reflexivity]|].
    intros r w1 (-> & Htm1 & Hf1 & Hc1). step.
    eapply ends_weaken; [apply IH|].
    { intros kp' Hin. rewrite Htm1. apply Hall. right. exact Hin. }
    intros r w2 (ps & cs & -> & Hps & Htm2 & Hf2 & Hc2 & Hcs & Hlen).
    step. exists (Ok tt :: ps), (StartUnit (pair_key kp) (pair_proxy kp) (now w0) :: cs).
    split; [reflexivity|]. split; [cbn; rewrite Hps; reflexivity|].
    split; [congruence|]. split; [congruence|].
    split; [rewrite Hc2, Hc1, <- app_assoc; reflexivity|].
    split; [constructor; [exact I|exact Hcs]|cbn; rewrite Hlen; reflexivity].
Qed.

Lemma loadKeyProxyData_frame (w : World E) :
  healthy store_fault ->
  ends (loadKeyProxyData store_fault) w (fun r w' =>
    r = Ok (join_keys (keys w) (keys_proxies w)) /\
    task_monitoring w' = task_monitoring w /\ fail_tasks w' = fail_tasks w /\
    calls w' = calls w).
Proof.
  intros H. unfold loadKeyProxyData. repeat step.
  eapply ends_weaken; [apply getDB_healthy, H|].
  intros r w1 (-> & Hopen & Htm & Hlog & Hs). repeat step. rewrite H. repeat step.
  fields. destruct Hs as (Hn & Hk & Hkp & _ & Hf & Hc & _).
  rewrite Hk, Hkp. repeat split; assumption.
Qed.

(** X26. When the store answers and every pair it holds reads as 'success'
    or 'failed', [run] does no work: it notes the start of one unit per pair
    and sleeps between them, but creates no session, calls neither [login]
    nor [check], and leaves [task_monitoring] and the failure file as they
    were, whatever plugin and browser it is given. *)
Theorem run_skips_settled_pairs (fuel : nat) (w : World E) :
  healthy store_fault ->
  (forall kp, In kp (join_keys (keys w) (keys_proxies w)) ->
              settled kp (task_monitoring w)) ->
  ends (run cwd tokenPlugin build_session tabReset rmSync setTimeout
          store_fault cfg fuel) w
    (fun r w' =>
       r = Ok tt /\
       task_monitoring w' = task_monitoring w /\
       fail_tasks w' = fail_tasks w /\
       exists cs,
         calls w' = calls w ++ cs /\ only_starts cs /\
         length cs = length (join_keys (keys w) (keys_proxies w))).
Proof.
  intros H Hall. unfold run. do 2 step.
  eapply ends_weaken; [apply loadKeyProxyData_frame, H|].
  intros r w0 (-> & Htm0 & Hf0 & Hc0). step.
  eapply ends_weaken; [apply launch_all_settled; [exact H|]|].
  { intros kp Hin. rewrite Htm0. apply Hall, Hin. }
  intros r w1 (ps & cs & -> & Hps & Htm1 & Hf1 & Hc1 & Hcs & Hlen).
  repeat step. rewrite Hps. repeat step. fields.
  split; [reflexivity|]. split; [congruence|]. split; [congruence|].
  exists cs. split; [congruence|]. split; assumption.
Qed.

End RunSettled.

Section RunSettles.
Context {E driver element : Type}.
Variable cwd : string.
Variable browser : Plugin.Browser E driver element.
Variable build_session : string -> string -> E -> outcome driver * E.
Variable tabReset : option driver -> E -> outcome unit * E.
Variable rmSync : string -> E -> outcome unit * E.
Variable setTimeout : Z -> E -> Z * E.
Variable store_fault : nat -> option string.
Variable cfg : Config.

Import Manager Plugin.

Lemma updated_rows_settled (keyId : Z) (proxyUrl newState : string) (pt : value)
  (t : Z) (tm : list TaskRow) :
  stored_state keyId proxyUrl
    (map (Store.update_row keyId proxyUrl newState pt t) (ensured keyId proxyUrl t tm))
  = Some newState.
Proof.
  destruct (rows_of_updated keyId proxyUrl newState pt t (ensured keyId proxyUrl t tm))
    as [Hall Hlen].
  eapply stored_state_of_rows; [|exact Hall].
  intros Hnil. rewrite Hnil in Hlen. cbn [length] in Hlen.
  apply (ensured_has_row keyId proxyUrl t tm).
  apply length_zero_iff_nil. symmetry. exact Hlen.
Qed.

(** With the plugin of the repository and sessions that can be created, one
    run of the handler settles the pair. *)
Lemma token_handler_settles (fuel : nat) (kp : KeyProxy) (w : World E) :
  healthy store_fault ->
  MAX_LOGIN_RETRIES cfg < fuel ->
  (forall path proxyUrl e, exists d, fst (build_session path proxyUrl e) = Ok d) ->
  ends (handleKeyProxyTask cwd (TokenPlugin browser) build_session tabReset rmSync
          store_fault cfg fuel kp) w
    (fun r w' => settled kp (task_monitoring w')).
Proof.
  intros Hh Hfuel Hsessions. unfold settled.
  destruct (is_terminal (stored_state (pair_id kp) (pair_proxy kp) (task_monitoring w)))
    eqn:Hterm.
  - eapply ends_weaken; [apply handle_terminal; assumption|].
    intros r w' (_ & Htm & _). rewrite Htm. exact Hterm.
  - eapply ends_weaken; [apply handler_outcomes_traced; assumption|].
    intros r w' H. cbv zeta in H.
    destruct H as [(d0 & v & e & _ & _ & Ht & _)|[[Ht _]|(_ & _ & Herr)]].
    + rewrite Ht, updated_rows_settled. reflexivity.
    + rewrite Ht, updated_rows_settled. reflexivity.
    + exfalso. destruct Herr as [(message & Hm)|(d0 & e & message & Hm)].
      * destruct (Hsessions (getProfilePath cwd (pair_key kp) (pair_proxy kp))
                    (pair_proxy kp) (env w)) as (d & Hd).
        rewrite Hd in Hm. discriminate Hm.
      * cbn [check TokenPlugin] in Hm.
        destruct (token_check_number_or_false browser d0 "cntp" (pair_key kp)
                    (pair_proxy kp) e) as [(n & Hn)|Hfalse];
          rewrite Hm in *; discriminate.
Qed.

Lemma launch_settles (fuel : nat) (kp : KeyProxy) (w0 : World E) :
  healthy store_fault ->
  MAX_LOGIN_RETRIES cfg < fuel ->
  (forall path proxyUrl e, exists d, fst (build_session path proxyUrl e) = Ok d) ->
  ends (launch cwd (TokenPlugin browser) build_session tabReset rmSync setTimeout
          store_fault cfg fuel kp) w0
    (fun r w' =>
       r = Ok (Ok tt) /\
       settled kp (task_monitoring w') /\
       forall k' p', (k', p') <> pair_index kp ->
         stored_state k' p' (task_monitoring w')
         = stored_state k' p' (task_monitoring w0)).
Proof.
  intros Hh Hfuel Hsessions. destruct kp as [keyId the_key proxyUrl].
  unfold launch. repeat step.
  eapply ends_weaken;
    [apply ends_and;
     [apply token_handler_settles; assumption
     |apply (handler_frame_respected cwd (TokenPlugin browser) build_session tabReset
               rmSync store_fault cfg keyId the_key proxyUrl fuel Hfuel)]|].
  intros r w1 [Hset Hfr]. cbv beta in Hfr.
  destruct Hfr as (_ & _ & _ & _ & Hrows & _). fields_in Hrows.
  assert (Hother : forall k' p', (k', p') <> (keyId, proxyUrl) ->
            stored_state k' p' (task_monitoring w1)
            = stored_state k' p' (task_monitoring w0))
    by (intros k' p' Hne; eapply stored_state_other; eassumption).
  destruct r as [u|message]; cbv beta iota; unfold sleep; repeat step; fields;
    (split; [reflexivity|]); (split; [exact Hset|exact Hother]).
Qed.

Lemma launch_all_settles (fuel : nat) (pairs : list KeyProxy) :
  healthy store_fault ->
  MAX_LOGIN_RETRIES cfg < fuel ->
  (forall path proxyUrl e, exists d, fst (build_session path proxyUrl e) = Ok d) ->
  NoDup (map pair_index pairs) ->
  forall w0 : World E,
  ends (mapM (launch cwd (TokenPlugin browser) build_session tabReset rmSync setTimeout
                store_fault cfg fuel) pairs) w0
    (fun r w' =>
       (exists promises,
          r = Ok promises /\ promise_all promises = Ok (map (fun _ => tt) pairs)) /\
       (forall kp, In kp pairs -> settled kp (task_monitoring w')) /\
       (forall k' p', ~ In (k', p') (map pair_index pairs) ->
          stored_state k' p' (task_monitoring w')
          = stored_state k' p' (task_monitoring w0))).
Proof.
  intros Hh Hfuel Hsessions. induction pairs as [|kp pairs IH]; intros Hnd w0; cbn [mapM].
  - step. split; [exists []; split; reflexivity|]. split; [intros kp []|reflexivity].
  - cbn [map] in Hnd. inversion Hnd as [|? ? Hkp Hnd']; subst.
    step. eapply ends_weaken; [apply launch_settles; assumption|].
    intros r w1 (-> & Hset & Hother). step.
    eapply ends_weaken; [apply (IH Hnd')|].
    intros r w2 ((ps & -> & Hps) & Hall & Hrest). step.
    split; [exists (Ok tt :: ps); split; [reflexivity|cbn; rewrite Hps; reflexivity]|].
    split.
    + intros kp' [<-|Hin]; [|apply Hall, Hin].
      unfold settled in Hset |- *. rewrite (Hrest _ _ Hkp). exact Hset.
    + intros k' p' Hnot. rewrite Hrest, Hother; [reflexivity| |].
      * intros Heq. apply Hnot. left. symmetry. exact Heq.
      * intros Hin. apply Hnot. right. exact Hin.
Qed.

(** X27. With the plugin of the repository, one run settles every pair:
    when the store answers, every session can be created and no two pairs
    have the same key id and proxy, then after [run] every pair that
    [loadKeyProxyData] listed reads as 'success' or 'failed', whatever the
    pages showed: a later unit never undoes the state of an earlier pair. *)
Theorem run_settles_every_pair (fuel : nat) (w : World E) :
  healthy store_fault ->
  MAX_LOGIN_RETRIES cfg < fuel ->
  (forall path proxyUrl e, exists d, fst (build_session path proxyUrl e) = Ok d) ->
  NoDup (map pair_index (join_keys (keys w) (keys_proxies w))) ->
  ends (run cwd (TokenPlugin browser) build_session tabReset rmSync setTimeout
          store_fault cfg fuel) w
    (fun r w' =>
       r = Ok tt /\
       forall kp, In kp (join_keys (keys w) (keys_proxies w)) ->
                  settled kp (task_monitoring w')).
Proof.
  intros Hh Hfuel Hsessions Hnd. unfold run. do 2 step.
  eapply ends_weaken; [apply loadKeyProxyData_healthy, Hh|].
  intros r w0 (-> & _). step.
  eapply ends_weaken; [apply launch_all_settles; assumption|].
  intros r w1 ((ps & -> & Hps) & Hall & _).
  repeat step. rewrite Hps. repeat step. fields.
  split; [reflexivity|exact Hall].
Qed.

End RunSettles.

(** ** The further properties at concrete runs *)
Section FurtherRuns.
Import Scenario Cases Manager Plugin Assignment Stage.

Lemma saveKeyProxyMappings_twice_witness :
  healthy no_fault /\
  ends (saveKeyProxyMappings no_fault one_assignment) (fresh tt) (fun r1 w1 =>
    r1 = Ok tt /\
    ends (saveKeyProxyMappings no_fault one_assignment) w1 (fun r2 w2 =>
      r2 = Ok tt /\ keys w2 = keys w1 /\ keys_proxies w2 = keys_proxies w1)).
Proof.
  split; [intros n; reflexivity|].
  apply (saveKeyProxyMappings_twice no_fault one_assignment (fresh tt)).
  intros n. reflexivity.
Defined.


Lemma handler_call_sequence_witness :
  MAX_LOGIN_RETRIES config < 3 /\
  ends (handleKeyProxyTask "/srv" (answering (VBool false) (VNum 37))
          session_ok reset_ok rm_ok no_fault config 3 pair1) (fresh tt)
    (fun r w' =>
       exists cs,
         calls w' = calls (fresh tt) ++ cs /\
         handler_calls config (getProfilePath "/srv" "key-1" "10.0.0.1:8080")
                       "key-1" "10.0.0.1:8080" cs).
Proof.
  split; [repeat constructor|].
  apply (handler_call_sequence "/srv" (answering (VBool false) (VNum 37))
           session_ok reset_ok rm_ok no_fault config 3 pair1 (fresh tt)).
  repeat constructor.
Defined.

Lemma handler_keeps_to_its_pair_witness :
  MAX_LOGIN_RETRIES config < 3 /\
  ends (handleKeyProxyTask "/srv" (answering (VBool false) (VNum 37))
          session_ok reset_ok rm_ok no_fault config 3 pair1) done_world
    (fun _ w' => handler_frame 1 "key-1" "10.0.0.1:8080" done_world w').
Proof.
  split; [repeat constructor|].
  apply (handler_keeps_to_its_pair "/srv" (answering (VBool false) (VNum 37))
           session_ok reset_ok rm_ok no_fault config 1 "key-1" "10.0.0.1:8080" 3
           done_world).
  repeat constructor.
Defined.



Lemma run_staggers_every_pair_witness :
  (healthy no_fault /\ MAX_LOGIN_RETRIES config < 3 /\
   (forall ms e, (ms <= fst (on_time ms e))%Z)) /\
  ends (run "/srv" login_ok_n session_ok_n second_reset_throws rm_ok_n on_time
          no_fault config 3) three_pairs
    (fun r w' => r = Ok tt /\ (135000 <= now w')%Z).
Proof.
  split; [split; [intros n; reflexivity|split; [repeat constructor|]]|].
  { intros ms e. cbn. lia. }
  eapply ends_weaken.
  - eapply (run_staggers_every_pair "/srv" login_ok_n session_ok_n second_reset_throws
              rm_ok_n on_time no_fault config 3 three_pairs).
    + intros n. reflexivity.
    + repeat constructor.
    + intros ms e. cbn. lia.
  - intros r w' (Hr & _ & Hend & _). split; [exact Hr|].
    cbn in Hend. exact Hend.
Defined.

Lemma run_without_store_witness :
  fault_at 0 "unable to open database file" (store_ops three_pairs)
  = Some "unable to open database file" /\
  ends (run "/srv" login_ok_n session_ok_n reset_ok_n rm_ok_n on_time
          (fault_at 0 "unable to open database file") config 3) three_pairs
    (fun r w' => r = Ok tt /\ calls w' = []).
Proof.
  split; [reflexivity|].
  eapply ends_weaken.
  - eapply (run_without_store "/srv" login_ok_n session_ok_n reset_ok_n rm_ok_n on_time
              (fault_at 0 "unable to open database file") config 3
              "unable to open database file" three_pairs).
    reflexivity.
  - intros r w' (Hr & Hc & _). split; [exact Hr|exact Hc].
Defined.

Lemma handler_without_store_witness :
  (store_down (fun _ => Some "database is locked") /\ MAX_LOGIN_RETRIES config < 3) /\
  ends (handleKeyProxyTask "/srv" (answering (VBool true) (VNum 37))
          session_ok reset_ok rm_ok (fun _ => Some "database is locked") config 3 pair1)
       done_world
    (fun r w' => task_monitoring w' = [done_row] /\ calls w' <> []).
Proof.
  split; [split; [intros n; discriminate|repeat constructor]|].
  eapply ends_weaken.
  - eapply (handler_without_store "/srv" (answering (VBool true) (VNum 37))
              session_ok reset_ok rm_ok (fun _ => Some "database is locked") config 3
              pair1 done_world).
    + intros n. discriminate.
    + repeat constructor.
  - intros r w' (Ht & cs & Hc). split; [exact Ht|].
    rewrite Hc. cbn. discriminate.
Defined.


Lemma one_worker_per_chunk_witness :
  fst (read_three "proxies.txt" (env old_table)) = Ok three_lines /\
  ends (Validator.processProxies all_200 workers_fail read_three no_fault "proxies.txt")
       old_table
    (fun r w' => spawned (calls w') = [three_proxies]).
Proof.
  split; [reflexivity|].
  eapply ends_weaken.
  - eapply (one_worker_per_chunk all_200 workers_fail read_three no_fault
              "proxies.txt" three_lines old_table).
    reflexivity.
  - intros r w' (chunks & Hsp & Hcat & Hall & Hn).
    rewrite Hsp. change (Validator.clean_lines three_lines) with three_proxies in *.
    unfold PROXY_CHUNK_SIZE in Hn. cbn [length three_proxies] in Hn.
    destruct chunks as [|c [|c' chunks]]; cbn [length] in Hn; [lia| |lia].
    cbn [concat] in Hcat. rewrite app_nil_r in Hcat. rewrite Hcat. reflexivity.
Defined.

Lemma run_skips_settled_pairs_witness :
  (healthy no_fault /\
   forall kp, In kp (join_keys (keys settled_pair) (keys_proxies settled_pair)) ->
              settled kp (task_monitoring settled_pair)) /\
  ends (run "/srv" (answering (VBool true) (VNum 37)) session_ok reset_ok rm_ok timer_ok
          no_fault config 3) settled_pair
    (fun r w' => r = Ok tt /\ task_monitoring w' = [done_row] /\ logins (calls w') = 0).
Proof.
  assert (Hall : forall kp,
            In kp (join_keys (keys settled_pair) (keys_proxies settled_pair)) ->
            settled kp (task_monitoring settled_pair)).
  { intros kp [<-|[]]. reflexivity. }
  split; [split; [intros n; reflexivity|exact Hall]|].
  eapply ends_weaken.
  - eapply (run_skips_settled_pairs "/srv" (answering (VBool true) (VNum 37))
              session_ok reset_ok rm_ok timer_ok no_fault config 3 settled_pair).
    + intros n. reflexivity.
    + exact Hall.
  - intros r w' (Hr & Htm & _ & cs & Hc & Hcs & _).
    split; [exact Hr|]. split; [exact Htm|].
    rewrite Hc, logins_app. cbn [calls settled_pair logins Nat.add].
    clear Hc. induction Hcs as [|c cs Hc _ IH]; [reflexivity|].
    destruct c; try contradiction. exact IH.
Defined.

Lemma run_settles_every_pair_witness :
  (healthy no_fault /\ MAX_LOGIN_RETRIES config < 3 /\
   (forall path proxyUrl e, exists d, fst (session_ok path proxyUrl e) = Ok d) /\
   NoDup (map pair_index (join_keys (keys two_pairs) (keys_proxies two_pairs)))) /\
  ends (run "/srv" (TokenPlugin no_value_element) session_ok reset_ok rm_ok timer_ok
          no_fault config 3) two_pairs
    (fun r w' =>
       r = Ok tt /\
       settled (mkPair 2 "key-2" "10.0.0.2:8080") (task_monitoring w')).
Proof.
  assert (Hnd : NoDup (map pair_index
                         (join_keys (keys two_pairs) (keys_proxies two_pairs)))).
  { vm_compute. repeat constructor; cbn; intros H; decompose [or] H;
      try contradiction; discriminate. }
  assert (Hs : forall path proxyUrl e,
            exists d : unit, fst (session_ok path proxyUrl e) = Ok d)
    by (intros path proxyUrl e; exists tt; reflexivity).
  split.
  { split; [intros n; reflexivity|]. split; [repeat constructor|].
    split; [exact Hs|exact Hnd]. }
  eapply ends_weaken.
  - eapply (run_settles_every_pair "/srv" no_value_element session_ok reset_ok rm_ok
              timer_ok no_fault config 3 two_pairs).
    + intros n. reflexivity.
    + repeat constructor.
    + exact Hs.
    + exact Hnd.
  - intros r w' (Hr & Hall). split; [exact Hr|].
    apply Hall. right. left. reflexivity.
Defined.

End FurtherRuns.
